(** * obsidian-study-assist: highlights, flashcards and the review schedule

    A shallow embedding of [src/main.ts].  JavaScript numbers that the
    program only ever uses as counters (streaks, intervals, indices, page
    numbers) are integers [Z] or [nat]; client-space coordinates are
    doubles, modelled as the rationals they are, with the rounding of every
    operation written out and a separate value for the non-finite results.
    Strings are [string]: one character per UTF-16 code
    unit, restricted to the code units below 256.  A [Record<string, T>] is
    a [gmap string T]. *)

From Stdlib Require Import ZArith QArith Qabs Qround Qpower Lia Lqa List Ascii.
From Stdlib Require PrimFloat FloatOps SpecFloat.
From stdpp Require Import base option gmap strings pretty list sorting.

Import (notations) PrimFloat.

Local Open Scope Z_scope.

(** ** The clock

    [new Date()] is an input of every operation that stamps a record.  What
    the program observes of it is its time value, the milliseconds since the
    epoch that [getTime] and [toISOString] give, and, through [getDate] and
    [setDate], the local time zone adjustment of the host: [LocalTZA t true]
    is the offset of local time at the instant [t], and [LocalTZA t false]
    the offset in force at the local time value [t] (ECMAScript,
    LocalTime and UTC).  A number written where a [Date] is expected is
    that instant on a host whose local time is UTC. *)

Module Date.
Record t := mk { getTime : Z; LocalTZA : Z → bool → Z }.
End Date.

Definition Date := Date.t.

Definition utc (time : Z) : Date := Date.mk time (λ _ _, 0).
Coercion utc : Z >-> Date.

Definition msPerDay : Z := 86400000.

(** [LocalTime(t)] and [UTC(t)] on the host of a [Date]. *)
Definition LocalTime (host : Date) (t : Z) : Z := t + Date.LocalTZA host t true.

Definition UTC (host : Date) (t : Z) : Z := t - Date.LocalTZA host t false.

(** [d = new Date(now.getTime()); d.setDate(now.getDate() + days)], lines
    815-816.  [setDate] works on the local time of the date:
    [MakeDay(year, month, getDate() + days)] is the day of the local time
    plus [days] and the time within the day is kept, so the local time
    moves by [days] whole days; the result is the instant [UTC] gives for
    that local time.  ([TimeClip]: a result more than 8.64e15 ms from the
    epoch is an invalid date, whose [toISOString] throws; the model has no
    invalid date, see [inDateRange].) *)
Definition setDate_plus (now : Date) (days : Z) : Date :=
  Date.mk (UTC now (LocalTime now (Date.getTime now) + days * msPerDay))
          (Date.LocalTZA now).

(** The time values of valid dates. *)
Definition inDateRange (time : Z) : Prop := Z.abs time <= 8640000000000000.

(** ** CardProgress *)

Module CardProgress.
Record t := mk {
  lastReviewedAt : option Date;
  nextDueAt : option Date;
  streak : Z;
  intervalDays : Z;
  done : option bool
}.
End CardProgress.

(** The literal [{ streak: 0, intervalDays: 0 }] that stands in for a
    missing previous record. *)
Definition defaultProgress : CardProgress.t :=
  CardProgress.mk None None 0 0 None.

(** [buildNextProgress(previous, isGood)], lines 793-821. *)
Definition buildNextProgress (now : Date) (previous : option CardProgress.t)
    (isGood : bool) : CardProgress.t :=
  let current := match previous with
                 | Some p => p
                 | None => defaultProgress
                 end in
  let current :=
    if isGood then
      let streak' := CardProgress.streak current + 1 in
      CardProgress.mk (CardProgress.lastReviewedAt current)
                      (CardProgress.nextDueAt current)
                      streak'
                      (Z.max 1 (CardProgress.intervalDays current + streak'))
                      (Some true)
    else
      CardProgress.mk (CardProgress.lastReviewedAt current)
                      (CardProgress.nextDueAt current)
                      0 0 (Some false) in
  let nextDue :=
    setDate_plus now (if isGood then CardProgress.intervalDays current else 0) in
  CardProgress.mk (Some now) (Some nextDue)
                  (CardProgress.streak current)
                  (CardProgress.intervalDays current)
                  (CardProgress.done current).

(** The three fields the schedule is read from. *)
Definition schedule (p : CardProgress.t) : Z * Z * option bool :=
  (CardProgress.streak p, CardProgress.intervalDays p, CardProgress.done p).

(** A run of grades on one card: each grade is stamped with the instant it
    was given, and the record of the card starts out missing. *)
Definition gradeStep (prev : option CardProgress.t) (g : Date * bool)
    : option CardProgress.t :=
  Some (buildNextProgress (fst g) prev (snd g)).

Definition runGradesFrom (start : option CardProgress.t) (grades : list (Date * bool))
    : option CardProgress.t :=
  fold_left gradeStep grades start.

Definition runGrades (grades : list (Date * bool)) : option CardProgress.t :=
  runGradesFrom None grades.

Definition streakOf (s : option CardProgress.t) : Z :=
  CardProgress.streak (default defaultProgress s).

Definition intervalOf (s : option CardProgress.t) : Z :=
  CardProgress.intervalDays (default defaultProgress s).

Definition doneOf (s : option CardProgress.t) : option bool :=
  s ≫= CardProgress.done.

(** ** Exceptions

    A computation that may throw: [Ok v] is a normal completion, [Throw] an
    exception on its way to the nearest [catch]. *)

Inductive Result (A : Type) : Type :=
| Ok (v : A)
| Throw.
Arguments Ok {A} v.
Arguments Throw {A}.

#[global] Instance Result_ret : MRet Result := λ A v, Ok v.
#[global] Instance Result_bind : MBind Result := λ A B f r,
  match r with
  | Ok v => f v
  | Throw => Throw
  end.

(** [try { body } catch { handler }] *)
Definition try_catch {A} (body : Result A) (handler : Result A) : Result A :=
  match body with
  | Ok v => Ok v
  | Throw => handler
  end.

(** ** JSON values

    The values [JSON.parse] returns.  Numbers are exact decimals; an object
    is the list of its own properties in the order they were created. *)

#[local] Set Warnings "-register-all".
Inductive json : Type :=
| JNull
| JBool (b : bool)
| JNumber (q : Q)
| JString (s : string)
| JArray (items : list json)
| JObject (props : list (string * json)).

Module JSON.

(** [obj[key]] on the own properties: the first entry under the key. *)
Fixpoint lookup (key : string) (props : list (string * json)) : option json :=
  match props with
  | [] => None
  | (k, v) :: rest => if decide (k = key) then Some v else lookup key rest
  end.

(** [obj[key] = v]: an existing property keeps its place. *)
Fixpoint set (props : list (string * json)) (key : string) (v : json)
    : list (string * json) :=
  match props with
  | [] => [(key, v)]
  | (k, v') :: rest =>
      if decide (k = key) then (k, v) :: rest else (k, v') :: set rest key v
  end.

Definition dquote : Ascii.ascii := Ascii.ascii_of_nat 34.

Definition isWhitespace (c : Ascii.ascii) : bool :=
  let n := Ascii.nat_of_ascii c in
  (n =? 32)%nat || (n =? 9)%nat || (n =? 10)%nat || (n =? 13)%nat.

Fixpoint skipWhitespace (s : list Ascii.ascii) : list Ascii.ascii :=
  match s with
  | c :: rest => if isWhitespace c then skipWhitespace rest else s
  | [] => []
  end.

Definition digitValue (c : Ascii.ascii) : option Z :=
  let n := Z.of_nat (Ascii.nat_of_ascii c) in
  if decide (48 <= n <= 57) then Some (n - 48) else None.

Definition hexValue (c : Ascii.ascii) : option Z :=
  let n := Z.of_nat (Ascii.nat_of_ascii c) in
  if decide (48 <= n <= 57) then Some (n - 48)
  else if decide (97 <= n <= 102) then Some (n - 87)
  else if decide (65 <= n <= 70) then Some (n - 55)
  else None.

(** The longest run of digits at the head: their value, their number, and
    the rest. *)
Fixpoint digits (s : list Ascii.ascii) (acc : Z) (count : Z)
    : Z * Z * list Ascii.ascii :=
  match s with
  | c :: rest =>
      match digitValue c with
      | Some d => digits rest (10 * acc + d) (count + 1)
      | None => (acc, count, s)
      end
  | [] => (acc, count, [])
  end.

(** A number token: [-? int frac? exp?]. *)
Definition parseNumber (s : list Ascii.ascii) : Result (Q * list Ascii.ascii) :=
  let '(sign, s) := match s with
                    | "-"%char :: rest => (-1, rest)
                    | _ => (1, s)
                    end in
  '(int, s) ← match s with
              | "0"%char :: rest => Ok (0, rest)
              | c :: _ =>
                  match digitValue c with
                  | Some _ => let '(n, _, rest) := digits s 0 0 in Ok (n, rest)
                  | None => Throw
                  end
              | [] => Throw
              end;
  '(mantissa, scale, s) ← match s with
                          | "."%char :: rest =>
                              let '(n, count, rest) := digits rest int 0 in
                              if decide (count = 0) then Throw else Ok (n, count, rest)
                          | _ => Ok (int, 0, s)
                          end;
  '(exponent, s) ← match s with
                   | "e"%char :: rest | "E"%char :: rest =>
                       let '(esign, rest) := match rest with
                                             | "-"%char :: rest' => (-1, rest')
                                             | "+"%char :: rest' => (1, rest')
                                             | _ => (1, rest)
                                             end in
                       let '(n, count, rest) := digits rest 0 0 in
                       if decide (count = 0) then Throw else Ok (esign * n, rest)
                   | _ => Ok (0, s)
                   end;
  Ok (Qred (inject_Z (sign * mantissa) * Qpower 10 (exponent - scale)), s).

Definition escapeChar (e : Ascii.ascii) : option Ascii.ascii :=
  if Ascii.eqb e dquote then Some dquote
  else match e with
       | "\"%char => Some "\"%char
       | "/"%char => Some "/"%char
       | "b"%char => Some (Ascii.ascii_of_nat 8)
       | "f"%char => Some (Ascii.ascii_of_nat 12)
       | "n"%char => Some (Ascii.ascii_of_nat 10)
       | "r"%char => Some (Ascii.ascii_of_nat 13)
       | "t"%char => Some (Ascii.ascii_of_nat 9)
       | _ => None
       end.

(** The characters of a string token after its opening quote.  A code unit
    above 255 written as a [\u] escape is kept modulo 256. *)
Fixpoint parseString (s : list Ascii.ascii) (acc : string)
    : Result (string * list Ascii.ascii) :=
  match s with
  | [] => Throw
  | c :: rest =>
      if Ascii.eqb c dquote then Ok (acc, rest)
      else if Ascii.eqb c "\"%char then
        match rest with
        | "u"%char :: h1 :: h2 :: h3 :: h4 :: rest' =>
            match hexValue h1, hexValue h2, hexValue h3, hexValue h4 with
            | Some a, Some b, Some c, Some d =>
                let code := ((a * 16 + b) * 16 + c) * 16 + d in
                parseString rest'
                  (acc +:+ String (Ascii.ascii_of_nat (Z.to_nat (code `mod` 256))) "")
            | _, _, _, _ => Throw
            end
        | e :: rest' =>
            match escapeChar e with
            | Some ch => parseString rest' (acc +:+ String ch "")
            | None => Throw
            end
        | [] => Throw
        end
      else if (Ascii.nat_of_ascii c <? 32)%nat then Throw
      else parseString rest (acc +:+ String c "")
  end.

(** A value, the elements of an array after the first, the members of an
    object; [fuel] bounds the nesting and the number of elements. *)
Fixpoint parseValue (fuel : nat) (s : list Ascii.ascii)
    : Result (json * list Ascii.ascii) :=
  match fuel with
  | O => Throw
  | S fuel =>
      match skipWhitespace s with
      | "n"%char :: "u"%char :: "l"%char :: "l"%char :: rest => Ok (JNull, rest)
      | "t"%char :: "r"%char :: "u"%char :: "e"%char :: rest => Ok (JBool true, rest)
      | "f"%char :: "a"%char :: "l"%char :: "s"%char :: "e"%char :: rest =>
          Ok (JBool false, rest)
      | "["%char :: rest =>
          match skipWhitespace rest with
          | "]"%char :: rest' => Ok (JArray [], rest')
          | _ => '(items, rest') ← parseElements fuel rest [];
                 Ok (JArray items, rest')
          end
      | "{"%char :: rest =>
          match skipWhitespace rest with
          | "}"%char :: rest' => Ok (JObject [], rest')
          | _ => '(props, rest') ← parseMembers fuel rest [];
                 Ok (JObject props, rest')
          end
      | c :: rest =>
          if Ascii.eqb c dquote then
            '(str, rest') ← parseString rest "";
            Ok (JString str, rest')
          else
            '(q, rest') ← parseNumber (c :: rest);
            Ok (JNumber q, rest')
      | [] => Throw
      end
  end
with parseElements (fuel : nat) (s : list Ascii.ascii) (acc : list json)
    : Result (list json * list Ascii.ascii) :=
  match fuel with
  | O => Throw
  | S fuel =>
      '(v, rest) ← parseValue fuel s;
      match skipWhitespace rest with
      | ","%char :: rest' => parseElements fuel rest' (acc ++ [v])
      | "]"%char :: rest' => Ok (acc ++ [v], rest')
      | _ => Throw
      end
  end
with parseMembers (fuel : nat) (s : list Ascii.ascii) (acc : list (string * json))
    : Result (list (string * json) * list Ascii.ascii) :=
  match fuel with
  | O => Throw
  | S fuel =>
      match skipWhitespace s with
      | c :: rest =>
          if Ascii.eqb c dquote then
            '(key, rest) ← parseString rest "";
            match skipWhitespace rest with
            | ":"%char :: rest =>
                '(v, rest) ← parseValue fuel rest;
                match skipWhitespace rest with
                | ","%char :: rest' => parseMembers fuel rest' (set acc key v)
                | "}"%char :: rest' => Ok (set acc key v, rest')
                | _ => Throw
                end
            | _ => Throw
            end
          else Throw
      | [] => Throw
      end
  end.

(** [JSON.parse(raw)]: one value, with nothing but whitespace around it;
    anything else is a [SyntaxError]. *)
Definition parse (raw : string) : Result json :=
  let s := String.list_ascii_of_string raw in
  '(v, rest) ← parseValue (2 * length s + 2) s;
  match skipWhitespace rest with
  | [] => Ok v
  | _ => Throw
  end.

End JSON.

(** [ToBoolean] of a property that may be missing. *)
Definition truthy (v : option json) : bool :=
  match v with
  | None | Some JNull => false
  | Some (JBool b) => b
  | Some (JNumber q) => negb (Qeq_bool q 0)
  | Some (JString s) => bool_decide (s ≠ "")
  | Some (JArray _) | Some (JObject _) => true
  end.

(** The values of a present property that [ToBoolean] takes to false. *)
Definition falsy (w : json) : Prop :=
  w = JNull ∨ w = JBool false ∨ w = JString "" ∨ ∃ q, w = JNumber q ∧ (q == 0)%Q.

(** [item?.key]: only an object has own properties under a name such as
    [question]. *)
Definition getProperty (item : json) (key : string) : option json :=
  match item with
  | JObject props => JSON.lookup key props
  | _ => None
  end.

(** The digits of the fraction [rem / den], while there are any. *)
Fixpoint fractionDigits (fuel : nat) (rem den : Z) : string :=
  match fuel with
  | O => ""
  | S fuel =>
      if decide (rem = 0) then ""
      else pretty ((10 * rem) `div` den) +:+ fractionDigits fuel ((10 * rem) `mod` den) den
  end.

(** [String(n)] for a number: an integer in decimal digits, any other
    decimal with its fraction digits (the rounding of doubles and the
    exponent notation of very large and very small numbers are not
    modelled). *)
Definition Number_toString (q : Q) : string :=
  let n := Qnum (Qred q) in
  let d := Zpos (Qden (Qred q)) in
  if decide (d = 1) then pretty n
  else (if decide (n < 0) then "-" else "")
       +:+ pretty (Z.abs n `div` d) +:+ "."
       +:+ fractionDigits 1100 (Z.abs n `mod` d) d.

(** [String(v)].  An object that has an own property [toString] has no
    primitive value: the conversion throws a [TypeError]. *)
Fixpoint String_ (v : json) : Result string :=
  match v with
  | JNull => Ok "null"
  | JBool true => Ok "true"
  | JBool false => Ok "false"
  | JNumber q => Ok (Number_toString q)
  | JString s => Ok s
  | JObject props =>
      match JSON.lookup "toString" props with
      | Some _ => Throw
      | None => Ok "[object Object]"
      end
  | JArray items =>
      (fix join (items : list json) : Result string :=
         match items with
         | [] => Ok ""
         | item :: rest =>
             first ← match item with
                     | JNull => Ok ""
                     | _ => String_ item
                     end;
             match rest with
             | [] => Ok first
             | _ => others ← join rest; Ok (first +:+ "," +:+ others)
             end
         end) items
  end.

(** One card of the response: [{ question, answer }]. *)
Module QA.
Record t := mk { question : string; answer : string }.
End QA.

(** The predicate of [parsed.filter], line 1041. *)
Definition usableItem (item : json) : bool :=
  truthy (getProperty item "question") && truthy (getProperty item "answer").

(** The function of [.map], lines 1042-1045; the properties are present on
    the items that passed the filter. *)
Definition cardOfItem (item : json) : Result QA.t :=
  question ← String_ (default JNull (getProperty item "question"));
  answer ← String_ (default JNull (getProperty item "answer"));
  Ok (QA.mk question answer).

(** [parseFlashcards(raw)], lines 1036-1049. *)
Definition parseFlashcards (raw : string) : Result (list QA.t) :=
  try_catch
    (parsed ← JSON.parse raw;
     match parsed with
     | JArray items => mapM cardOfItem (List.filter usableItem items)
     | _ => Ok []
     end)
    (Ok []).

(** ** Numbers

    A client-space coordinate is a JavaScript number, an IEEE 754 double.
    The finite doubles are rationals, and the model keeps them as such:
    [double q] is the double that an operation whose exact result is [q]
    returns, [q] rounded to the nearest number with 53 significant bits and
    an exponent of at least -1022, ties to the even significand, and to an
    infinity from [2^1024 - 2^970] on.  [NonFinite] stands for the
    infinities and NaN; every quotient, product and sum the program forms
    with one of them is again one of them.  [Null] is what [JSON.parse]
    reads where [JSON.stringify] wrote a non-finite number; in arithmetic
    it counts as [0]. *)

Inductive number : Type :=
| Fin (q : Q)
| NonFinite
| Null.

Definition pow2 (z : Z) : Q := (2 ^ z)%Q.

(** The exponent of a rational other than zero: [2^k <= |q| < 2^(k+1)]. *)
Definition ilog2 (q : Q) : Z :=
  let k := Z.log2 (Z.abs (Qnum q)) - Z.log2 (Zpos (Qden q)) in
  if Qle_bool (pow2 k) (Qabs q) then k else k - 1.

Definition roundHalfEven (q : Q) : Z :=
  let f := Qfloor q in
  match (q - inject_Z f ?= 1 # 2)%Q with
  | Lt => f
  | Gt => f + 1
  | Eq => if Z.even f then f else f + 1
  end.

Definition double (q : Q) : number :=
  if Qeq_bool q 0 then Fin 0 else
  let e := Z.max (ilog2 q) (-1022) in
  let ulp := pow2 (e - 52) in
  let r := (inject_Z (roundHalfEven (q / ulp)) * ulp)%Q in
  if Qle_bool (pow2 1024) (Qabs r) then NonFinite else Fin (Qred r).

(** The relative error of one rounding, and its absolute error where the
    result is subnormal. *)
Definition unitRoundoff : Q := pow2 (-53).
Definition leastError : Q := pow2 (-1075).

(** A little more than the unit roundoff, so that the relative error of [i]
    operations in a row stays below [i] times as much. *)
Definition stepError : Q := unitRoundoff + unitRoundoff * pow2 (-40).

(** The program computes in doubles.  The same formulas over the
    rationals, without rounding, are the exact arithmetic they are measured
    against. *)
Inductive Arithmetic : Type := Doubles | Exact.

Definition rounded (a : Arithmetic) (q : Q) : number :=
  match a with
  | Doubles => double q
  | Exact => Fin q
  end.

(** [ToNumber] of an operand: [null] is [0]. *)
Definition toNumber (n : number) : number :=
  match n with
  | Null => Fin 0
  | _ => n
  end.

(** [x - y], [n / b], [n * b] and [x + n]. *)
Definition number_sub (a : Arithmetic) (x y : Q) : number := rounded a (x - y).

Definition number_div (a : Arithmetic) (n : number) (b : Q) : number :=
  match toNumber n with
  | Fin q => if Qeq_bool b 0 then NonFinite else rounded a (q / b)
  | _ => NonFinite
  end.

Definition number_mul (a : Arithmetic) (n : number) (b : Q) : number :=
  match toNumber n with
  | Fin q => rounded a (q * b)
  | _ => NonFinite
  end.

Definition number_add (a : Arithmetic) (x : Q) (n : number) : number :=
  match toNumber n with
  | Fin q => rounded a (x + q)
  | _ => NonFinite
  end.

(** Equality of numbers as values: finite numbers are compared as
    rationals, and nothing equals a non-finite result or [null]. *)
Definition number_is (a : number) (q : Q) : Prop :=
  match a with
  | Fin q' => (q' == q)%Q
  | _ => False
  end.

(** A number is finite and no further than [tolerance] from [q]. *)
Definition number_near (tolerance : Q) (n : number) (q : Q) : Prop :=
  match n with
  | Fin r => (Qabs (r - q) <= tolerance)%Q
  | _ => False
  end.

(** The binary64 numbers of the proof assistant, as numbers of the model:
    [double] is checked against their operations below. *)
Definition ofFloat (f : PrimFloat.float) : number :=
  match FloatOps.Prim2SF f with
  | SpecFloat.S754_zero _ => Fin 0
  | SpecFloat.S754_finite s m e =>
      Fin (Qred ((if s then -1 else 1) * inject_Z (Zpos m) * pow2 e))
  | _ => NonFinite
  end.

Definition number_eqb (a b : number) : bool :=
  match a, b with
  | Fin q, Fin q' => Qeq_bool q q'
  | NonFinite, NonFinite => true
  | Null, Null => true
  | _, _ => false
  end.

(** The four operations of the model on two finite binary64 operands
    against the same operations of binary64. *)
Definition agreesWithBinary64 (x y : PrimFloat.float) : bool :=
  match ofFloat x, ofFloat y with
  | Fin a, Fin b =>
      number_eqb (number_div Doubles (Fin a) b) (ofFloat (x / y))
      && number_eqb (number_mul Doubles (Fin a) b) (ofFloat (x * y))
      && number_eqb (number_sub Doubles a b) (ofFloat (x - y))
      && number_eqb (number_add Doubles a (Fin b)) (ofFloat (x + y))
  | _, _ => false
  end.

(** Operands of the rectangles below, of the chains that store and draw
    them, and at the edges of the format: subnormal results, ties, and
    overflow. *)
Definition binary64Samples : list (PrimFloat.float * PrimFloat.float) :=
  [(20, 600); (180, 800); (90, 600); (14, 800);
   (20 / 600, 100); (20 / 600 * 100, 100); (20 / 600 * 100 / 100, 600);
   (14 / 800, 100); (14 / 800 * 100, 100); (14 / 800 * 100 / 100, 800);
   (0x1.199999999999ap0 * 120, 0x1.199999999999ap0 * 100);
   (0x1.199999999999ap0 * 20, 0x1.199999999999ap0 * 600);
   (1, 3); (-1, 3); (-7.5, 0x1.3333333333333p-2); (2, 0);
   (0x1.9f37ed8a3c5e1p8, 0x1.e10a8193b1d2fp8); (0x1.e0166ff7e4a10p7, 0x1.b198392d7f0a3p5);
   (0x1p-1074, 2); (0x1p-1074, 3); (0x1.8p-1074, 0x1p-1074); (0x1.23456789abcdep-1040, 3);
   (0x1p-1022, 0x1.0000000000001p0); (3, 0x1p-1060); (2, 0x1p-1060);
   (0x1p53, 1); (0x1.0000000000001p53, 1); (1.5, 0x1p52);
   (0x1.fffffffffffffp1023, 0x1.fffffffffffffp1023);
   (0x1.fffffffffffffp1023, 0x1.fffffffffffffp-1); (0x1.fffffffffffffp1023, 0x1p970);
   (0x1.fffffffffffffp1023, 0x1.fffffffffffffp969); (0x1p600, 0x1p-600);
   (0x1.e240ca6p16, 0x1.01f31f46ed246p-13)]%float.

(** What [JSON.parse] reads back of a number [JSON.stringify] wrote, lines
    886 and 880: a finite double as it was, a non-finite one as [null]. *)
Definition asStoredNumber (n : number) : number :=
  match n with
  | NonFinite => Null
  | _ => n
  end.

Inductive HighlightColor := yellow | green | blue | flashcard.

#[global] Instance HighlightColor_eq_dec : EqDecision HighlightColor.
Proof. solve_decision. Defined.

Module HighlightRect.
Record t := mk { x : number; y : number; w : number; h : number }.
End HighlightRect.

Module HighlightPage.
Record t := mk { page : Z; rects : list HighlightRect.t }.
End HighlightPage.

Module Highlight.
Record t := mk {
  id : string;
  color : HighlightColor;
  isFlashcard : bool;
  text : string;
  createdAt : Date;
  pages : list HighlightPage.t;
  flashcardGenerated : option bool
}.
End Highlight.

Module HighlightFile.
Record t := mk {
  version : Z;
  sourcePath : string;
  highlights : list Highlight.t
}.
End HighlightFile.

(** A highlight as it is read back from the file it was written to: its
    numbers go through [JSON.stringify] and [JSON.parse]. *)
Definition asStoredRect (rect : HighlightRect.t) : HighlightRect.t :=
  HighlightRect.mk (asStoredNumber (HighlightRect.x rect))
                   (asStoredNumber (HighlightRect.y rect))
                   (asStoredNumber (HighlightRect.w rect))
                   (asStoredNumber (HighlightRect.h rect)).

Definition asStoredPage (page : HighlightPage.t) : HighlightPage.t :=
  HighlightPage.mk (HighlightPage.page page) (asStoredRect <$> HighlightPage.rects page).

Definition asStored (highlight : Highlight.t) : Highlight.t :=
  Highlight.mk (Highlight.id highlight) (Highlight.color highlight)
               (Highlight.isFlashcard highlight) (Highlight.text highlight)
               (Highlight.createdAt highlight)
               (asStoredPage <$> Highlight.pages highlight)
               (Highlight.flashcardGenerated highlight).

Module Flashcard.
Record t := mk {
  id : string;
  sourcePath : string;
  highlightIds : list string;
  question : string;
  answer : string;
  createdAt : Date
}.
End Flashcard.

Module FlashcardFile.
Record t := mk { version : Z; cards : list Flashcard.t }.
End FlashcardFile.

Module ProgressFile.
Record t := mk { version : Z; progress : gmap string CardProgress.t }.
End ProgressFile.

Module PluginSettings.
Record t := mk { apiKey : string; model : string; storageFolder : string }.
End PluginSettings.

Definition DEFAULT_SETTINGS : PluginSettings.t :=
  PluginSettings.mk "" "gpt-5.1" ".flashcards".

Definition HIGHLIGHT_VERSION : Z := 1.
Definition FLASHCARD_VERSION : Z := 1.
Definition PROGRESS_VERSION : Z := 1.

(** ** The storage adapter

    The adapter holds the text of every file under its path, and the set of
    folders.  [readJson] is written once for every kind of text and every
    document type: [parse_assign fallback raw] is the expression
    [Object.assign({}, fallback, JSON.parse(raw))]. *)

Module Adapter.
Record t (Text : Type) := mk {
  files : gmap string Text;
  folders : gset string
}.
Arguments mk {Text} files folders.
Arguments files {Text} _.
Arguments folders {Text} _.

(** [exists(path)]: a file or a folder is there. *)
Definition exists_ {Text} (a : t Text) (path : string) : bool :=
  bool_decide (is_Some (files a !! path)) || bool_decide (path ∈ folders a).

(** [read(path)]: reading a path that holds no file throws. *)
Definition read {Text} (a : t Text) (path : string) : Result Text :=
  match files a !! path with
  | Some raw => Ok raw
  | None => Throw
  end.

Definition write {Text} (a : t Text) (path : string) (data : Text) : t Text :=
  mk (<[path := data]> (files a)) (folders a).

Definition mkdir {Text} (a : t Text) (folder : string) : t Text :=
  mk (files a) ({[folder]} ∪ folders a).
End Adapter.

(** [readJson<T>(path, fallback)], lines 873-883. *)
Definition readJson {Text T : Type} (parse_assign : T → Text → Result T)
    (adapter : Adapter.t Text) (path : string) (fallback : T) : Result T :=
  if negb (Adapter.exists_ adapter path) then Ok fallback
  else
    try_catch
      (raw ← Adapter.read adapter path;
       parse_assign fallback raw)
      (Ok fallback).

(** ** Reading raw text

    [readJson] on the text of the files themselves: the fallback and the
    result are JSON values. *)

(** The own enumerable properties [Object.assign] copies from a source. *)
Definition ownProperties (v : json) : list (string * json) :=
  match v with
  | JObject props => props
  | JArray items => imap (λ i item, (pretty i, item)) items
  | JString s =>
      imap (λ i c, (pretty i, JString (String c ""))) (String.list_ascii_of_string s)
  | JNull | JBool _ | JNumber _ => []
  end.

(** [Object.assign({}, ...sources)] *)
Definition Object_assign (sources : list json) : json :=
  JObject (fold_left
             (λ target source,
                fold_left (λ target kv, JSON.set target kv.1 kv.2)
                          (ownProperties source) target)
             sources []).

Definition readJsonText (adapter : Adapter.t string) (path : string) (fallback : json)
    : Result json :=
  readJson (λ fallback raw, parsed ← JSON.parse raw;
                            Ok (Object_assign [fallback; parsed]))
           adapter path fallback.

(** ** Stored documents

    What a file of the storage folder holds, as [readJson] sees it at the
    document types of the program: text that [JSON.parse] rejects, text that
    parses to a value with none of the document keys, or the serialisation
    [JSON.stringify(d, null, 2)] of a document [d], complete and of the
    declared types as [writeJson] leaves it. *)

Inductive FileText : Type :=
| Unparsable
| PlainJson
| HighlightJson (d : HighlightFile.t)
| FlashcardJson (d : FlashcardFile.t)
| ProgressJson (d : ProgressFile.t).

(** [Object.assign({}, fallback, JSON.parse(raw))] at each document type.
    Every document carries [version]; the other keys of a document of a
    different kind are not keys of the type read, so the fallback keeps its
    own. *)
Definition versionOf (raw : FileText) : option Z :=
  match raw with
  | HighlightJson d => Some (HighlightFile.version d)
  | FlashcardJson d => Some (FlashcardFile.version d)
  | ProgressJson d => Some (ProgressFile.version d)
  | Unparsable | PlainJson => None
  end.

Definition assignHighlightFile (fallback : HighlightFile.t) (raw : FileText)
    : Result HighlightFile.t :=
  match raw with
  | Unparsable => Throw
  | HighlightJson d => Ok d
  | _ => Ok (HighlightFile.mk
               (default (HighlightFile.version fallback) (versionOf raw))
               (HighlightFile.sourcePath fallback)
               (HighlightFile.highlights fallback))
  end.

Definition assignFlashcardFile (fallback : FlashcardFile.t) (raw : FileText)
    : Result FlashcardFile.t :=
  match raw with
  | Unparsable => Throw
  | FlashcardJson d => Ok d
  | _ => Ok (FlashcardFile.mk
               (default (FlashcardFile.version fallback) (versionOf raw))
               (FlashcardFile.cards fallback))
  end.

Definition assignProgressFile (fallback : ProgressFile.t) (raw : FileText)
    : Result ProgressFile.t :=
  match raw with
  | Unparsable => Throw
  | ProgressJson d => Ok d
  | _ => Ok (ProgressFile.mk
               (default (ProgressFile.version fallback) (versionOf raw))
               (ProgressFile.progress fallback))
  end.

(** ** The plugin

    [adapter] is [app.vault.adapter]; [notes] are the markdown files of the
    vault, by path; [progressCache] is the cached progress document. *)

Module Plugin.
Record t := mk {
  settings : PluginSettings.t;
  adapter : Adapter.t FileText;
  notes : gmap string string;
  progressCache : option ProgressFile.t
}.

Definition with_adapter (p : t) (a : Adapter.t FileText) : t :=
  mk (settings p) a (notes p) (progressCache p).

Definition with_notes (p : t) (n : gmap string string) : t :=
  mk (settings p) (adapter p) n (progressCache p).

Definition with_progressCache (p : t) (c : option ProgressFile.t) : t :=
  mk (settings p) (adapter p) (notes p) c.
End Plugin.

(** [a || b] on strings: the empty string is the only falsy one. *)
Definition string_or (a b : string) : string :=
  if decide (a = "") then b else a.

(** [ensureStorageFolder(create)], lines 695-703; the folder name it
    returns is not used by any caller. *)
Definition ensureStorageFolder (p : Plugin.t) (create : bool) : Plugin.t :=
  let folder := string_or (PluginSettings.storageFolder (Plugin.settings p))
                          ".flashcards" in
  let exists_ := Adapter.exists_ (Plugin.adapter p) folder in
  if negb exists_ && create
  then Plugin.with_adapter p (Adapter.mkdir (Plugin.adapter p) folder)
  else p.

Definition flashcardPath (p : Plugin.t) : string :=
  PluginSettings.storageFolder (Plugin.settings p) +:+ "/flashcards.json".

Definition progressPath (p : Plugin.t) : string :=
  PluginSettings.storageFolder (Plugin.settings p) +:+ "/progress.json".

(** [writeJson(path, data)], lines 885-888, at each document type. *)
Definition writeJson (p : Plugin.t) (path : string) (data : FileText) : Plugin.t :=
  Plugin.with_adapter p (Adapter.write (Plugin.adapter p) path data).

Definition emptyFlashcardFile : FlashcardFile.t :=
  FlashcardFile.mk FLASHCARD_VERSION [].

Definition emptyProgressFile : ProgressFile.t :=
  ProgressFile.mk PROGRESS_VERSION ∅.

Definition emptyHighlightFile (sourcePath : string) : HighlightFile.t :=
  HighlightFile.mk HIGHLIGHT_VERSION sourcePath [].

(** [loadAllCards()], lines 743-751. *)
Definition loadAllCards (p : Plugin.t) : Result (Plugin.t * list Flashcard.t) :=
  let p := ensureStorageFolder p false in
  let path := flashcardPath p in
  data ← readJson assignFlashcardFile (Plugin.adapter p) path emptyFlashcardFile;
  Ok (p, FlashcardFile.cards data).

(** [addCards(newCards)], lines 753-762. *)
Definition addCards (p : Plugin.t) (newCards : list Flashcard.t) : Result Plugin.t :=
  let p := ensureStorageFolder p true in
  let path := flashcardPath p in
  data ← readJson assignFlashcardFile (Plugin.adapter p) path emptyFlashcardFile;
  let data := FlashcardFile.mk (FlashcardFile.version data)
                               (FlashcardFile.cards data ++ newCards) in
  Ok (writeJson p path (FlashcardJson data)).

(** [this.progressCache ?? (await this.readJson(path, {...}))] *)
Definition cachedProgress (p : Plugin.t) : Result ProgressFile.t :=
  match Plugin.progressCache p with
  | Some data => Ok data
  | None => readJson assignProgressFile (Plugin.adapter p) (progressPath p)
                     emptyProgressFile
  end.

(** [updateProgressOptimistic(cardId, isGood)], lines 776-791.  The write
    is started and not awaited; its text is taken when it is started. *)
Definition updateProgressOptimistic (now : Date) (p : Plugin.t) (cardId : string)
    (isGood : bool) : Result (Plugin.t * CardProgress.t) :=
  let p := ensureStorageFolder p true in
  let path := progressPath p in
  data ← cachedProgress p;
  let current := buildNextProgress now (ProgressFile.progress data !! cardId) isGood in
  let data := ProgressFile.mk (ProgressFile.version data)
                              (<[cardId := current]> (ProgressFile.progress data)) in
  let p := Plugin.with_progressCache p (Some data) in
  let p := writeJson p path (ProgressJson data) in
  Ok (p, current).

(** [loadProgress()], lines 823-833. *)
Definition loadProgress (p : Plugin.t)
    : Result (Plugin.t * gmap string CardProgress.t) :=
  let p := ensureStorageFolder p false in
  data ← cachedProgress p;
  let p := Plugin.with_progressCache p (Some data) in
  Ok (p, ProgressFile.progress data).

(** [resetProgress()], lines 835-841. *)
Definition resetProgress (p : Plugin.t) : Plugin.t :=
  let p := ensureStorageFolder p true in
  let path := progressPath p in
  let data := emptyProgressFile in
  let p := writeJson p path (ProgressJson data) in
  Plugin.with_progressCache p (Some data).

(** [removeProgress(cardId)], lines 843-855. *)
Definition removeProgress (p : Plugin.t) (cardId : string) : Result Plugin.t :=
  let p := ensureStorageFolder p true in
  let path := progressPath p in
  data ← cachedProgress p;
  let data := ProgressFile.mk (ProgressFile.version data)
                              (delete cardId (ProgressFile.progress data)) in
  let p := writeJson p path (ProgressJson data) in
  Ok (Plugin.with_progressCache p (Some data)).

(** [pruneProgress(cards)], lines 857-871. *)
Definition pruneProgress (p : Plugin.t) (cards : list Flashcard.t) : Result Plugin.t :=
  let ids : gset string := list_to_set (Flashcard.id <$> cards) in
  let path := progressPath p in
  data ← cachedProgress p;
  let data := ProgressFile.mk (ProgressFile.version data)
                (filter (λ kv, kv.1 ∈ ids) (ProgressFile.progress data)) in
  let p := writeJson p path (ProgressJson data) in
  Ok (Plugin.with_progressCache p (Some data)).

(** [replaceAllCards(cards)], lines 764-770. *)
Definition replaceAllCards (p : Plugin.t) (cards : list Flashcard.t) : Result Plugin.t :=
  let p := ensureStorageFolder p true in
  let path := flashcardPath p in
  let data := FlashcardFile.mk FLASHCARD_VERSION cards in
  let p := writeJson p path (FlashcardJson data) in
  pruneProgress p cards.

(** ** The review session ([FlashcardView])

    [progress] is the object [loadProgress] returned last; every handler
    that changes the stored progress reads it again before it renders. *)

Module FlashcardView.
Record t := mk {
  cards : list Flashcard.t;
  index : nat;
  showingAnswer : bool;
  progress : gmap string CardProgress.t
}.
End FlashcardView.

(** [this.progress[card.id]?.done], as a condition. *)
Definition isDone (progress : gmap string CardProgress.t) (card : Flashcard.t) : bool :=
  match progress !! Flashcard.id card with
  | Some cp => default false (CardProgress.done cp)
  | None => false
  end.

(** [remainingCards()], lines 159-161. *)
Definition remainingCards (v : FlashcardView.t) : list Flashcard.t :=
  filter (λ card, isDone (FlashcardView.progress v) card = false)
         (FlashcardView.cards v).

(** [currentCard()], lines 138-142. *)
Definition currentCard (v : FlashcardView.t) : option Flashcard.t :=
  let remaining := remainingCards v in
  if decide (length remaining = 0)%nat then None
  else remaining !! (FlashcardView.index v mod length remaining)%nat.

(** [reload()], lines 122-127. *)
Definition reload (p : Plugin.t) : Result (FlashcardView.t * Plugin.t) :=
  '(p, cards) ← loadAllCards p;
  '(p, progress) ← loadProgress p;
  Ok (FlashcardView.mk cards 0 false progress, p).

(** [handleGrade(isGood)], lines 144-157. *)
Definition handleGrade (now : Date) (v : FlashcardView.t) (p : Plugin.t)
    (isGood : bool) : Result (FlashcardView.t * Plugin.t) :=
  match currentCard v with
  | None => Ok (v, p)
  | Some card =>
      '(p, _) ← updateProgressOptimistic now p (Flashcard.id card) isGood;
      '(p, progress) ← loadProgress p;
      let v := FlashcardView.mk (FlashcardView.cards v) (FlashcardView.index v)
                 (FlashcardView.showingAnswer v) progress in
      let remaining := remainingCards v in
      let index := if decide (0 < length remaining)%nat
                   then ((FlashcardView.index v + 1) mod length remaining)%nat
                   else 0%nat in
      Ok (FlashcardView.mk (FlashcardView.cards v) index false progress, p)
  end.

(** The view holds the progress object of the cached document. *)
Definition inSync (v : FlashcardView.t) (p : Plugin.t) : Prop :=
  ∃ data, Plugin.progressCache p = Some data
          ∧ ProgressFile.progress data = FlashcardView.progress v.

(** What [render()] puts on the screen, lines 163-202. *)
Inductive Screen : Type :=
| NoFlashcardsYet
| FinishedAll
| ShowCard (text : string) (remaining total : nat).

Definition render (v : FlashcardView.t) : Screen :=
  match currentCard v with
  | None =>
      if decide (length (FlashcardView.cards v) = 0)%nat then NoFlashcardsYet
      else FinishedAll
  | Some card =>
      ShowCard (if FlashcardView.showingAnswer v
                then Flashcard.answer card else Flashcard.question card)
               (length (remainingCards v))
               (length (FlashcardView.cards v))
  end.

(** The click on the card: [showingAnswer] is flipped. *)
Definition toggleAnswer (v : FlashcardView.t) : FlashcardView.t :=
  FlashcardView.mk (FlashcardView.cards v) (FlashcardView.index v)
                   (negb (FlashcardView.showingAnswer v)) (FlashcardView.progress v).

(** The Restart button, lines 180-184. *)
Definition restart (p : Plugin.t) : Result (FlashcardView.t * Plugin.t) :=
  reload (resetProgress p).

(** ** The manager ([FlashcardManageView]) *)

Module FlashcardManageView.
Record t := mk { cards : list Flashcard.t }.
End FlashcardManageView.

(** The Delete button of the row at [index], lines 302-307.  The row was
    rendered for the card at that index; a row that does not exist has no
    button. *)
Definition deleteCard (v : FlashcardManageView.t) (p : Plugin.t) (index : nat)
    : Result (FlashcardManageView.t * Plugin.t) :=
  match FlashcardManageView.cards v !! index with
  | None => Ok (v, p)
  | Some card =>
      let cards := delete index (FlashcardManageView.cards v) in
      p ← replaceAllCards p cards;
      p ← removeProgress p (Flashcard.id card);
      Ok (FlashcardManageView.mk cards, p)
  end.

(** ** Highlight files *)

(** [ToInt32]: the signed 32-bit value of an integer. *)
Definition toInt32 (z : Z) : Z := (z + 2 ^ 31) `mod` 2 ^ 32 - 2 ^ 31.

(** [hash << n] *)
Definition shl32 (hash : Z) (n : Z) : Z := toInt32 (Z.shiftl (toInt32 hash) n).

(** [hash >>> 0] *)
Definition toUint32 (z : Z) : Z := z `mod` 2 ^ 32.

Definition hexDigit (d : Z) : Ascii.ascii :=
  Ascii.ascii_of_nat (Z.to_nat (if decide (d < 10) then 48 + d else 87 + d)).

Fixpoint toString16_digits (fuel : nat) (n : Z) (acc : string) : string :=
  match fuel with
  | O => acc
  | S fuel =>
      let acc := String (hexDigit (n `mod` 16)) acc in
      if decide (n `div` 16 = 0) then acc
      else toString16_digits fuel (n `div` 16) acc
  end.

(** [n.toString(16)] for a non-negative integer. *)
Definition toString16 (n : Z) : string :=
  toString16_digits (S (Z.to_nat (Z.log2 n))) n "".

Definition charCode (c : Ascii.ascii) : Z := Z.of_nat (Ascii.nat_of_ascii c).

(** The loop body of [hashString], lines 893-899. *)
Definition hashStep (hash : Z) (c : Ascii.ascii) : Z :=
  let hash := Z.lxor (toInt32 hash) (charCode c) in
  hash + (shl32 hash 1 + shl32 hash 4 + shl32 hash 7 + shl32 hash 8 + shl32 hash 24).

(** [hashString(value)], lines 890-902. *)
Definition hashString (value : string) : string :=
  toString16 (toUint32 (fold_left hashStep (String.list_ascii_of_string value) 2166136261)).

(** [highlightPathFor(sourcePath)], lines 705-708. *)
Definition highlightPathFor (p : Plugin.t) (sourcePath : string) : string :=
  PluginSettings.storageFolder (Plugin.settings p)
  +:+ "/highlights-" +:+ hashString sourcePath +:+ ".json".

(** [saveHighlight(sourcePath, highlight)], lines 718-730. *)
Definition saveHighlight (p : Plugin.t) (sourcePath : string) (highlight : Highlight.t)
    : Result Plugin.t :=
  let p := ensureStorageFolder p true in
  let path := highlightPathFor p sourcePath in
  existing ← readJson assignHighlightFile (Plugin.adapter p) path
                      (emptyHighlightFile sourcePath);
  let existing := HighlightFile.mk (HighlightFile.version existing) sourcePath
                    (HighlightFile.highlights existing ++ [highlight]) in
  Ok (writeJson p path (HighlightJson existing)).

(** [loadHighlights(sourcePath)], lines 732-741. *)
Definition loadHighlights (p : Plugin.t) (sourcePath : string)
    : Result (Plugin.t * list Highlight.t) :=
  let p := ensureStorageFolder p false in
  let path := highlightPathFor p sourcePath in
  data ← readJson assignHighlightFile (Plugin.adapter p) path
                  (emptyHighlightFile sourcePath);
  Ok (p, HighlightFile.highlights data).

(** [markHighlightsGenerated(sourcePath, highlightIds)], lines 977-990. *)
Definition markHighlightsGenerated (p : Plugin.t) (sourcePath : string)
    (highlightIds : list string) : Result Plugin.t :=
  let p := ensureStorageFolder p true in
  let path := highlightPathFor p sourcePath in
  existing ← readJson assignHighlightFile (Plugin.adapter p) path
                      (emptyHighlightFile sourcePath);
  let idSet : gset string := list_to_set highlightIds in
  let existing :=
    HighlightFile.mk (HighlightFile.version existing)
      (HighlightFile.sourcePath existing)
      ((λ h, if decide (Highlight.id h ∈ idSet)
             then Highlight.mk (Highlight.id h) (Highlight.color h)
                    (Highlight.isFlashcard h) (Highlight.text h)
                    (Highlight.createdAt h) (Highlight.pages h) (Some true)
             else h) <$> HighlightFile.highlights existing) in
  Ok (writeJson p path (HighlightJson existing)).

(** A [Map] from keys to arrays, in the order the keys were first set:
    [Map_push] appends to the array under a key. *)
Fixpoint Map_push {K V} `{EqDecision K} (m : list (K * list V)) (key : K) (v : V)
    : list (K * list V) :=
  match m with
  | [] => [(key, [v])]
  | (k, vs) :: rest =>
      if decide (k = key) then (k, vs ++ [v]) :: rest
      else (k, vs) :: Map_push rest key v
  end.

Fixpoint Map_get {K V} `{EqDecision K} (m : list (K * list V)) (key : K)
    : option (list V) :=
  match m with
  | [] => None
  | (k, vs) :: rest => if decide (k = key) then Some vs else Map_get rest key
  end.

(** ** Capturing a highlight ([PdfLeafController])

    A [DOMRect] of the layout has [right = left + width] and
    [bottom = top + height]. *)

Module DOMRect.
Record t := mk { left : Q; top : Q; width : Q; height : Q }.
Definition right (r : t) : Q := (left r + width r)%Q.
Definition bottom (r : t) : Q := (top r + height r)%Q.
End DOMRect.

(** A mounted [.page] element: its bounding box and its
    [dataset.pageNumber], the page number in decimal digits when set. *)
Module PageElement.
Record t := mk { box : DOMRect.t; pageNumber : option Z }.
End PageElement.

(** The selection of the window: the client rectangles of its first range
    and its text. *)
Module Selection.
Record t := mk {
  isCollapsed : bool;
  rangeCount : nat;
  clientRects : list DOMRect.t;
  toString : string
}.
End Selection.

Definition Qgtb (a b : Q) : bool := negb (Qle_bool a b).
Definition Qgeb (a b : Q) : bool := Qle_bool b a.

(** [rect.width > 1 && rect.height > 1] *)
Definition keptRect (rect : DOMRect.t) : bool :=
  Qgtb (DOMRect.width rect) 1 && Qgtb (DOMRect.height rect) 1.

Definition centerX (rect : DOMRect.t) : Q := (DOMRect.left rect + DOMRect.width rect / 2)%Q.
Definition centerY (rect : DOMRect.t) : Q := (DOMRect.top rect + DOMRect.height rect / 2)%Q.

(** The predicate of [pages.find], lines 467-475. *)
Definition centerInside (rect : DOMRect.t) (page : PageElement.t) : bool :=
  let box := PageElement.box page in
  Qgeb (centerX rect) (DOMRect.left box)
  && Qle_bool (centerX rect) (DOMRect.right box)
  && Qgeb (centerY rect) (DOMRect.top box)
  && Qle_bool (centerY rect) (DOMRect.bottom box).

(** [parseInt(pageEl.dataset.pageNumber ?? "1", 10) - 1] *)
Definition pageIndex (page : PageElement.t) : Z :=
  default 1 (PageElement.pageNumber page) - 1.

(** The rectangle [norm], lines 480-485, in the arithmetic [a]; the
    program computes [normalize], in doubles. *)
Definition normalizeIn (a : Arithmetic) (rect box : DOMRect.t) : HighlightRect.t :=
  HighlightRect.mk
    (number_div a (number_sub a (DOMRect.left rect) (DOMRect.left box)) (DOMRect.width box))
    (number_div a (number_sub a (DOMRect.top rect) (DOMRect.top box)) (DOMRect.height box))
    (number_div a (Fin (DOMRect.width rect)) (DOMRect.width box))
    (number_div a (Fin (DOMRect.height rect)) (DOMRect.height box)).

Definition normalize (rect box : DOMRect.t) : HighlightRect.t :=
  normalizeIn Doubles rect box.

(** The body of [rects.forEach], lines 463-489. *)
Definition placeRect (pages : list PageElement.t)
    (pageMap : list (Z * list HighlightRect.t)) (rect : DOMRect.t)
    : list (Z * list HighlightRect.t) :=
  match List.find (centerInside rect) pages with
  | None => pageMap
  | Some pageEl =>
      Map_push pageMap (pageIndex pageEl) (normalize rect (PageElement.box pageEl))
  end.

(** [buildHighlightFromSelection(selection, pdfViewer, color)], lines
    446-505.  [pages] are the [.page] elements of the viewer; [id] is the
    identifier drawn for the highlight and [now] the instant of the call. *)
Definition buildHighlightFromSelection (id : string) (now : Date)
    (selection : Selection.t) (pages : list PageElement.t) (color : HighlightColor)
    : option Highlight.t :=
  if decide (Selection.rangeCount selection = 0)%nat then None else
  let rects := List.filter keptRect (Selection.clientRects selection) in
  if decide (length rects = 0)%nat then None else
  if decide (length pages = 0)%nat then None else
  let pageMap := fold_left (placeRect pages) rects [] in
  if decide (length pageMap = 0)%nat then None else
  let pagesArr := (λ e, HighlightPage.mk e.1 e.2) <$> pageMap in
  Some (Highlight.mk id color (bool_decide (color = flashcard))
          (Selection.toString selection) now pagesArr None).

(** The leaf of an open PDF as the toolbar handlers find it: the selection
    of the window, the [.page] elements of the viewer that [findPdfViewer]
    returns, and the path of the file that [getPdfFile] returns. *)
Module PdfLeaf.
Record t := mk {
  selection : option Selection.t;
  pdfViewer : option (list PageElement.t);
  file : option string
}.
End PdfLeaf.

(** The click handler of a colour button, lines 398-426: the plugin
    afterwards and the notice shown, if any. *)
Definition captureClick (id : string) (now : Date) (leaf : PdfLeaf.t) (p : Plugin.t)
    (color : HighlightColor) : Result (Plugin.t * option string) :=
  match PdfLeaf.selection leaf with
  | None => Ok (p, Some "Select text in the PDF first.")
  | Some selection =>
      if Selection.isCollapsed selection
      then Ok (p, Some "Select text in the PDF first.") else
      match PdfLeaf.pdfViewer leaf with
      | None => Ok (p, Some "PDF viewer not found.")
      | Some pages =>
          match buildHighlightFromSelection id now selection pages color with
          | None => Ok (p, Some "Could not capture selection.")
          | Some highlight =>
              match PdfLeaf.file leaf with
              | None => Ok (p, Some "No PDF file associated with this view.")
              | Some path =>
                  p ← saveHighlight p path highlight;
                  Ok (p, None)
              end
          end
      end
  end.

Definition COLOR_MAP (color : HighlightColor) : string :=
  match color with
  | yellow => "#ffe066"
  | green => "#b2f2bb"
  | blue => "#a5d8ff"
  | flashcard => "#ffb3c1"
  end.

(** One [.study-assist-highlight] element: its style, in percent of the
    layer, its background and whether it carries the class [flashcard]. *)
Module Overlay.
Record t := mk {
  left : number;
  top : number;
  width : number;
  height : number;
  background : string;
  flashcardClass : bool
}.
End Overlay.

(** The body of [page.rects.forEach], lines 539-547, in the arithmetic
    [a]; the program computes [overlayOf], in doubles. *)
Definition overlayIn (a : Arithmetic) (highlight : Highlight.t) (rect : HighlightRect.t)
    : Overlay.t :=
  Overlay.mk (number_mul a (HighlightRect.x rect) 100)
             (number_mul a (HighlightRect.y rect) 100)
             (number_mul a (HighlightRect.w rect) 100)
             (number_mul a (HighlightRect.h rect) 100)
             (COLOR_MAP (Highlight.color highlight))
             (Highlight.isFlashcard highlight).

Definition overlayOf (highlight : Highlight.t) (rect : HighlightRect.t) : Overlay.t :=
  overlayIn Doubles highlight rect.

(** What the highlight layer of one page element holds after
    [renderHighlights] filled it, lines 525-549. *)
Definition highlightLayer (highlights : list Highlight.t) (pageEl : PageElement.t)
    : list Overlay.t :=
  let pageNumber := pageIndex pageEl in
  highlights ≫= λ highlight,
    match List.find (λ p, bool_decide (HighlightPage.page p = pageNumber))
                    (Highlight.pages highlight) with
    | None => []
    | Some page => overlayOf highlight <$> HighlightPage.rects page
    end.

(** Modelled from the spec: the inverse of the normalization.  For a page
    box, [screen = page.box.origin + rect.{x,y} * page.box.size], sized by
    [rect.{w,h} * page.box.size]. *)
Definition denormalize (a : Arithmetic) (box : DOMRect.t) (rect : HighlightRect.t)
    : number * number * number * number :=
  (number_add a (DOMRect.left box) (number_mul a (HighlightRect.x rect) (DOMRect.width box)),
   number_add a (DOMRect.top box) (number_mul a (HighlightRect.y rect) (DOMRect.height box)),
   number_mul a (HighlightRect.w rect) (DOMRect.width box),
   number_mul a (HighlightRect.h rect) (DOMRect.height box)).

(** Modelled from the spec: the layout of an overlay (the stylesheet that
    places the layer over the page is not part of the sources).  A style of
    [c] percent is the unit coordinate [c / 100], laid out against the page
    box as above. *)
Definition screenRect (a : Arithmetic) (box : DOMRect.t) (o : Overlay.t)
    : number * number * number * number :=
  denormalize a box
    (HighlightRect.mk (number_div a (Overlay.left o) 100)
                      (number_div a (Overlay.top o) 100)
                      (number_div a (Overlay.width o) 100)
                      (number_div a (Overlay.height o) 100)).

(** A rectangle on the screen is the rectangle [rect]. *)
Definition sameRect (s : number * number * number * number) (rect : DOMRect.t) : Prop :=
  number_is s.1.1.1 (DOMRect.left rect)
  ∧ number_is s.1.1.2 (DOMRect.top rect)
  ∧ number_is s.1.2 (DOMRect.width rect)
  ∧ number_is s.2 (DOMRect.height rect).

(** The coordinates the bounds below are proved for: no client coordinate
    beyond [2^500] in magnitude, and a page box whose width and height are
    at least [2^-500]. *)
Definition layoutRange (rect box : DOMRect.t) : Prop :=
  (Qabs (DOMRect.left rect) <= pow2 500 ∧ Qabs (DOMRect.top rect) <= pow2 500
   ∧ Qabs (DOMRect.width rect) <= pow2 500 ∧ Qabs (DOMRect.height rect) <= pow2 500
   ∧ Qabs (DOMRect.left box) <= pow2 500 ∧ Qabs (DOMRect.top box) <= pow2 500
   ∧ (pow2 (-500) <= DOMRect.width box ∧ DOMRect.width box <= pow2 500)
   ∧ (pow2 (-500) <= DOMRect.height box ∧ DOMRect.height box <= pow2 500))%Q.

(** A rectangle on the screen is the rectangle [rect] within floating-point
    tolerance: each side is finite, a position is off by no more than
    [2^-50] of the magnitudes it was computed from, and a size by no more
    than [2^-50] of itself. *)
Definition nearRect (box : DOMRect.t) (s : number * number * number * number)
    (rect : DOMRect.t) : Prop :=
  number_near (pow2 (-50) * (Qabs (DOMRect.left rect) + Qabs (DOMRect.left box) + 1))
              s.1.1.1 (DOMRect.left rect)
  ∧ number_near (pow2 (-50) * (Qabs (DOMRect.top rect) + Qabs (DOMRect.top box) + 1))
                s.1.1.2 (DOMRect.top rect)
  ∧ number_near (pow2 (-50) * DOMRect.width rect) s.1.2 (DOMRect.width rect)
  ∧ number_near (pow2 (-50) * DOMRect.height rect) s.2 (DOMRect.height rect).

(** A stored coordinate against the exact one: finite, and off by no more
    than [2^-51] of it, or by [2^-574] where it is that small. *)
Definition number_within (n exact : number) : Prop :=
  match exact with
  | Fin q => number_near (pow2 (-51) * Qabs q + pow2 (-574)) n q
  | _ => False
  end.

Definition HighlightRect_within (rect exact : HighlightRect.t) : Prop :=
  number_within (HighlightRect.x rect) (HighlightRect.x exact)
  ∧ number_within (HighlightRect.y rect) (HighlightRect.y exact)
  ∧ number_within (HighlightRect.w rect) (HighlightRect.w exact)
  ∧ number_within (HighlightRect.h rect) (HighlightRect.h exact).

(** ** Exporting annotations *)

(** A file of the vault: [path], [basename] and [parent?.path]. *)
Module TFile.
Record t := mk { path : string; basename : string; parent : option string }.
End TFile.

(** The characters of [\s] and of [trim] among the code units below 256. *)
Definition isSpace (c : Ascii.ascii) : bool :=
  let n := Ascii.nat_of_ascii c in
  (n =? 9)%nat || (n =? 10)%nat || (n =? 11)%nat || (n =? 12)%nat
  || (n =? 13)%nat || (n =? 32)%nat || (n =? 160)%nat.

(** [s.replace(/\s+/g, " ")]; [inRun] tells that the character before was
    whitespace. *)
Fixpoint replaceSpaces (inRun : bool) (s : string) : string :=
  match s with
  | EmptyString => EmptyString
  | String c rest =>
      if isSpace c then
        if inRun then replaceSpaces true rest
        else String " " (replaceSpaces true rest)
      else String c (replaceSpaces false rest)
  end.

Fixpoint trimStart (s : string) : string :=
  match s with
  | EmptyString => EmptyString
  | String c rest => if isSpace c then trimStart rest else s
  end.

Fixpoint trimEnd (s : string) : string :=
  match s with
  | EmptyString => EmptyString
  | String c rest =>
      let rest := trimEnd rest in
      if isSpace c && bool_decide (rest = EmptyString) then EmptyString
      else String c rest
  end.

Definition trim (s : string) : string := trimEnd (trimStart s).

Definition newline : string := String (Ascii.ascii_of_nat 10) EmptyString.

(** [toUpperCase] of one character of a colour name. *)
Definition toUpperCase (c : Ascii.ascii) : Ascii.ascii :=
  let n := Ascii.nat_of_ascii c in
  if (97 <=? n)%nat && (n <=? 122)%nat then Ascii.ascii_of_nat (n - 32) else c.

Definition colorName (color : HighlightColor) : string :=
  match color with
  | yellow => "yellow"
  | green => "green"
  | blue => "blue"
  | flashcard => "flashcard"
  end.

(** [titleForColor(color)], lines 1120-1123. *)
Definition titleForColor (color : HighlightColor) : string :=
  if decide (color = flashcard) then "Flashcard"
  else match colorName color with
       | EmptyString => EmptyString
       | String c rest => String (toUpperCase c) rest
       end.

(** [Array.from(new Set(values))]: the values in the order they first
    occur. *)
Definition Set_from (values : list Z) : list Z :=
  fold_left (λ seen v, if decide (v ∈ seen) then seen else seen ++ [v]) values [].

(** The pages a highlight touches, lines 1131-1133. *)
Definition pageList (highlight : Highlight.t) : list Z :=
  merge_sort Z.le (Set_from ((λ p, HighlightPage.page p + 1) <$> Highlight.pages highlight)).

(** The line pushed for one highlight, lines 1130-1135. *)
Definition bullet (highlight : Highlight.t) : string :=
  let text := trim (replaceSpaces false (Highlight.text highlight)) in
  let pages := pageList highlight in
  let pageInfo := if decide (length pages = 0)%nat then ""
                  else " (pages " +:+ String.concat ", " (pretty <$> pages) +:+ ")" in
  "- " +:+ text +:+ pageInfo.

Definition colorOrder : list HighlightColor := [flashcard; yellow; green; blue].

(** [buildAnnotationMarkdown(file, highlights)], lines 1105-1141. *)
Definition buildAnnotationMarkdown (file : TFile.t) (highlights : list Highlight.t)
    : string :=
  if decide (length highlights = 0)%nat
  then String.concat newline ["_No annotations found._"] else
  let groups :=
    fold_left (λ groups highlight, Map_push groups (Highlight.color highlight) highlight)
              highlights [] in
  let lines :=
    fold_left
      (λ lines color,
         match Map_get groups color with
         | None => lines
         | Some list =>
             if decide (length list = 0)%nat then lines else
             let lines := lines ++ ["## " +:+ titleForColor color] in
             let lines := fold_left (λ lines highlight, lines ++ [bullet highlight])
                                    list lines in
             lines ++ [""]
         end)
      colorOrder [] in
  trimEnd (String.concat newline lines) +:+ newline.

(** [getAnnotationMarkdownPath(file)], lines 1099-1103. *)
Definition getAnnotationMarkdownPath (file : TFile.t) : string :=
  let baseName := TFile.basename file +:+ " Annotations.md" in
  let parentPath := default "" (TFile.parent file) in
  if decide (parentPath = "") then baseName else parentPath +:+ "/" +:+ baseName.

(** [exportAnnotationsFromActivePdf()], lines 1143-1157; [active] is the
    file [getActivePdfFile] returns.  Modifying the note and creating it
    both leave the content under the path. *)
Definition exportAnnotationsFromActivePdf (p : Plugin.t) (active : option TFile.t)
    : Result Plugin.t :=
  match active with
  | None => Ok p
  | Some file =>
      '(p, highlights) ← loadHighlights p (TFile.path file);
      let content := buildAnnotationMarkdown file highlights in
      let path := getAnnotationMarkdownPath file in
      Ok (Plugin.with_notes p (<[path := content]> (Plugin.notes p)))
  end.

(** The grouping in the words of the specification: the colours in their
    fixed order, and for each colour that has highlights a heading, one
    bullet for each of its highlights, and an empty line. *)
Definition groupLines (highlights : list Highlight.t) : list string :=
  colorOrder ≫= λ color,
    let group := filter (λ h, Highlight.color h = color) highlights in
    match group with
    | [] => []
    | _ => ["## " +:+ titleForColor color] ++ (bullet <$> group) ++ [""]
    end.

(** The collapsed text in the words of the specification: the words of a
    text are its maximal runs of characters that are not whitespace. *)
Definition startsWithSpace (s : string) : bool :=
  match s with
  | EmptyString => false
  | String c _ => isSpace c
  end.

Fixpoint words (s : string) : list string :=
  match s with
  | EmptyString => []
  | String c rest =>
      if isSpace c then words rest
      else if startsWithSpace rest then String c "" :: words rest
      else match words rest with
           | w :: ws => String c w :: ws
           | [] => [String c ""]
           end
  end.

(** ** Generating flashcards *)

(** The predicate of [highlights.filter], lines 927-929. *)
Definition pendingHighlight (h : Highlight.t) : bool :=
  Highlight.isFlashcard h && negb (default false (Highlight.flashcardGenerated h)).

(** [contextText], lines 936-938. *)
Definition contextText (flashcardHighlights : list Highlight.t) : string :=
  String.concat newline
    (imap (λ idx h, "(" +:+ pretty (Z.of_nat idx + 1) +:+ ") " +:+ Highlight.text h)
          flashcardHighlights).

Definition systemPrompt : string :=
  "You are a helpful assistant that turns study highlights into flashcards.".

Definition userPrompt (flashcardHighlights : list Highlight.t) : string :=
  "Create concise flashcards from the following highlights. "
  +:+ "Return a JSON array where each item has 'question' and 'answer'. "
  +:+ "Avoid markdown, and keep questions short and clear." +:+ newline +:+ newline
  +:+ contextText flashcardHighlights.

(** [newCards], lines 957-964: [freshId i] is the identifier drawn for the
    card at index [i]. *)
Definition newCardsOf (freshId : nat → string) (now : Date) (file : TFile.t)
    (flashcardHighlights : list Highlight.t) (cards : list QA.t) : list Flashcard.t :=
  imap (λ i card,
          Flashcard.mk (freshId i) (TFile.path file)
                       (Highlight.id <$> flashcardHighlights)
                       (QA.question card) (QA.answer card) now)
       cards.

(** [generateFlashcardsFromActivePdf()], lines 914-975: the plugin
    afterwards and the notice shown.  [callOpenAI] is the request to the
    model, which returns the text of the response or throws; [active] is the
    file [getActivePdfFile] returns.  What was stored before an exception
    stays stored.  (The open views are reloaded afterwards; they are not part
    of the plugin.) *)
Definition generateFlashcardsFromActivePdf
    (callOpenAI : string → string → Result string) (freshId : nat → string)
    (now : Date) (p : Plugin.t) (active : option TFile.t)
    : Result (Plugin.t * string) :=
  match active with
  | None => Ok (p, "Open a PDF first.")
  | Some file =>
      if decide (PluginSettings.apiKey (Plugin.settings p) = "")
      then Ok (p, "Set your OpenAI API key in the plugin settings.") else
      '(p, highlights) ← loadHighlights p (TFile.path file);
      let flashcardHighlights := List.filter pendingHighlight highlights in
      if decide (length flashcardHighlights = 0)%nat
      then Ok (p, "No new flashcard highlights found.") else
      let failed p := Ok (p, "Failed to generate flashcards.") in
      match callOpenAI systemPrompt (userPrompt flashcardHighlights) with
      | Throw => failed p
      | Ok response =>
          match parseFlashcards response with
          | Throw => failed p
          | Ok cards =>
              if decide (length cards = 0)%nat
              then Ok (p, "No flashcards returned by the model.") else
              let newCards := newCardsOf freshId now file flashcardHighlights cards in
              match addCards p newCards with
              | Throw => failed p
              | Ok p =>
                  match markHighlightsGenerated p (TFile.path file)
                          (Highlight.id <$> flashcardHighlights) with
                  | Throw => failed p
                  | Ok p =>
                      Ok (p, "Generated " +:+ pretty (length newCards) +:+ " flashcards.")
                  end
              end
          end
      end
  end.

(** ** The rest of the manager, the settings tab and the response *)

(** The Add button of the manager, lines 255-275: [qInput] and [aInput] are
    the values of the two text areas, [id] the identifier drawn for the card
    and [now] the instant of the click. *)
Definition addCard (id : string) (now : Date) (v : FlashcardManageView.t)
    (p : Plugin.t) (qInput aInput : string)
    : Result (FlashcardManageView.t * Plugin.t) :=
  let question := trim qInput in
  let answer := trim aInput in
  if bool_decide (question = "") || bool_decide (answer = "") then Ok (v, p) else
  let newCard := Flashcard.mk id "manual" [] question answer now in
  let cards := newCard :: FlashcardManageView.cards v in
  p ← replaceAllCards p cards;
  Ok (FlashcardManageView.mk cards, p).

(** The Save button of the row at [index], lines 294-300: [qValue] and
    [aValue] are the values of the text areas of the row.  The card the row
    was rendered for and the card at [index] differ at most in the question
    and the answer, which are replaced. *)
Definition saveCard (v : FlashcardManageView.t) (p : Plugin.t) (index : nat)
    (qValue aValue : string) : Result (FlashcardManageView.t * Plugin.t) :=
  match FlashcardManageView.cards v !! index with
  | None => Ok (v, p)
  | Some card =>
      let question := trim qValue in
      let answer := trim aValue in
      if bool_decide (question = "") || bool_decide (answer = "") then Ok (v, p) else
      let cards :=
        <[index := Flashcard.mk (Flashcard.id card) (Flashcard.sourcePath card)
                     (Flashcard.highlightIds card) question answer
                     (Flashcard.createdAt card)]>
          (FlashcardManageView.cards v) in
      p ← replaceAllCards p cards;
      Ok (FlashcardManageView.mk cards, p)
  end.

(** The [onChange] handlers of the settings tab, lines 572-601. *)
Definition with_settings (p : Plugin.t) (settings : PluginSettings.t) : Plugin.t :=
  Plugin.mk settings (Plugin.adapter p) (Plugin.notes p) (Plugin.progressCache p).

Definition changeApiKey (p : Plugin.t) (value : string) : Plugin.t :=
  let s := Plugin.settings p in
  with_settings p (PluginSettings.mk (trim value) (PluginSettings.model s)
                                     (PluginSettings.storageFolder s)).

Definition changeModel (p : Plugin.t) (value : string) : Plugin.t :=
  let s := Plugin.settings p in
  with_settings p (PluginSettings.mk (PluginSettings.apiKey s)
                                     (string_or (trim value) "gpt-5.1")
                                     (PluginSettings.storageFolder s)).

Definition changeStorageFolder (p : Plugin.t) (value : string) : Plugin.t :=
  let s := Plugin.settings p in
  with_settings p (PluginSettings.mk (PluginSettings.apiKey s) (PluginSettings.model s)
                                     (string_or (trim value) ".flashcards")).

(** [c.type === name] *)
Definition typeIs (c : json) (name : string) : bool :=
  match getProperty c "type" with
  | Some (JString s) => bool_decide (s = name)
  | _ => false
  end.

(** [item.content.find(content => content.type === "output_text" ||
    content.type === "text")], lines 1024-1026: reading [type] off a [null]
    element throws. *)
Fixpoint findTextPart (content : list json) : Result (option json) :=
  match content with
  | [] => Ok None
  | JNull :: _ => Throw
  | c :: rest =>
      if typeIs c "output_text" || typeIs c "text" then Ok (Some c)
      else findTextPart rest
  end.

(** The loop over [data.output], lines 1022-1029: the value it returns, if
    it returns. *)
Fixpoint extractFromOutput (output : list json) : Result (option json) :=
  match output with
  | [] => Ok None
  | item :: rest =>
      match typeIs item "message", getProperty item "content" with
      | true, Some (JArray content) =>
          match findTextPart content with
          | Throw => Throw
          | Ok (Some textPart) =>
              if truthy (getProperty textPart "text")
              then Ok (getProperty textPart "text")
              else extractFromOutput rest
          | Ok None => extractFromOutput rest
          end
      | _, _ => extractFromOutput rest
      end
  end.

(** [data.key && typeof data.key === "string"] *)
Definition nonEmptyString (v : option json) : option string :=
  match v with
  | Some (JString s) => if decide (s = "") then None else Some s
  | _ => None
  end.

(** [extractOutputText(data)], lines 1016-1034, for the JSON value of the
    response; reading [output_text] off [null] throws. *)
Definition extractOutputText (data : json) : Result json :=
  match data with
  | JNull => Throw
  | _ =>
      match nonEmptyString (getProperty data "output_text") with
      | Some s => Ok (JString s)
      | None =>
          found ← match getProperty data "output" with
                  | Some (JArray output) => extractFromOutput output
                  | _ => Ok None
                  end;
          match found with
          | Some text => Ok text
          | None =>
              match nonEmptyString (getProperty data "content") with
              | Some s => Ok (JString s)
              | None => Ok (JString "")
              end
          end
      end
  end.

(** ** Rescaling the viewport

    The same page and selection at another zoom level and scroll position:
    every client coordinate is scaled by [k] and moved by [(dx, dy)]. *)
Definition rescale (k dx dy : Q) (r : DOMRect.t) : DOMRect.t :=
  DOMRect.mk (k * DOMRect.left r + dx) (k * DOMRect.top r + dy)
             (k * DOMRect.width r) (k * DOMRect.height r).

(** Two numbers are the same value. *)
Definition number_eq (a b : number) : Prop :=
  match a, b with
  | Fin q, Fin q' => (q == q')%Q
  | NonFinite, NonFinite => True
  | Null, Null => True
  | _, _ => False
  end.

Definition HighlightRect_eq (a b : HighlightRect.t) : Prop :=
  number_eq (HighlightRect.x a) (HighlightRect.x b)
  ∧ number_eq (HighlightRect.y a) (HighlightRect.y b)
  ∧ number_eq (HighlightRect.w a) (HighlightRect.w b)
  ∧ number_eq (HighlightRect.h a) (HighlightRect.h b).

(** The rectangles a selection leaves on the pages: each kept rectangle with
    the page [pages.find] gives it, in the order of the selection. *)
Definition placedRects (pages : list PageElement.t) (rects : list DOMRect.t)
    : list (PageElement.t * DOMRect.t) :=
  omap (λ rect, (λ pageEl, (pageEl, rect)) <$> List.find (centerInside rect) pages)
       (List.filter keptRect rects).

(** The number of good grades a run of grades ends with. *)
Fixpoint leadingGood (grades : list (Date * bool)) : Z :=
  match grades with
  | (_, true) :: rest => 1 + leadingGood rest
  | _ => 0
  end.

Definition trailingGood (grades : list (Date * bool)) : Z :=
  leadingGood (reverse grades).

(** A string of lower-case hexadecimal digits. *)
Definition isHexDigit (c : Ascii.ascii) : bool :=
  let n := Ascii.nat_of_ascii c in
  ((48 <=? n)%nat && (n <=? 57)%nat) || ((97 <=? n)%nat && (n <=? 102)%nat).

Fixpoint allHex (s : string) : bool :=
  match s with
  | EmptyString => true
  | String c rest => isHexDigit c && allHex rest
  end.

(** What [markHighlightsGenerated] makes of one highlight. *)
Definition markGenerated (highlightIds : list string) (h : Highlight.t) : Highlight.t :=
  if decide (Highlight.id h ∈ (list_to_set highlightIds : gset string))
  then Highlight.mk (Highlight.id h) (Highlight.color h) (Highlight.isFlashcard h)
         (Highlight.text h) (Highlight.createdAt h) (Highlight.pages h) (Some true)
  else h.

(** A line of the export that is a bullet. *)
Definition isBullet (line : string) : bool :=
  match line with
  | String c1 (String c2 _) => bool_decide (c1 = "-"%char) && bool_decide (c2 = " "%char)
  | _ => false
  end.


(** The folder [ensureStorageFolder] looks for. *)
Definition storageFolderOf (p : Plugin.t) : string :=
  string_or (PluginSettings.storageFolder (Plugin.settings p)) ".flashcards".

(** The progress file holds the cached progress document. *)
Definition coherent (p : Plugin.t) : Prop :=
  ∃ data, Plugin.progressCache p = Some data
          ∧ Adapter.files (Plugin.adapter p) !! progressPath p = Some (ProgressJson data).

(** ** Example data *)

(** Three highlights of a paper, and the paper. *)
Definition paper : TFile.t := TFile.mk "notes/paper.pdf" "paper" (Some "notes").

Definition paperHighlights : list Highlight.t :=
  [ Highlight.mk "h1" yellow false "  a   first  remark " 0
      [HighlightPage.mk 2 []; HighlightPage.mk 0 []; HighlightPage.mk 2 []] None;
    Highlight.mk "h2" flashcard true "what to remember" 0
      [HighlightPage.mk 4 []] None;
    Highlight.mk "h3" flashcard true "already a card" 0
      [HighlightPage.mk 5 []] (Some true) ].

(** A response whose only item has an empty question, and one with a usable
    item. *)
Definition quoted (s : string) : string :=
  String JSON.dquote (s +:+ String JSON.dquote "").

Definition emptyQuestionItem : json :=
  JObject [("question", JString ""); ("answer", JString "A")].

Definition emptyQuestionResponse : string :=
  "[{" +:+ quoted "question" +:+ ":" +:+ quoted "" +:+ ","
       +:+ quoted "answer" +:+ ":" +:+ quoted "A" +:+ "}]".

Definition usableResponse : string :=
  "[{" +:+ quoted "question" +:+ ":" +:+ quoted "Q" +:+ ","
       +:+ quoted "answer" +:+ ":" +:+ quoted "A" +:+ "}, 7]".

(** An adapter whose progress file holds text that is not JSON. *)
Definition brokenAdapter : Adapter.t string :=
  Adapter.mk {[".flashcards/progress.json" := "{ not json"]} {[".flashcards"]}.

Definition progressFallback : json :=
  JObject [("version", JNumber 1); ("progress", JObject [])].

(** A selection rectangle centred on the corner of a page element that
    has no extent. *)
Definition cornerRect : DOMRect.t := DOMRect.mk (-1) (-1) 2 2.
Definition emptyPage : PageElement.t := PageElement.mk (DOMRect.mk 0 0 0 0) (Some 1).
Definition cornerSelection : Selection.t := Selection.mk false 1 [cornerRect] "text".

(** A selection rectangle inside a page of 600 by 800. *)
Definition wordRect : DOMRect.t := DOMRect.mk 120 230 90 14.
Definition firstPage : PageElement.t := PageElement.mk (DOMRect.mk 100 50 600 800) (Some 1).
Definition wordSelection : Selection.t := Selection.mk false 1 [wordRect] "a few words".

(** The same selection while the only mounted page is further down. *)
Definition laterPage : PageElement.t := PageElement.mk (DOMRect.mk 100 900 600 800) (Some 2).
Definition pdfLeaf : PdfLeaf.t :=
  PdfLeaf.mk (Some wordSelection) (Some [laterPage]) (Some "notes/paper.pdf").

(** A host in the zone of Berlin in 2026: local time is one hour ahead of
    UTC, and two hours from 29 March, 01:00 UTC, to 25 October, 01:00 UTC; a
    local time that the change in March skips, or that the change in
    October repeats, is read with the offset in force before the change.
    [saturdayNoon] is 28 March 2026, 12:00 UTC, on that host. *)
Definition berlin2026 (t : Z) (isUTC : bool) : Z :=
  if isUTC
  then if decide (1774746000000 <= t < 1792890000000) then 7200000 else 3600000
  else if decide (1774746000000 + 7200000 <= t < 1792890000000 + 7200000)
       then 7200000 else 3600000.

Definition saturdayNoon : Date := Date.mk 1774699200000 berlin2026.

Definition cardA : Flashcard.t := Flashcard.mk "a" "manual" [] "Question A" "Answer A" 0.
Definition cardB : Flashcard.t := Flashcard.mk "b" "manual" [] "Question B" "Answer B" 0.
Definition cardC : Flashcard.t := Flashcard.mk "c" "manual" [] "Question C" "Answer C" 0.

(** A plugin with the default settings, an empty storage folder and an
    empty progress document in the cache. *)
Definition freshPlugin : Plugin.t :=
  Plugin.mk DEFAULT_SETTINGS (Adapter.mk ∅ {[".flashcards"]}) ∅ (Some emptyProgressFile).

Definition sessionABC : FlashcardView.t :=
  FlashcardView.mk [cardA; cardB; cardC] 0 false ∅.

(** The manager showing A and B, both of which have been graded. *)
Definition managerAB : FlashcardManageView.t := FlashcardManageView.mk [cardA; cardB].

Definition studiedPlugin : Plugin.t :=
  Plugin.mk DEFAULT_SETTINGS (Adapter.mk ∅ {[".flashcards"]}) ∅
    (Some (ProgressFile.mk PROGRESS_VERSION
             {[ "a" := buildNextProgress 0 None true;
                "b" := buildNextProgress 0 None false ]})).

(** The manager over a plugin that stores A and B. *)
Definition storedAB : Plugin.t :=
  Plugin.mk DEFAULT_SETTINGS
    (Adapter.mk
       {[ ".flashcards/flashcards.json"
          := FlashcardJson (FlashcardFile.mk FLASHCARD_VERSION [cardA; cardB]) ]}
       {[".flashcards"]})
    ∅
    (Some (ProgressFile.mk PROGRESS_VERSION
             {[ "a" := buildNextProgress 0 None true;
                "b" := buildNextProgress 0 None false ]})).

(** A plugin with an API key whose highlight file for the paper holds the
    three highlights, and a model that answers with one usable card. *)
Definition paperPlugin : Plugin.t :=
  Plugin.mk (PluginSettings.mk "sk-test" "gpt-5.1" ".flashcards")
    (Adapter.mk
       {[ ".flashcards/highlights-" +:+ hashString "notes/paper.pdf" +:+ ".json"
          := HighlightJson (HighlightFile.mk 1 "notes/paper.pdf" paperHighlights) ]}
       {[".flashcards"]})
    ∅ None.

Definition answeringModel (system user : string) : Result string := Ok usableResponse.

(** The body of a response whose first message starts with a text part
    without text, and whose second message carries the text. *)
Definition messageResponse : json :=
  JObject
    [("output",
      JArray
        [JObject [("type", JString "reasoning")];
         JObject [("type", JString "message");
                  ("content", JArray [JObject [("type", JString "output_text");
                                               ("text", JString "")];
                                      JObject [("type", JString "output_text");
                                               ("text", JString "skipped")]])];
         JObject [("type", JString "message");
                  ("content", JArray [JObject [("type", JString "refusal")];
                                      JObject [("type", JString "text");
                                               ("text", JString "[]")]])]]);
     ("content", JString "not used")].

Definition numberedId (i : nat) : string := "card-" +:+ pretty i.

(** * Theorems *)

Section Scheduler.

Lemma runGrades_snoc grades g :
  runGrades (grades ++ [g]) = gradeStep (runGrades grades) g.
Proof. unfold runGrades, runGradesFrom. by rewrite fold_left_app. Qed.

Lemma runGradesFrom_default grades :
  grades ≠ [] → runGradesFrom (Some defaultProgress) grades = runGrades grades.
Proof. by destruct grades. Qed.

(** Streak and interval never go below zero. *)
Lemma runGrades_nonneg grades :
  0 <= streakOf (runGrades grades) ∧ 0 <= intervalOf (runGrades grades).
Proof.
  induction grades as [|g grades IH] using rev_ind.
  - by compute.
  - rewrite runGrades_snoc. destruct IH as [Hs Hi].
    destruct (runGrades grades) as [p|], g as [now [|]];
      unfold streakOf, intervalOf in *; simpl in *; lia.
Qed.

End Scheduler.

Example three_good_grades_then_again :
  (schedule <$> runGrades [(utc 0, true); (utc 1, true); (utc 2, true)],
   schedule <$> runGrades [(utc 0, true); (utc 1, true); (utc 2, true); (utc 3, false)])
  = (Some (3, 6, Some true), Some (0, 0, Some false)).
Proof. reflexivity. Qed.

(** C1. The three worked examples of the scheduler: from a missing record a
    good grade gives streak 1, interval 1, done; from streak 1, interval 1 a
    good grade gives streak 2, interval 3, done; a grade of again gives
    streak 0, interval 0, not done, whatever the previous record. *)
Theorem C1_scheduler_examples :
  (∀ now, schedule (buildNextProgress now None true) = (1, 1, Some true))
  ∧ (∀ now prev,
       CardProgress.streak prev = 1 →
       CardProgress.intervalDays prev = 1 →
       schedule (buildNextProgress now (Some prev) true) = (2, 3, Some true))
  ∧ (∀ now prev,
       schedule (buildNextProgress now prev false) = (0, 0, Some false)).
Proof.
  split; [|split].
  - reflexivity.
  - intros now prev Hs Hi. unfold schedule, buildNextProgress. simpl.
    rewrite Hs, Hi. reflexivity.
  - intros now prev. reflexivity.
Qed.

Lemma C1_scheduler_examples_witness :
  schedule (buildNextProgress 1000 (Some (CardProgress.mk None None 1 1 None)) true)
  = (2, 3, Some true).
Proof.
  apply (proj1 (proj2 C1_scheduler_examples)); reflexivity.
Defined.

(** C4. Along every run of grades from a missing record -- which the
    scheduler reads as the record of streak 0 and interval 0, so that the run
    from that record has the same schedule: the card is done exactly when the
    last grade was good; a grade of again leaves streak 0 and interval 0; and
    a further good grade never lowers the interval. *)
Theorem C4_schedule_invariant (grades : list (Date * bool)) :
  (let fromDefault := runGradesFrom (Some defaultProgress) grades in
   streakOf fromDefault = streakOf (runGrades grades)
   ∧ intervalOf fromDefault = intervalOf (runGrades grades)
   ∧ doneOf fromDefault = doneOf (runGrades grades))
  ∧ (doneOf (runGrades grades) = Some true ↔ snd <$> last grades = Some true)
  ∧ (∀ now,
        streakOf (runGrades (grades ++ [(now, false)])) = 0
        ∧ intervalOf (runGrades (grades ++ [(now, false)])) = 0)
  ∧ (∀ now,
        intervalOf (runGrades grades)
        <= intervalOf (runGrades (grades ++ [(now, true)]))).
Proof.
  split; [|split; [|split]].
  - destruct grades as [|g grades]; [done|].
    by rewrite runGradesFrom_default.
  - induction grades as [|g grades _] using rev_ind.
    + simpl. split; discriminate.
    + rewrite runGrades_snoc, last_snoc. destruct g as [now [|]]; simpl.
      * done.
      * split; discriminate.
  - intros now. rewrite runGrades_snoc. done.
  - intros now. rewrite runGrades_snoc.
    pose proof (runGrades_nonneg grades) as [Hs Hi].
    destruct (runGrades grades) as [p|];
      unfold streakOf, intervalOf in *; simpl in *; lia.
Qed.

(** One step of a computation in [Result]: a bind on a known outcome. *)
Ltac result_bind := cbn beta iota zeta delta [mbind Result_bind].

Section Storage.

(** [readJson] only depends on the file stored under the path. *)
Lemma readJson_files {Text T} (pa : T → Text → Result T) a path fallback :
  readJson pa a path fallback
  = match Adapter.files a !! path with
    | Some raw => try_catch (pa fallback raw) (Ok fallback)
    | None => Ok fallback
    end.
Proof.
  unfold readJson, Adapter.exists_, Adapter.read.
  destruct (Adapter.files a !! path) as [raw|] eqn:E; simpl.
  - done.
  - by case_match.
Qed.

Lemma readJson_Ok {Text T} (pa : T → Text → Result T) a path fallback :
  ∃ v, readJson pa a path fallback = Ok v.
Proof.
  rewrite readJson_files. destruct (Adapter.files a !! path); [|eauto].
  unfold try_catch. destruct (pa fallback t); eauto.
Qed.

Lemma string_app_inj_l (s a b : string) : s +:+ a = s +:+ b → a = b.
Proof.
  induction s as [|c s IH]; simpl; [done|]. intros [=]. auto.
Qed.

Lemma flashcardPath_ne_progressPath p q :
  Plugin.settings p = Plugin.settings q → flashcardPath p ≠ progressPath q.
Proof.
  unfold flashcardPath, progressPath. intros -> H.
  apply string_app_inj_l in H. discriminate.
Qed.

Lemma cachedProgress_cached p data :
  Plugin.progressCache p = Some data → cachedProgress p = Ok data.
Proof. unfold cachedProgress. by intros ->. Qed.

Lemma cachedProgress_Ok p : ∃ data, cachedProgress p = Ok data.
Proof.
  unfold cachedProgress. destruct (Plugin.progressCache p); [eauto|].
  apply readJson_Ok.
Qed.

(** The cached document, or else the stored one, is the same in two plugin
    states that agree on the cache, the settings and the progress file. *)
Lemma cachedProgress_ext p q :
  Plugin.progressCache p = Plugin.progressCache q →
  Plugin.settings p = Plugin.settings q →
  Adapter.files (Plugin.adapter p) !! progressPath p
  = Adapter.files (Plugin.adapter q) !! progressPath p →
  cachedProgress p = cachedProgress q.
Proof.
  intros Hc Hs Hf. unfold cachedProgress. rewrite Hc.
  destruct (Plugin.progressCache q); [done|].
  rewrite !readJson_files. unfold progressPath in *. rewrite <- Hs, Hf. done.
Qed.

Lemma ensureStorageFolder_cache p create :
  Plugin.progressCache (ensureStorageFolder p create) = Plugin.progressCache p.
Proof. unfold ensureStorageFolder. by case_match. Qed.

Lemma ensureStorageFolder_settings p create :
  Plugin.settings (ensureStorageFolder p create) = Plugin.settings p.
Proof. unfold ensureStorageFolder. by case_match. Qed.

Lemma ensureStorageFolder_files p create :
  Adapter.files (Plugin.adapter (ensureStorageFolder p create))
  = Adapter.files (Plugin.adapter p).
Proof. unfold ensureStorageFolder. by case_match. Qed.

Lemma ensureStorageFolder_notes p create :
  Plugin.notes (ensureStorageFolder p create) = Plugin.notes p.
Proof. unfold ensureStorageFolder. by case_match. Qed.

Lemma cachedProgress_ensure p create :
  cachedProgress (ensureStorageFolder p create) = cachedProgress p.
Proof.
  apply cachedProgress_ext.
  - apply ensureStorageFolder_cache.
  - apply ensureStorageFolder_settings.
  - by rewrite ensureStorageFolder_files.
Qed.

Lemma progressPath_ensure p create :
  progressPath (ensureStorageFolder p create) = progressPath p.
Proof. unfold progressPath. by rewrite ensureStorageFolder_settings. Qed.

Lemma loadProgress_eq p data :
  cachedProgress p = Ok data →
  loadProgress p
  = Ok (Plugin.with_progressCache (ensureStorageFolder p false) (Some data),
        ProgressFile.progress data).
Proof.
  intros H. unfold loadProgress. rewrite cachedProgress_ensure, H. done.
Qed.

Lemma pruneProgress_eq p cards data :
  cachedProgress p = Ok data →
  pruneProgress p cards
  = Ok (let data' := ProgressFile.mk (ProgressFile.version data)
                       (filter (λ kv, kv.1 ∈ (list_to_set (Flashcard.id <$> cards) : gset string))
                               (ProgressFile.progress data)) in
        Plugin.with_progressCache
          (writeJson p (progressPath p) (ProgressJson data')) (Some data')).
Proof. intros H. unfold pruneProgress. rewrite H. done. Qed.

Lemma removeProgress_eq p cardId data :
  cachedProgress p = Ok data →
  removeProgress p cardId
  = Ok (let p1 := ensureStorageFolder p true in
        let data' := ProgressFile.mk (ProgressFile.version data)
                       (delete cardId (ProgressFile.progress data)) in
        Plugin.with_progressCache
          (writeJson p1 (progressPath p1) (ProgressJson data')) (Some data')).
Proof.
  intros H. unfold removeProgress. rewrite cachedProgress_ensure, H. done.
Qed.

Lemma replaceAllCards_eq p cards data :
  cachedProgress p = Ok data →
  replaceAllCards p cards
  = Ok (let p1 := ensureStorageFolder p true in
        let p2 := writeJson p1 (flashcardPath p1)
                    (FlashcardJson (FlashcardFile.mk FLASHCARD_VERSION cards)) in
        let data' := ProgressFile.mk (ProgressFile.version data)
                       (filter (λ kv, kv.1 ∈ (list_to_set (Flashcard.id <$> cards) : gset string))
                               (ProgressFile.progress data)) in
        Plugin.with_progressCache
          (writeJson p2 (progressPath p2) (ProgressJson data')) (Some data')).
Proof.
  intros H. unfold replaceAllCards.
  apply pruneProgress_eq. rewrite <- H, <- (cachedProgress_ensure p true).
  apply cachedProgress_ext; simpl; [done..|].
  rewrite lookup_insert_ne; [done|].
  by apply flashcardPath_ne_progressPath.
Qed.

Lemma pruned_lookup (cards : list Flashcard.t) (m : gmap string CardProgress.t) id :
  filter (λ kv, kv.1 ∈ (list_to_set (Flashcard.id <$> cards) : gset string)) m !! id
  = if decide (id ∈ Flashcard.id <$> cards) then m !! id else None.
Proof.
  destruct (m !! id) as [cp|] eqn:E.
  - case_decide as Hin.
    + apply map_lookup_filter_Some. split; [done|]. simpl. set_solver.
    + apply map_lookup_filter_None. right. intros cp' _. simpl. set_solver.
  - transitivity (@None CardProgress.t); [|by case_decide].
    apply map_lookup_filter_None. left. done.
Qed.

End Storage.

(** C5. Deleting a card in the manager leaves no progress entry under its
    id; replacing the card set leaves, under every id, the entry it had
    before when the id is the id of a card of the new list, and no entry
    otherwise -- in the progress map that is read afterwards and in the
    progress file that was written. *)
Theorem C5_progress_follows_cards :
  (∀ v p index card,
      FlashcardManageView.cards v !! index = Some card →
      ∃ v' p' p'' after,
        deleteCard v p index = Ok (v', p')
        ∧ FlashcardManageView.cards v' = delete index (FlashcardManageView.cards v)
        ∧ loadProgress p' = Ok (p'', after)
        ∧ after !! Flashcard.id card = None)
  ∧ (∀ p cards,
      ∃ p0 before p1 p2 after version,
        loadProgress p = Ok (p0, before)
        ∧ replaceAllCards p cards = Ok p1
        ∧ loadProgress p1 = Ok (p2, after)
        ∧ Adapter.files (Plugin.adapter p1) !! progressPath p1
          = Some (ProgressJson (ProgressFile.mk version after))
        ∧ ∀ id, after !! id
                = if decide (id ∈ Flashcard.id <$> cards) then before !! id else None).
Proof.
  split.
  - intros v p index card Hcard.
    destruct (cachedProgress_Ok p) as [data Hdata].
    unfold deleteCard. rewrite Hcard.
    rewrite (replaceAllCards_eq _ _ _ Hdata). result_bind.
    erewrite removeProgress_eq by (by apply cachedProgress_cached). result_bind.
    eexists _, _, _, _. split; [done|]. split; [done|]. split.
    + apply loadProgress_eq. by apply cachedProgress_cached.
    + simpl. apply lookup_delete_eq.
  - intros p cards.
    destruct (cachedProgress_Ok p) as [data Hdata].
    eexists _, _, _, _, _, _. split; [by apply loadProgress_eq|].
    split; [by apply replaceAllCards_eq|]. split.
    { apply loadProgress_eq. by apply cachedProgress_cached. }
    split.
    { simpl. rewrite lookup_insert_eq. done. }
    intros id. simpl. apply pruned_lookup.
Qed.

Section Session.

Lemma updateProgressOptimistic_eq now p cardId isGood data :
  cachedProgress p = Ok data →
  updateProgressOptimistic now p cardId isGood
  = Ok (let p1 := ensureStorageFolder p true in
        let current := buildNextProgress now (ProgressFile.progress data !! cardId) isGood in
        let data' := ProgressFile.mk (ProgressFile.version data)
                       (<[cardId := current]> (ProgressFile.progress data)) in
        (writeJson (Plugin.with_progressCache p1 (Some data')) (progressPath p1)
                   (ProgressJson data'),
         current)).
Proof.
  intros H. unfold updateProgressOptimistic. rewrite cachedProgress_ensure, H. done.
Qed.

(** A grade on the current card: the progress the view holds afterwards is
    the stored progress with the entry of that card replaced. *)
Lemma handleGrade_eq now v p isGood card data :
  currentCard v = Some card →
  cachedProgress p = Ok data →
  ∃ p',
    handleGrade now v p isGood
    = Ok (let progress :=
            <[Flashcard.id card :=
                buildNextProgress now (ProgressFile.progress data !! Flashcard.id card) isGood]>
              (ProgressFile.progress data) in
          let v1 := FlashcardView.mk (FlashcardView.cards v) (FlashcardView.index v)
                      (FlashcardView.showingAnswer v) progress in
          let remaining := remainingCards v1 in
          (FlashcardView.mk (FlashcardView.cards v)
             (if decide (0 < length remaining)%nat
              then ((FlashcardView.index v + 1) mod length remaining)%nat else 0%nat)
             false progress, p')).
Proof.
  intros Hcur Hdata. unfold handleGrade. rewrite Hcur.
  rewrite (updateProgressOptimistic_eq _ _ _ _ _ Hdata). result_bind.
  erewrite loadProgress_eq by (by apply cachedProgress_cached). result_bind.
  eauto.
Qed.

(** Opening the view and grading leave the view with the progress of the
    cached document. *)
Lemma reload_inSync p v p' : reload p = Ok (v, p') → inSync v p'.
Proof.
  unfold reload. destruct (loadAllCards p) as [[p1 cards]|]; [|done].
  result_bind. destruct (cachedProgress_Ok p1) as [data Hdata].
  rewrite (loadProgress_eq _ _ Hdata). result_bind.
  intros [= <- <-]. by exists data.
Qed.

Lemma handleGrade_inSync now v p isGood v' p' :
  inSync v p → handleGrade now v p isGood = Ok (v', p') → inSync v' p'.
Proof.
  intros Hsync. unfold handleGrade. destruct (currentCard v) as [card|].
  - destruct (cachedProgress_Ok p) as [data Hdata].
    rewrite (updateProgressOptimistic_eq _ _ _ _ _ Hdata). result_bind.
    erewrite loadProgress_eq by (by apply cachedProgress_cached). result_bind.
    intros [= <- <-]. by eexists.
  - by intros [= <- <-].
Qed.

Lemma isDone_insert progress cardId cp card :
  isDone (<[cardId := cp]> progress) card
  = if decide (Flashcard.id card = cardId)
    then default false (CardProgress.done cp) else isDone progress card.
Proof.
  unfold isDone. case_decide as E.
  - subst. by rewrite lookup_insert_eq.
  - by rewrite lookup_insert_ne.
Qed.

Lemma isDone_empty card : isDone ∅ card = false.
Proof. unfold isDone. by rewrite lookup_empty. Qed.

Lemma filter_none {A} (P : A → Prop) `{∀ x, Decision (P x)} (l : list A) :
  (∀ x, x ∈ l → ¬ P x) → filter P l = [].
Proof.
  intros HP. apply elem_of_nil_inv. intros x [HPx Hx]%list_elem_of_filter.
  by apply (HP x).
Qed.

End Session.

(** The session over A, B, C played to its end with good grades: the cards
    come up in the order A, C, B. *)
Example session_plays_out :
  ('(v1, p1) ← handleGrade 1 sessionABC freshPlugin true;
   '(v2, p2) ← handleGrade 2 v1 p1 true;
   '(v3, p3) ← handleGrade 3 v2 p2 true;
   Ok (currentCard sessionABC, currentCard v1, currentCard v2, render v3))
  = Ok (Some cardA, Some cardC, Some cardB, FinishedAll).
Proof. vm_compute. reflexivity. Qed.

(** C2 (as the code has it). In a view that holds the progress of the
    cached document, with cards [A, B, C] of distinct ids and no progress,
    all three remain and A is current.  A good grade on A marks
    it done and leaves [B, C]; the index moves on to 1 among the two, so the
    current card is C.  A good grade on the only remaining card leaves no
    card remaining and none current, and the screen then shown is not the
    screen of a session without cards. *)
Theorem C2_review_session :
  (∀ now p A B C,
      NoDup [Flashcard.id A; Flashcard.id B; Flashcard.id C] →
      let v := FlashcardView.mk [A; B; C] 0 false ∅ in
      inSync v p →
      remainingCards v = [A; B; C]
      ∧ currentCard v = Some A
      ∧ ∃ v1 p1,
          handleGrade now v p true = Ok (v1, p1)
          ∧ isDone (FlashcardView.progress v1) A = true
          ∧ remainingCards v1 = [B; C]
          ∧ currentCard v1 = Some C)
  ∧ (∀ now v p X,
      inSync v p →
      remainingCards v = [X] →
      ∃ v1 p1,
        handleGrade now v p true = Ok (v1, p1)
        ∧ remainingCards v1 = []
        ∧ currentCard v1 = None
        ∧ render v1 = FinishedAll
        ∧ ∀ v0, FlashcardView.cards v0 = [] → render v0 = NoFlashcardsYet
                                              ∧ render v0 ≠ render v1).
Proof.
  split.
  - intros now p A B C Hids v (data & Hdata%cachedProgress_cached & Hempty).
    simpl in Hempty.
    apply NoDup_cons in Hids as [HA Hids]. apply NoDup_cons in Hids as [HB _].
    assert (Flashcard.id B ≠ Flashcard.id A) by set_solver.
    assert (Flashcard.id C ≠ Flashcard.id A) by set_solver.
    assert (Hrem : remainingCards v = [A; B; C]).
    { unfold remainingCards, v. simpl.
      rewrite !filter_cons_True by apply isDone_empty. done. }
    assert (Hcur : currentCard v = Some A).
    { unfold currentCard. rewrite Hrem. done. }
    split; [done|]. split; [done|].
    destruct (handleGrade_eq now v p true A data Hcur Hdata) as [p1 Hgrade].
    rewrite Hempty in Hgrade. simpl in Hgrade.
    eexists _, p1. split; [exact Hgrade|].
    assert (Hrem1 : ∀ index showing,
      remainingCards (FlashcardView.mk [A; B; C] index showing
        (<[Flashcard.id A := buildNextProgress now None true]> ∅)) = [B; C]).
    { intros. unfold remainingCards. simpl.
      rewrite filter_cons_False; last first.
      { rewrite isDone_insert, decide_True by done. done. }
      rewrite !filter_cons_True; [done|..];
        rewrite isDone_insert, decide_False by done; apply isDone_empty. }
    rewrite lookup_empty in *.
    split; [|split].
    + simpl. rewrite isDone_insert, decide_True by done. done.
    + apply Hrem1.
    + unfold currentCard. rewrite !Hrem1. done.
  - intros now v p X (data & Hdata%cachedProgress_cached & Hsync) Hrem.
    assert (Hcur : currentCard v = Some X).
    { unfold currentCard. rewrite Hrem. simpl. rewrite ?Nat.mod_1_r. done. }
    destruct (handleGrade_eq now v p true X data Hcur Hdata) as [p1 Hgrade].
    rewrite Hsync in Hgrade.
    set (progress := <[Flashcard.id X := _]> _) in Hgrade.
    assert (Hrem1 : ∀ index showing,
      remainingCards (FlashcardView.mk (FlashcardView.cards v) index showing progress) = []).
    { intros. unfold remainingCards. simpl. apply filter_none.
      intros c Hc. unfold progress. rewrite isDone_insert.
      case_decide as Hid; [done|].
      intros Hnot. assert (c ∈ remainingCards v) as Hin.
      { unfold remainingCards. apply list_elem_of_filter. done. }
      rewrite Hrem in Hin. apply list_elem_of_singleton in Hin. by subst. }
    simpl in Hgrade. rewrite !Hrem1 in Hgrade. simpl in Hgrade.
    eexists _, p1. split; [exact Hgrade|].
    assert (Hne : FlashcardView.cards v ≠ []).
    { intros Hnil. unfold remainingCards in Hrem. rewrite Hnil in Hrem. done. }
    assert (Hfin : render (FlashcardView.mk (FlashcardView.cards v) 0 false progress)
                   = FinishedAll).
    { unfold render, currentCard. rewrite Hrem1. simpl.
      destruct (FlashcardView.cards v); done. }
    split; [apply Hrem1|]. split.
    { unfold currentCard. rewrite Hrem1. done. }
    split; [done|].
    intros v0 Hv0.
    assert (render v0 = NoFlashcardsYet) as ->.
    { unfold render, currentCard, remainingCards. rewrite Hv0. done. }
    rewrite Hfin. done.
Qed.

Lemma C2_review_session_witness :
  remainingCards sessionABC = [cardA; cardB; cardC]
  ∧ currentCard sessionABC = Some cardA
  ∧ ∃ v1 p1,
      handleGrade 0 sessionABC freshPlugin true = Ok (v1, p1)
      ∧ isDone (FlashcardView.progress v1) cardA = true
      ∧ remainingCards v1 = [cardB; cardC]
      ∧ currentCard v1 = Some cardC.
Proof.
  apply (proj1 C2_review_session 0 freshPlugin cardA cardB cardC).
  - apply (bool_decide_unpack _). reflexivity.
  - exists emptyProgressFile. split; reflexivity.
Defined.

(** C2, as stated, fails: after the good grade on A the current card is C,
    not B. *)
Lemma C2_current_is_not_B :
  ¬ ∃ v1 p1,
      handleGrade 0 sessionABC freshPlugin true = Ok (v1, p1)
      ∧ currentCard v1 = Some cardB.
Proof.
  intros (v1 & p1 & Hgrade & Hcur).
  assert (E : (s ← handleGrade 0 sessionABC freshPlugin true; Ok (currentCard s.1))
              = Ok (Some cardC)) by (vm_compute; reflexivity).
  rewrite Hgrade in E. simpl in E. rewrite Hcur in E. discriminate.
Qed.

(** ** Rounding

    The error of one rounding, and of the chains of operations the program
    and the layout make. *)

Section Rounding.

Local Open Scope Q_scope.

Lemma pow2_pos z : 0 < pow2 z.
Proof. apply Qpower_0_lt. reflexivity. Qed.

Lemma pow2_add a b : pow2 (a + b) == pow2 a * pow2 b.
Proof. apply Qpower_plus. discriminate. Qed.

Lemma pow2_le a b : (a <= b)%Z → pow2 a <= pow2 b.
Proof. intros H. apply Qpower_le_compat_l; [done|]. discriminate. Qed.

Lemma pow2_inject a : (0 <= a)%Z → inject_Z (2 ^ a) == pow2 a.
Proof. intros H. apply (Zpower_Qpower 2 a H). Qed.

Lemma ilog2_le q : ¬ q == 0 → pow2 (ilog2 q) <= Qabs q.
Proof.
  intros Hq. unfold ilog2.
  destruct q as [n d]. cbn [Qnum Qden].
  set (a := Z.log2 (Z.abs n)). set (b := Z.log2 (Z.pos d)).
  destruct (Qle_bool (pow2 (a - b)) (Qabs (n # d))) eqn:E.
  { by apply Qle_bool_iff. }
  assert (Hn : (0 < Z.abs n)%Z).
  { destruct (decide (n = 0%Z)) as [->|]; [|lia]. by destruct Hq. }
  destruct (Z.log2_spec (Z.abs n) Hn) as [Hlo _]. fold a in Hlo.
  destruct (Z.log2_spec (Z.pos d)) as [_ Hhi]; [done|]. fold b in Hhi.
  assert (Ha : (0 <= a)%Z) by apply Z.log2_nonneg.
  assert (Hb : (0 <= b)%Z) by apply Z.log2_nonneg.
  change (Qabs (n # d)) with (Z.abs n # d).
  rewrite (Qmake_Qdiv (Z.abs n) d).
  apply Qle_shift_div_l; [reflexivity|].
  apply Qle_trans with (pow2 (a - b - 1) * pow2 (b + 1)).
  - apply Qmult_le_l; [apply pow2_pos|].
    rewrite <- pow2_inject by lia. rewrite <- Zle_Qle.
    replace (b + 1)%Z with (Z.succ b) by lia. lia.
  - rewrite <- pow2_add. replace (a - b - 1 + (b + 1))%Z with a by lia.
    rewrite <- pow2_inject by done. by rewrite <- Zle_Qle.
Qed.

Lemma roundHalfEven_error x : Qabs (inject_Z (roundHalfEven x) - x) <= 1 # 2.
Proof.
  unfold roundHalfEven.
  pose proof (Qfloor_le x) as Hlo. pose proof (Qlt_floor x) as Hhi.
  rewrite inject_Z_plus in Hhi. change (inject_Z 1) with 1 in Hhi.
  set (f := Qfloor x) in *.
  assert (Hup : inject_Z (f + 1) == inject_Z f + 1) by (by rewrite inject_Z_plus).
  apply Qabs_Qle_condition.
  destruct (x - inject_Z f ?= 1 # 2) eqn:E.
  - apply Qeq_alt in E. destruct (Z.even f); rewrite ?Hup; split; lra.
  - apply Qlt_alt in E. split; lra.
  - apply Qgt_alt in E. rewrite Hup. split; lra.
Qed.

Lemma double_error q :
  Qabs q <= pow2 1023 →
  ∃ r, double q = Fin r ∧ Qabs (r - q) <= unitRoundoff * Qabs q + leastError.
Proof.
  intros Hq. unfold double.
  pose proof (Qabs_nonneg q) as Hq0.
  destruct (Qeq_bool q 0) eqn:E.
  { apply Qeq_bool_iff in E. exists 0. split; [done|].
    assert (0 < unitRoundoff) by apply pow2_pos.
    assert (0 < leastError) by apply pow2_pos.
    assert (Hz : 0 - q == 0) by (rewrite E; ring). rewrite Hz.
    change (Qabs 0) with 0. nra. }
  assert (Hne : ¬ q == 0).
  { intros H. apply Qeq_bool_iff in H. congruence. }
  set (e := Z.max (ilog2 q) (-1022)).
  set (ulp := pow2 (e - 52)).
  set (m := roundHalfEven (q / ulp)).
  assert (Hulp : 0 < ulp) by apply pow2_pos.
  assert (Herr : Qabs (inject_Z m * ulp - q) <= unitRoundoff * Qabs q + leastError).
  { assert (Hf : inject_Z m * ulp - q == (inject_Z m - q / ulp) * ulp)
      by (field; lra).
    rewrite Hf.
    rewrite Qabs_Qmult, (Qabs_pos ulp) by lra.
    pose proof (roundHalfEven_error (q / ulp)) as Hm. fold m in Hm.
    apply Qle_trans with ((1 # 2) * ulp);
      [apply Qmult_le_compat_r; [exact Hm|by apply Qlt_le_weak]|].
    assert (Hhalf : (1 # 2) * ulp == pow2 (e - 53)).
    { unfold ulp. replace (e - 53)%Z with (-1 + (e - 52))%Z by lia.
      rewrite pow2_add. reflexivity. }
    rewrite Hhalf.
    assert (0 < unitRoundoff) by apply pow2_pos.
    assert (0 < leastError) by apply pow2_pos.
    destruct (Z.max_spec (ilog2 q) (-1022)) as [[Hlt He]|[Hge He]]; fold e in He.
    - rewrite He. change (pow2 (-1022 - 53)) with leastError. nra.
    - rewrite He. replace (ilog2 q - 53)%Z with (-53 + ilog2 q)%Z by lia.
      rewrite pow2_add. fold unitRoundoff.
      pose proof (ilog2_le q Hne). nra. }
  assert (Hsmall : Qle_bool (pow2 1024) (Qabs (inject_Z m * ulp)) = false).
  { destruct (Qle_bool (pow2 1024) (Qabs (inject_Z m * ulp))) eqn:Eo; [|done].
    exfalso. apply Qle_bool_iff in Eo.
    pose proof (Qabs_triangle (inject_Z m * ulp - q) q) as Ht.
    assert (Hs : inject_Z m * ulp - q + q == inject_Z m * ulp) by ring.
    rewrite Hs in Ht.
    assert (Hc : pow2 1023 + unitRoundoff * pow2 1023 + leastError < pow2 1024)
      by (by vm_compute).
    assert (0 < unitRoundoff) by apply pow2_pos.
    set (big := pow2 1023) in *. set (top := pow2 1024) in *.
    set (u := unitRoundoff) in *. set (eta := leastError) in *.
    clearbody big top u eta. nra. }
  rewrite Hsmall. eexists. split; [reflexivity|]. by rewrite Qred_correct.
Qed.

End Rounding.

Section Propagation.

Local Open Scope Q_scope.


Lemma unitRoundoff_pos : 0 < unitRoundoff.
Proof. apply pow2_pos. Qed.

Lemma leastError_pos : 0 < leastError.
Proof. apply pow2_pos. Qed.

Lemma number_near_weaken t t' n A : t <= t' → number_near t n A → number_near t' n A.
Proof.
  destruct n; cbn [number_near]; [|done..]. intros H1 H2. by apply Qle_trans with t.
Qed.

Lemma number_near_ext t n A A' : A == A' → number_near t n A → number_near t n A'.
Proof.
  destruct n as [q| |]; cbn [number_near]; [|done..]. intros H1 H2.
  assert (Hs : q - A' == q - A) by (rewrite H1; reflexivity). by rewrite Hs.
Qed.

(** One operation of the doubles on an operand that is already off by
    [t]: the result of the exact operation is [B], and moves by at most
    [s] when the operand moves by [t]. *)
Lemma double_near (a A B b s : Q) :
  Qabs (b - B) <= s → Qabs B + s <= pow2 1023 →
  number_near (s + unitRoundoff * (Qabs B + s) + leastError) (double b) B.
Proof.
  intros Hb Hmag.
  assert (Hbb : Qabs b <= Qabs B + s).
  { pose proof (Qabs_triangle (b - B) B) as Ht.
    assert (Hs : b - B + B == b) by ring. rewrite Hs in Ht. lra. }
  destruct (double_error b) as (r & -> & Hr); [lra|]. cbn [number_near].
  pose proof (Qabs_triangle (r - b) (b - B)) as Ht.
  assert (Hs : r - b + (b - B) == r - B) by ring. rewrite Hs in Ht.
  pose proof unitRoundoff_pos. nra.
Qed.

Lemma near_scale t n A k :
  number_near t n A → 0 < k → (Qabs A + t) * k <= pow2 1023 →
  number_near (t * k + unitRoundoff * ((Qabs A + t) * k) + leastError) (number_mul Doubles n k) (A * k).
Proof.
  destruct n as [a| |]; cbn [number_near number_mul number_add toNumber rounded]; [|done..]. intros Ha Hk Hmag.
  eapply number_near_weaken; [|apply (double_near a A (A * k) (a * k) (t * k))].
  - rewrite (Qabs_Qmult A k), (Qabs_pos k) by lra. pose proof unitRoundoff_pos. nra.
  - assert (Hs : a * k - A * k == (a - A) * k) by ring. rewrite Hs.
    rewrite Qabs_Qmult, (Qabs_pos k) by lra. apply Qmult_le_compat_r; lra.
  - rewrite (Qabs_Qmult A k), (Qabs_pos k) by lra. lra.
Qed.

Lemma near_divide t n A b :
  number_near t n A → 0 < b → (Qabs A + t) * / b <= pow2 1023 →
  number_near (t * / b + unitRoundoff * ((Qabs A + t) * / b) + leastError) (number_div Doubles n b) (A * / b).
Proof.
  intros Hn Hb Hmag.
  assert (Qeq_bool b 0 = false) as Hb0.
  { destruct (Qeq_bool b 0) eqn:E; [|done]. apply Qeq_bool_iff in E. lra. }
  assert (0 < / b) by (by apply Qinv_lt_0_compat).
  pose proof (near_scale t n A (/ b) Hn) as H1.
  destruct n as [a| |]; [|done..].
  unfold number_div. cbn [toNumber]. rewrite Hb0. by apply H1.
Qed.

Lemma near_add t n A x :
  number_near t n A → Qabs x + Qabs A + t <= pow2 1023 →
  number_near (t + unitRoundoff * (Qabs x + Qabs A + t) + leastError) (number_add Doubles x n) (x + A).
Proof.
  destruct n as [a| |]; cbn [number_near number_mul number_add toNumber rounded]; [|done..]. intros Ha Hmag.
  eapply number_near_weaken; [|apply (double_near a A (x + A) (x + a) t)].
  - pose proof (Qabs_triangle x A). pose proof unitRoundoff_pos. nra.
  - assert (Hs : x + a - (x + A) == a - A) by ring. by rewrite Hs.
  - pose proof (Qabs_triangle x A). lra.
Qed.

(** The same steps with the error split into a part relative to the exact
    value and a constant. *)
Lemma scale_step (eps al kappa : Q) n A k :
  0 <= eps → eps <= 1 → 0 <= al → al * kappa <= 1 →
  0 < k → k <= kappa → Qabs (A * k) <= pow2 1008 →
  number_near (eps * Qabs A + al) n A →
  number_near ((eps + unitRoundoff + unitRoundoff * eps) * Qabs (A * k)
               + (al * kappa * (1 + unitRoundoff) + leastError))
              (number_mul Doubles n k) (A * k).
Proof.
  intros He0 He1 Ha0 Hak Hk Hkk Hmag Hn.
  assert (HAk : Qabs (A * k) == Qabs A * k).
  { by rewrite Qabs_Qmult, (Qabs_pos k) by lra. }
  pose proof (Qabs_nonneg A) as HA. pose proof unitRoundoff_pos as Hu.
  assert (Hc : 2 * pow2 1008 + 1 <= pow2 1023) by (by vm_compute).
  assert (Halk : al * k <= al * kappa) by nra.
  assert (Hualk : unitRoundoff * (al * k) <= unitRoundoff * (al * kappa)) by nra.
  eapply number_near_weaken; [|apply (near_scale _ n A k Hn Hk)].
  - rewrite HAk. set (aa := Qabs A) in *. clearbody aa.
    assert (Hs : (eps * aa + al) * k + unitRoundoff * ((aa + (eps * aa + al)) * k)
                 == (eps + unitRoundoff + unitRoundoff * eps) * (aa * k)
                    + (al * k + unitRoundoff * (al * k))) by ring.
    rewrite Hs. lra.
  - rewrite HAk in Hmag.
    set (big := pow2 1023) in *. set (mid := pow2 1008) in *. clearbody big mid.
    set (aa := Qabs A) in *. clearbody aa.
    assert (Hp : 0 <= aa * k) by nra.
    set (p := aa * k) in *.
    assert (Hep : eps * p <= p) by nra.
    assert (Hs : (aa + (eps * aa + al)) * k == p + eps * p + al * k)
      by (unfold p; ring).
    rewrite Hs. lra.
Qed.

End Propagation.

Section Roundtrip.

Local Open Scope Q_scope.

Lemma scale_step' (i : Q) (al kappa al' : Q) n A k :
  0 <= i → i <= 8 → 0 <= al → al * kappa <= 1 →
  al * kappa * (1 + unitRoundoff) + leastError <= al' →
  0 < k → k <= kappa → Qabs (A * k) <= pow2 1008 →
  number_near (i * stepError * Qabs A + al) n A →
  number_near ((i + 1) * stepError * Qabs (A * k) + al') (number_mul Doubles n k) (A * k).
Proof.
  intros Hi0 Hi8 Ha0 Hak Hal' Hk Hkk Hmag Hn.
  assert (Hv : 0 < stepError) by (by vm_compute).
  assert (Hv8 : 8 * stepError <= 1) by (by vm_compute).
  assert (Hstep : unitRoundoff + unitRoundoff * (8 * stepError) <= stepError) by (by vm_compute).
  pose proof unitRoundoff_pos as Hu.
  assert (Hiv0 : 0 <= i * stepError) by nra.
  assert (Hiv1 : i * stepError <= 1) by nra.
  eapply number_near_weaken;
    [|by apply (scale_step (i * stepError) al kappa n A k)].
  pose proof (Qabs_nonneg (A * k)) as HAk.
  set (p := Qabs (A * k)) in *. clearbody p.
  set (w := stepError) in *. set (uu := unitRoundoff) in *. clearbody w uu.
  assert (Hiw : i * w <= 8 * w) by nra.
  assert (Hu1 : uu * (i * w) <= uu * (8 * w)) by nra.
  assert (Hu2 : (uu + uu * (i * w)) * p <= w * p) by nra.
  assert (Hs : (i * w + uu + uu * (i * w)) * p == i * w * p + (uu + uu * (i * w)) * p)
    by ring.
  rewrite Hs.
  assert (Hs' : (i + 1) * w * p == i * w * p + w * p) by ring.
  rewrite Hs'. lra.
Qed.

Lemma number_div_mul n b :
  0 < b → number_div Doubles n b = number_mul Doubles n (/ b).
Proof.
  intros Hb. unfold number_div, number_mul.
  assert (Qeq_bool b 0 = false) as ->; [|done].
  destruct (Qeq_bool b 0) eqn:E; [|done]. apply Qeq_bool_iff in E. lra.
Qed.

Lemma pow2_inv z : / pow2 z == pow2 (- z).
Proof. unfold pow2. by rewrite Qpower_opp. Qed.

(** The range of the layout: sizes and reciprocals of sizes up to [2^500]. *)
Lemma inv_range b : pow2 (-500) <= b → b <= pow2 500 → 0 < b ∧ 0 < / b ∧ / b <= pow2 500.
Proof.
  intros Hlo Hhi. pose proof (pow2_pos (-500)) as Hp.
  assert (Hb : 0 < b) by lra. split; [done|]. split; [by apply Qinv_lt_0_compat|].
  rewrite <- (Qinv_involutive (pow2 500)). change 500%Z with (- -500)%Z.
  rewrite <- pow2_inv, Qinv_involutive.
  apply Qle_shift_inv_r; [done|]. 
  assert (Hs : 1 == / pow2 (-500) * pow2 (-500)).
  { field. intros E. rewrite E in Hp. by apply Qlt_irrefl in Hp. }
  rewrite Hs at 1. apply Qmult_le_l; [apply Qinv_lt_0_compat, pow2_pos|done].
Qed.

Lemma stored_near n A b :
  Qabs A <= pow2 501 → pow2 (-500) <= b → b <= pow2 500 →
  number_near (stepError * Qabs A + leastError) n A →
  number_near (2 * stepError * Qabs (A / b) + pow2 (-574)) (number_div Doubles n b) (A / b).
Proof.
  intros HA Hlo Hhi Hn.
  destruct (inv_range b Hlo Hhi) as (Hb & Hib & Hib').
  rewrite number_div_mul by done.
  apply (scale_step' 1 leastError (pow2 500) (pow2 (-574)) n A (/ b)).
  - discriminate.
  - discriminate.
  - discriminate.
  - by vm_compute.
  - by vm_compute.
  - done.
  - done.
  - rewrite Qabs_Qmult, (Qabs_pos (/ b)) by lra.
    apply Qle_trans with (pow2 501 * pow2 500); [|by vm_compute].
    pose proof (Qabs_nonneg A). apply Qmult_le_compat_nonneg; split; lra.
  - eapply number_near_weaken; [|exact Hn]. lra.
Qed.

Lemma Qabs_mult_le a k m c :
  Qabs a <= m → 0 < k → k <= c → Qabs (a * k) <= m * c.
Proof.
  intros Ha Hk Hc. rewrite Qabs_Qmult, (Qabs_pos k) by lra.
  pose proof (Qabs_nonneg a). apply Qmult_le_compat_nonneg; split; lra.
Qed.

(** Taken against a size [b], turned into a percentage, and scaled back
    against the same size. *)
Lemma scaled_back n A b :
  Qabs A <= pow2 501 → pow2 (-500) <= b → b <= pow2 500 →
  number_near (stepError * Qabs A + leastError) n A →
  number_near (5 * stepError * Qabs A + pow2 (-65))
    (number_mul Doubles
       (number_div Doubles (number_mul Doubles (number_div Doubles n b) 100) 100) b)
    A.
Proof.
  intros HA Hlo Hhi Hn.
  destruct (inv_range b Hlo Hhi) as (Hb & Hib & Hib').
  rewrite !number_div_mul by (done || reflexivity).
  assert (H1 : number_near (1 * stepError * Qabs A + leastError) n A).
  { eapply number_near_weaken; [|exact Hn]. lra. }
  assert (HA1 : Qabs (A * / b) <= pow2 1001).
  { apply Qle_trans with (pow2 501 * pow2 500); [|by vm_compute].
    by apply Qabs_mult_le. }
  assert (HA2 : Qabs (A * / b * 100) <= pow2 1008).
  { apply Qle_trans with (pow2 1001 * 100); [|by vm_compute].
    apply Qabs_mult_le; [done|reflexivity|discriminate]. }
  assert (HA3 : Qabs (A * / b * 100 * / 100) <= pow2 1008).
  { apply Qle_trans with (pow2 1008 * 1); [|by vm_compute].
    apply Qabs_mult_le; [done|reflexivity|discriminate]. }
  assert (Hback : A * / b * 100 * / 100 * b == A) by (field; lra).
  assert (HA4 : Qabs (A * / b * 100 * / 100 * b) <= pow2 1008).
  { rewrite Hback. apply Qle_trans with (pow2 501); [done|by vm_compute]. }
  assert (H2 : number_near ((1 + 1) * stepError * Qabs (A * / b) + pow2 (-574))
                 (number_mul Doubles n (/ b)) (A * / b)).
  { apply (scale_step' 1 leastError (pow2 500) (pow2 (-574)) n A (/ b)).
    - discriminate.
    - discriminate.
    - discriminate.
    - by vm_compute.
    - by vm_compute.
    - done.
    - done.
    - apply Qle_trans with (pow2 1001); [done|by vm_compute].
    - done. }
  assert (H3 : number_near ((1 + 1 + 1) * stepError * Qabs (A * / b * 100) + pow2 (-567))
                 (number_mul Doubles (number_mul Doubles n (/ b)) 100) (A * / b * 100)).
  { apply (scale_step' (1 + 1) (pow2 (-574)) 100 (pow2 (-567)) _ (A * / b) 100).
    - discriminate.
    - discriminate.
    - discriminate.
    - by vm_compute.
    - by vm_compute.
    - reflexivity.
    - discriminate.
    - done.
    - done. }
  assert (H4 : number_near ((1 + 1 + 1 + 1) * stepError * Qabs (A * / b * 100 * / 100)
                            + pow2 (-566))
                 (number_mul Doubles (number_mul Doubles (number_mul Doubles n (/ b)) 100)
                    (/ 100))
                 (A * / b * 100 * / 100)).
  { apply (scale_step' (1 + 1 + 1) (pow2 (-567)) 1 (pow2 (-566)) _ (A * / b * 100) (/ 100)).
    - discriminate.
    - discriminate.
    - discriminate.
    - by vm_compute.
    - by vm_compute.
    - reflexivity.
    - discriminate.
    - done.
    - done. }
  assert (H5 : number_near ((1 + 1 + 1 + 1 + 1) * stepError * Qabs (A * / b * 100 * / 100 * b)
                            + pow2 (-65))
                 (number_mul Doubles
                    (number_mul Doubles (number_mul Doubles (number_mul Doubles n (/ b)) 100)
                       (/ 100)) b)
                 (A * / b * 100 * / 100 * b)).
  { apply (scale_step' (1 + 1 + 1 + 1) (pow2 (-566)) (pow2 500) (pow2 (-65)) _
             (A * / b * 100 * / 100) b).
    - discriminate.
    - discriminate.
    - discriminate.
    - by vm_compute.
    - by vm_compute.
    - done.
    - done.
    - done.
    - done. }
  apply (number_near_ext _ _ _ _ Hback).
  eapply number_near_weaken; [|exact H5]. rewrite Hback. lra.
Qed.


(** Scaled against a size [b] and scaled back, without the percentage. *)
Lemma scaled_back_directly n A b :
  Qabs A <= pow2 501 → pow2 (-500) <= b → b <= pow2 500 →
  number_near (stepError * Qabs A + leastError) n A →
  number_near (5 * stepError * Qabs A + pow2 (-65))
    (number_mul Doubles (number_div Doubles n b) b) A.
Proof.
  intros HA Hlo Hhi Hn.
  destruct (inv_range b Hlo Hhi) as (Hb & Hib & Hib').
  rewrite !number_div_mul by done.
  assert (H1 : number_near (1 * stepError * Qabs A + leastError) n A).
  { eapply number_near_weaken; [|exact Hn]. lra. }
  assert (HA1 : Qabs (A * / b) <= pow2 1001).
  { apply Qle_trans with (pow2 501 * pow2 500); [|by vm_compute].
    by apply Qabs_mult_le. }
  assert (Hback : A * / b * b == A) by (field; lra).
  assert (H2 : number_near ((1 + 1) * stepError * Qabs (A * / b) + pow2 (-574))
                 (number_mul Doubles n (/ b)) (A * / b)).
  { apply (scale_step' 1 leastError (pow2 500) (pow2 (-574)) n A (/ b)).
    - discriminate.
    - discriminate.
    - discriminate.
    - by vm_compute.
    - by vm_compute.
    - done.
    - done.
    - apply Qle_trans with (pow2 1001); [done|by vm_compute].
    - done. }
  assert (H3 : number_near ((1 + 1 + 1) * stepError * Qabs (A * / b * b) + pow2 (-65))
                 (number_mul Doubles (number_mul Doubles n (/ b)) b) (A * / b * b)).
  { apply (scale_step' (1 + 1) (pow2 (-574)) (pow2 500) (pow2 (-65)) _ (A * / b) b).
    - discriminate.
    - discriminate.
    - discriminate.
    - by vm_compute.
    - by vm_compute.
    - done.
    - done.
    - rewrite Hback. apply Qle_trans with (pow2 501); [done|by vm_compute].
    - done. }
  apply (number_near_ext _ _ _ _ Hback).
  eapply number_near_weaken; [|exact H3]. rewrite Hback.
  assert (Hv : 0 < stepError) by (by vm_compute).
  pose proof (Qabs_nonneg A).
  set (x := stepError) in *. clearbody x. nra.
Qed.

Lemma stepError_bounds :
  0 < stepError ∧ unitRoundoff <= stepError ∧ 2 * stepError <= pow2 (-51).
Proof. by vm_compute. Qed.

(** A difference of two coordinates. *)
Lemma sub_near l o :
  Qabs l <= pow2 500 → Qabs o <= pow2 500 →
  Qabs (l - o) <= pow2 501
  ∧ number_near (stepError * Qabs (l - o) + leastError) (number_sub Doubles l o) (l - o).
Proof.
  intros Hl Ho.
  assert (HD : Qabs (l - o) <= Qabs l + Qabs o).
  { pose proof (Qabs_triangle l (- o)) as Ht. rewrite Qabs_opp in Ht. exact Ht. }
  assert (HD' : Qabs (l - o) <= pow2 501).
  { apply Qle_trans with (pow2 500 + pow2 500); [lra|by vm_compute]. }
  split; [done|].
  unfold number_sub. cbn [rounded].
  eapply number_near_weaken;
    [|apply (double_near (l - o) (l - o) (l - o) (l - o) 0)].
  - destruct stepError_bounds as (_ & Hu & _).
    pose proof (Qabs_nonneg (l - o)). nra.
  - assert (Hz : l - o - (l - o) == 0) by ring. rewrite Hz. discriminate.
  - apply Qle_trans with (pow2 501 + 0); [lra|by vm_compute].
Qed.

Lemma fin_near w : number_near (stepError * Qabs w + leastError) (Fin w) w.
Proof.
  cbn [number_near]. assert (Hz : w - w == 0) by ring. rewrite Hz.
  change (Qabs 0) with 0. destruct stepError_bounds as (Hv & _ & _).
  pose proof leastError_pos. pose proof (Qabs_nonneg w). nra.
Qed.

(** A stored coordinate is within [number_within] of the exact quotient. *)
Lemma stored_within n A b :
  Qabs A <= pow2 501 → pow2 (-500) <= b → b <= pow2 500 →
  number_near (stepError * Qabs A + leastError) n A →
  number_within (number_div Doubles n b) (Fin (A / b)).
Proof.
  intros HA Hlo Hhi Hn. cbn [number_within].
  eapply number_near_weaken; [|by apply stored_near].
  destruct stepError_bounds as (_ & _ & Hv).
  pose proof (Qabs_nonneg (A / b)). nra.
Qed.

(** A position [l], from its distance to the origin [o]. *)
Lemma position_from n l o :
  Qabs l <= pow2 500 → Qabs o <= pow2 500 →
  number_near (5 * stepError * Qabs (l - o) + pow2 (-65)) n (l - o) →
  number_near (pow2 (-50) * (Qabs l + Qabs o + 1)) (number_add Doubles o n) l.
Proof.
  intros Hl Ho H5.
  assert (HD : Qabs (l - o) <= Qabs l + Qabs o).
  { pose proof (Qabs_triangle l (- o)) as Ht. rewrite Qabs_opp in Ht. exact Ht. }
  assert (HD' : Qabs (l - o) <= pow2 501).
  { apply Qle_trans with (pow2 500 + pow2 500); [lra|by vm_compute]. }
  assert (Hsum : o + (l - o) == l) by ring.
  apply (number_near_ext _ _ _ _ Hsum).
  eapply number_near_weaken; [|apply (near_add _ _ _ o H5)].
  - assert (Hc1 : 5 * stepError + unitRoundoff + unitRoundoff * (5 * stepError) + unitRoundoff
                  <= pow2 (-50)) by (by vm_compute).
    assert (Hc2 : pow2 (-65) + unitRoundoff * pow2 (-65) + leastError <= pow2 (-50))
      by (by vm_compute).
    pose proof unitRoundoff_pos as Hu. assert (Hv : 0 < stepError) by (by vm_compute).
    pose proof (Qabs_nonneg (l - o)) as HD0.
    pose proof (Qabs_nonneg l) as Hl0. pose proof (Qabs_nonneg o) as Ho0.
    set (d := Qabs (l - o)) in *. set (al := Qabs l) in *. set (ao := Qabs o) in *.
    set (w := stepError) in *. set (uu := unitRoundoff) in *. set (e65 := pow2 (-65)) in *.
    set (e50 := pow2 (-50)) in *. set (eta := leastError) in *.
    clearbody d al ao w uu e65 e50 eta.
    assert (Hs : 5 * w * d + e65 + uu * (ao + d + (5 * w * d + e65)) + eta
                 == (5 * w + uu + uu * (5 * w)) * d + uu * ao
                    + (e65 + uu * e65 + eta)) by ring.
    rewrite Hs.
    assert (Hc0 : 0 <= 5 * w + uu + uu * (5 * w)) by nra.
    set (c := 5 * w + uu + uu * (5 * w)) in *. clearbody c.
    assert (Hcd : c * d <= c * (al + ao)) by nra.
    assert (Hcc : c * (al + ao) + uu * ao <= e50 * (al + ao)) by nra.
    lra.
  - assert (Hc : pow2 500 + pow2 501 + (5 * stepError * pow2 501 + pow2 (-65)) <= pow2 1023)
      by (by vm_compute).
    assert (Hv : 0 < stepError) by (by vm_compute).
    set (d := Qabs (l - o)) in *. set (ao := Qabs o) in *.
    set (w := stepError) in *. set (e65 := pow2 (-65)) in *.
    set (p500 := pow2 500) in *. set (p501 := pow2 501) in *. set (big := pow2 1023) in *.
    clearbody d ao w e65 p500 p501 big. nra.
Qed.

(** A size [w] greater than 1. *)
Lemma size_from n w :
  1 < w →
  number_near (5 * stepError * Qabs w + pow2 (-65)) n w →
  number_near (pow2 (-50) * w) n w.
Proof.
  intros Hw Hn.
  assert (Hv : 0 < stepError) by (by vm_compute).
  assert (Habs : Qabs w == w) by (apply Qabs_pos; lra).
  eapply number_near_weaken; [|exact Hn].
  rewrite Habs.
  assert (Hc : 5 * stepError + pow2 (-65) <= pow2 (-50)) by (by vm_compute).
  set (x := stepError) in *. set (e65 := pow2 (-65)) in *. set (e50 := pow2 (-50)) in *.
  assert (0 < e65) by apply pow2_pos.
  clearbody x e65 e50. nra.
Qed.

(** What is near a number is finite, and is read back from a file as it was
    written. *)
Lemma asStoredNumber_near t n q : number_near t n q → asStoredNumber n = n.
Proof. by destruct n. Qed.

Lemma asStoredNumber_within n e : number_within n e → asStoredNumber n = n.
Proof. destruct e; [|done..]. apply asStoredNumber_near. Qed.

(** A stored size is positive when the size is. *)
Lemma within_pos n q :
  0 < q → pow2 (-520) <= q → number_within n (Fin q) → ∃ r, n = Fin r ∧ 0 < r.
Proof.
  intros Hq Hlo Hn. destruct n as [r| |]; [|done..]. exists r. split; [done|].
  cbn [number_within number_near] in Hn. rewrite (Qabs_pos q) in Hn by lra.
  apply Qabs_Qle_condition in Hn as [Hn _].
  assert (Hc : pow2 (-51) * 1 + pow2 (-574) / pow2 (-520) < 1) by (by vm_compute).
  assert (He : pow2 (-574) <= pow2 (-574) / pow2 (-520) * q).
  { assert (Hp : 0 < pow2 (-520)) by apply pow2_pos.
    assert (Hp2 : 0 < pow2 (-574)) by apply pow2_pos.
    assert (Hr : pow2 (-574) == pow2 (-574) / pow2 (-520) * pow2 (-520)) by (field; lra).
    rewrite Hr at 1. apply Qmult_le_l; [|done].
    apply Qlt_shift_div_l; lra. }
  set (e51 := pow2 (-51)) in *. set (c := pow2 (-574) / pow2 (-520)) in *.
  set (e574 := pow2 (-574)) in *. clearbody e51 c e574. nra.
Qed.

End Roundtrip.

Section Geometry.

Lemma Qgtb_lt a b : Qgtb a b = true ↔ (b < a)%Q.
Proof.
  unfold Qgtb. rewrite negb_true_iff. split.
  - intros H. apply Qnot_le_lt. intros Hle. apply Qle_bool_iff in Hle. congruence.
  - intros H. destruct (Qle_bool a b) eqn:E; [|done].
    apply Qle_bool_iff in E. by apply Qlt_not_le in H.
Qed.

Lemma keptRect_spec rect :
  keptRect rect = true ↔ (1 < DOMRect.width rect)%Q ∧ (1 < DOMRect.height rect)%Q.
Proof. unfold keptRect. rewrite andb_true_iff, !Qgtb_lt. done. Qed.

Lemma number_div_exact q b :
  ¬ (b == 0)%Q → number_div Exact (Fin q) b = Fin (q / b)%Q.
Proof.
  intros Hb. unfold number_div. cbn [toNumber rounded].
  destruct (Qeq_bool b 0) eqn:E; [|done].
  by apply Qeq_bool_iff in E.
Qed.

(** [find] returns the only element that satisfies the predicate. *)
Lemma find_unique {A} (f : A → bool) (l : list A) (x : A) :
  x ∈ l → f x = true → (∀ y, y ∈ l → f y = true → y = x) →
  List.find f l = Some x.
Proof.
  intros Hin Hx Huniq. induction l as [|y l IH]; [by apply elem_of_nil in Hin|].
  simpl. destruct (f y) eqn:Hy.
  - f_equal. apply Huniq; [left|done].
  - apply IH.
    + apply elem_of_cons in Hin as [->|]; [congruence|done].
    + intros z Hz. apply Huniq. by right.
Qed.

Lemma find_none {A} (f : A → bool) (l : list A) :
  (∀ y, y ∈ l → f y = false) → List.find f l = None.
Proof.
  induction l as [|y l IH]; [done|]. intros H. simpl.
  rewrite (H y) by left. apply IH. intros z Hz. apply H. by right.
Qed.

Lemma normalizeIn_exact rect box :
  ¬ (DOMRect.width box == 0)%Q → ¬ (DOMRect.height box == 0)%Q →
  normalizeIn Exact rect box
  = HighlightRect.mk
      (Fin ((DOMRect.left rect - DOMRect.left box) / DOMRect.width box))
      (Fin ((DOMRect.top rect - DOMRect.top box) / DOMRect.height box))
      (Fin (DOMRect.width rect / DOMRect.width box))
      (Fin (DOMRect.height rect / DOMRect.height box)).
Proof.
  intros Hw Hh. unfold normalizeIn, number_sub. cbn [rounded].
  by rewrite !number_div_exact.
Qed.

(** Over exact arithmetic, unit coordinates taken against a box of non-zero
    size and scaled back against the same box give the rectangle back. *)
Lemma denormalize_normalize_exact rect box :
  ¬ (DOMRect.width box == 0)%Q → ¬ (DOMRect.height box == 0)%Q →
  sameRect (denormalize Exact box (normalizeIn Exact rect box)) rect.
Proof.
  intros Hw Hh. unfold sameRect, denormalize, normalizeIn, number_sub.
  cbn [rounded HighlightRect.x HighlightRect.y HighlightRect.w HighlightRect.h].
  rewrite !number_div_exact by done.
  cbn [number_add number_mul toNumber rounded number_is fst snd].
  repeat split; field; done.
Qed.

Lemma screenRect_normalize_exact highlight rect box :
  ¬ (DOMRect.width box == 0)%Q → ¬ (DOMRect.height box == 0)%Q →
  sameRect (screenRect Exact box (overlayIn Exact highlight (normalizeIn Exact rect box)))
           rect.
Proof.
  intros Hw Hh. unfold sameRect, screenRect, denormalize, overlayIn, normalizeIn, number_sub.
  cbn [rounded HighlightRect.x HighlightRect.y HighlightRect.w HighlightRect.h
       Overlay.left Overlay.top Overlay.width Overlay.height].
  rewrite !number_div_exact by done.
  cbn [number_add number_mul toNumber rounded].
  rewrite !number_div_exact by discriminate.
  cbn [number_add number_mul toNumber rounded number_is fst snd].
  repeat split; field; done.
Qed.

Lemma layoutRange_size rect box :
  layoutRange rect box →
  ¬ (DOMRect.width box == 0)%Q ∧ ¬ (DOMRect.height box == 0)%Q.
Proof.
  intros (_ & _ & _ & _ & _ & _ & [Hw _] & [Hh _]).
  pose proof (pow2_pos (-500)). split; lra.
Qed.

(** In doubles, the stored coordinates are within [number_within] of the
    exact ones. *)
Lemma normalize_within rect box :
  layoutRange rect box →
  HighlightRect_within (normalize rect box) (normalizeIn Exact rect box).
Proof.
  intros Hrange.
  destruct (layoutRange_size rect box Hrange) as [Hbw Hbh].
  destruct Hrange as (Hl & Ht & Hw & Hh & Hbl & Hbt & [Hw1 Hw2] & [Hh1 Hh2]).
  rewrite normalizeIn_exact by done.
  unfold HighlightRect_within, normalize, normalizeIn.
  cbn [HighlightRect.x HighlightRect.y HighlightRect.w HighlightRect.h].
  assert (Hbig : (pow2 500 <= pow2 501)%Q) by (by vm_compute).
  split; [|split; [|split]].
  - destruct (sub_near _ _ Hl Hbl). by apply stored_within.
  - destruct (sub_near _ _ Ht Hbt). by apply stored_within.
  - apply stored_within; [lra|done|done|apply fin_near].
  - apply stored_within; [lra|done|done|apply fin_near].
Qed.

(** In doubles, the stored coordinates scaled back against the same box are
    the rectangle within tolerance. *)
Lemma denormalize_near rect box :
  (1 < DOMRect.width rect)%Q → (1 < DOMRect.height rect)%Q →
  layoutRange rect box →
  nearRect box (denormalize Doubles box (normalize rect box)) rect.
Proof.
  intros Hw1 Hh1 (Hl & Ht & Hw & Hh & Hbl & Hbt & [Hbw1 Hbw2] & [Hbh1 Hbh2]).
  assert (Hbig : (pow2 500 <= pow2 501)%Q) by (by vm_compute).
  unfold nearRect, denormalize, normalize, normalizeIn.
  cbn [HighlightRect.x HighlightRect.y HighlightRect.w HighlightRect.h fst snd].
  split; [|split; [|split]].
  - destruct (sub_near _ _ Hl Hbl).
    apply position_from; [done..|]. by apply scaled_back_directly.
  - destruct (sub_near _ _ Ht Hbt).
    apply position_from; [done..|]. by apply scaled_back_directly.
  - apply size_from; [done|].
    apply scaled_back_directly; [lra|done|done|apply fin_near].
  - apply size_from; [done|].
    apply scaled_back_directly; [lra|done|done|apply fin_near].
Qed.

(** The same for the overlay drawn from the stored coordinates. *)
Lemma screenRect_near highlight rect box :
  (1 < DOMRect.width rect)%Q → (1 < DOMRect.height rect)%Q →
  layoutRange rect box →
  nearRect box (screenRect Doubles box (overlayOf highlight (normalize rect box))) rect.
Proof.
  intros Hw1 Hh1 (Hl & Ht & Hw & Hh & Hbl & Hbt & [Hbw1 Hbw2] & [Hbh1 Hbh2]).
  assert (Hbig : (pow2 500 <= pow2 501)%Q) by (by vm_compute).
  unfold nearRect, screenRect, denormalize, overlayOf, overlayIn, normalize, normalizeIn.
  cbn [HighlightRect.x HighlightRect.y HighlightRect.w HighlightRect.h fst snd
       Overlay.left Overlay.top Overlay.width Overlay.height].
  split; [|split; [|split]].
  - destruct (sub_near _ _ Hl Hbl).
    apply position_from; [done..|]. by apply scaled_back.
  - destruct (sub_near _ _ Ht Hbt).
    apply position_from; [done..|]. by apply scaled_back.
  - apply size_from; [done|].
    apply scaled_back; [lra|done|done|apply fin_near].
  - apply size_from; [done|].
    apply scaled_back; [lra|done|done|apply fin_near].
Qed.

(** Coordinates within [number_within] of exact ones are finite, and are
    read back from the file as they were written. *)
Lemma asStoredRect_within rect exact :
  HighlightRect_within rect exact → asStoredRect rect = rect.
Proof.
  intros (Hx & Hy & Hw & Hh). destruct rect as [x y w h]. unfold asStoredRect.
  cbn [HighlightRect.x HighlightRect.y HighlightRect.w HighlightRect.h] in *.
  by rewrite (asStoredNumber_within _ _ Hx), (asStoredNumber_within _ _ Hy),
    (asStoredNumber_within _ _ Hw), (asStoredNumber_within _ _ Hh).
Qed.

Lemma placeRect_unique rect pages page pageMap :
  page ∈ pages → centerInside rect page = true →
  (∀ page', page' ∈ pages → centerInside rect page' = true → page' = page) →
  placeRect pages pageMap rect
  = Map_push pageMap (pageIndex page) (normalize rect (PageElement.box page)).
Proof.
  intros Hin Hc Huniq. unfold placeRect.
  by rewrite (find_unique _ _ page).
Qed.

Lemma placeRect_outside pages pageMap (rects : list DOMRect.t) :
  (∀ rect page, rect ∈ rects → page ∈ pages → centerInside rect page = false) →
  fold_left (placeRect pages) rects pageMap = pageMap.
Proof.
  revert pageMap. induction rects as [|rect rects IH]; intros pageMap H; [done|].
  simpl. unfold placeRect at 2. rewrite find_none.
  - apply IH. intros r pg Hr. apply H. by right.
  - intros pg Hpg. apply H; [left|done].
Qed.

End Geometry.

(** C3 (as the code has it). A selection rectangle wider and higher than 1
    whose centre lies in exactly one page box, of non-zero width and height,
    is stored in unit coordinates against that box.  Over exact arithmetic
    the stored coordinates scaled back against the same box, directly or
    through the percentages of the overlay, are the rectangle itself.  In
    the doubles of the program, when no coordinate exceeds [2^500] in
    magnitude and the page box is at least [2^-500] wide and high, the
    stored coordinates are finite, they are read back from the file as they
    were written, and scaled back they are the rectangle within
    floating-point tolerance. *)
Theorem C3_normalize_roundtrip (rect : DOMRect.t) (pages : list PageElement.t)
    (page : PageElement.t) :
  (1 < DOMRect.width rect)%Q → (1 < DOMRect.height rect)%Q →
  page ∈ pages → centerInside rect page = true →
  (∀ page', page' ∈ pages → centerInside rect page' = true → page' = page) →
  ¬ (DOMRect.width (PageElement.box page) == 0)%Q →
  ¬ (DOMRect.height (PageElement.box page) == 0)%Q →
  let box := PageElement.box page in
  let norm := normalize rect box in
  (∀ pageMap, placeRect pages pageMap rect = Map_push pageMap (pageIndex page) norm)
  ∧ sameRect (denormalize Exact box (normalizeIn Exact rect box)) rect
  ∧ (∀ highlight,
       sameRect (screenRect Exact box (overlayIn Exact highlight (normalizeIn Exact rect box)))
                rect)
  ∧ (layoutRange rect box →
     asStoredRect norm = norm
     ∧ nearRect box (denormalize Doubles box norm) rect
     ∧ ∀ highlight, nearRect box (screenRect Doubles box (overlayOf highlight norm)) rect)
  ∧ (∀ id now selection color,
       Selection.rangeCount selection ≠ 0%nat →
       Selection.clientRects selection = [rect] →
       ∃ highlight,
         buildHighlightFromSelection id now selection pages color = Some highlight
         ∧ Highlight.pages highlight = [HighlightPage.mk (pageIndex page) [norm]]
         ∧ highlightLayer [highlight] page = [overlayOf highlight norm]
         ∧ (layoutRange rect box → asStored highlight = highlight)).
Proof.
  intros Hw Hh Hin Hc Huniq Hbw Hbh box norm.
  split; [|split; [|split; [|split]]].
  - intros pageMap. by apply placeRect_unique.
  - by apply denormalize_normalize_exact.
  - intros highlight. by apply screenRect_normalize_exact.
  - intros Hrange. split; [|split].
    + apply (asStoredRect_within _ _ (normalize_within rect box Hrange)).
    + by apply denormalize_near.
    + intros highlight. by apply screenRect_near.
  - intros id now selection color Hrange Hrects.
    unfold buildHighlightFromSelection.
    rewrite decide_False by done. rewrite Hrects. simpl.
    rewrite (proj2 (keptRect_spec rect)) by done. simpl.
    rewrite decide_False; last first.
    { destruct pages; [by apply elem_of_nil in Hin|done]. }
    rewrite (placeRect_unique rect pages page) by done. simpl.
    eexists. split; [done|]. split; [done|]. split.
    + unfold highlightLayer. simpl. rewrite bool_decide_eq_true_2 by done.
      simpl. done.
    + intros Hlayout.
      pose proof (asStoredRect_within _ _ (normalize_within rect box Hlayout)) as E.
      unfold asStored, asStoredPage.
      cbn [Highlight.pages HighlightPage.rects HighlightPage.page Highlight.id
           Highlight.color Highlight.isFlashcard Highlight.text Highlight.createdAt
           Highlight.flashcardGenerated].
      rewrite !fmap_cons. cbn [HighlightPage.rects HighlightPage.page].
      rewrite !fmap_cons. unfold box in E. by rewrite E.
Qed.

Lemma C3_normalize_roundtrip_witness :
  sameRect (denormalize Exact (PageElement.box firstPage)
              (normalizeIn Exact wordRect (PageElement.box firstPage)))
           wordRect
  ∧ asStoredRect (normalize wordRect (PageElement.box firstPage))
    = normalize wordRect (PageElement.box firstPage)
  ∧ nearRect (PageElement.box firstPage)
      (denormalize Doubles (PageElement.box firstPage)
         (normalize wordRect (PageElement.box firstPage)))
      wordRect.
Proof.
  assert (Hround := C3_normalize_roundtrip wordRect [firstPage] firstPage).
  destruct Hround as (_ & Hexact & _ & Hdoubles & _).
  - reflexivity.
  - reflexivity.
  - left.
  - reflexivity.
  - intros page' Hpage' _. by apply list_elem_of_singleton in Hpage'.
  - discriminate.
  - discriminate.
  - split; [exact Hexact|].
    destruct Hdoubles as (Hstored & Hnear & _).
    + by vm_compute.
    + split; [exact Hstored|exact Hnear].
Defined.

(** C3, as stated, fails for a page box without extent: the rectangle is
    kept and its centre lies in the only page box; the stored coordinates
    are not finite, the file holds null in their place, the overlay drawn
    from the file lies at 0 percent with a size of 0 percent, and it is not
    the rectangle, not even within tolerance.  Over exact arithmetic the
    quotients do not exist either. *)
Lemma C3_page_box_without_extent :
  keptRect cornerRect = true
  ∧ centerInside cornerRect emptyPage = true
  ∧ (∃ highlight overlay,
       buildHighlightFromSelection "h" 0 cornerSelection [emptyPage] yellow = Some highlight
       ∧ Highlight.pages (asStored highlight)
         = [HighlightPage.mk 0 [HighlightRect.mk Null Null Null Null]]
       ∧ highlightLayer [asStored highlight] emptyPage = [overlay]
       ∧ Overlay.left overlay = Fin 0 ∧ Overlay.width overlay = Fin 0
       ∧ ¬ sameRect (screenRect Doubles (PageElement.box emptyPage) overlay) cornerRect
       ∧ ¬ nearRect (PageElement.box emptyPage)
             (screenRect Doubles (PageElement.box emptyPage) overlay) cornerRect)
  ∧ ¬ sameRect (denormalize Exact (PageElement.box emptyPage)
                  (normalizeIn Exact cornerRect (PageElement.box emptyPage)))
               cornerRect.
Proof.
  split; [reflexivity|]. split; [reflexivity|]. split.
  - eexists _, _. split; [reflexivity|]. split; [reflexivity|].
    split; [reflexivity|]. split; [reflexivity|]. split; [reflexivity|]. split.
    + intros [H _]. vm_compute in H. discriminate.
    + intros [H _]. vm_compute in H. by apply H.
  - intros [H _]. exact H.
Qed.

(** The doubles of the round trip of [wordRect] on [firstPage]: the stored
    height 14 / 800 is drawn at [1.75 + 2^-52] percent, and scaled back it is
    [14 + 2^-49]; the left edge comes back as it was. *)
Example wordRect_in_doubles :
  let box := PageElement.box firstPage in
  let norm := normalize wordRect box in
  let overlay := overlayOf (Highlight.mk "h" yellow false "a few words" 0 [] None) norm in
  number_is (Overlay.height overlay) ((7 # 4) + pow2 (-52))
  ∧ number_is (screenRect Doubles box overlay).2 (14 + pow2 (-49))
  ∧ number_is (screenRect Doubles box overlay).1.1.1 120.
Proof. by vm_compute. Qed.

(** Outside the range of [layoutRange]: against a page box [2^-1060] wide
    and high the stored width overflows, the file holds null, and the
    overlay drawn from it has no width. *)
Example page_box_too_small :
  let box := DOMRect.mk 0 0 (pow2 (-1060)) (pow2 (-1060)) in
  keptRect cornerRect = true
  ∧ centerInside cornerRect (PageElement.mk box (Some 1)) = true
  ∧ HighlightRect.w (normalize cornerRect box) = NonFinite
  ∧ ¬ nearRect box
        (screenRect Doubles box
           (overlayOf (Highlight.mk "h" yellow false "text" 0 [] None)
                      (asStoredRect (normalize cornerRect box))))
        cornerRect.
Proof.
  split; [reflexivity|]. split; [by vm_compute|]. split; [by vm_compute|].
  intros (_ & _ & H & _). vm_compute in H. by apply H.
Qed.

(** [double] rounds as binary64 does: on the samples, the quotient, the
    product, the difference and the sum of the model are those of the
    binary64 operations. *)
Example double_agrees_with_binary64 :
  forallb (λ operands, agreesWithBinary64 operands.1 operands.2) binary64Samples = true.
Proof. by vm_compute. Qed.

(** C7. When no kept rectangle of the selection has its centre in a mounted
    page box, no highlight is built, and the click on a colour button leaves
    the plugin -- every stored file with it -- as it was and shows a
    notice. *)
Theorem C7_no_page_no_capture (id : string) (now : Date) (leaf : PdfLeaf.t)
    (p : Plugin.t) (color : HighlightColor) (selection : Selection.t)
    (pages : list PageElement.t) :
  PdfLeaf.selection leaf = Some selection →
  PdfLeaf.pdfViewer leaf = Some pages →
  (∀ rect page,
      rect ∈ Selection.clientRects selection → keptRect rect = true →
      page ∈ pages → centerInside rect page = false) →
  buildHighlightFromSelection id now selection pages color = None
  ∧ ∃ notice, captureClick id now leaf p color = Ok (p, Some notice).
Proof.
  intros Hsel Hviewer Hout.
  assert (Hnone : buildHighlightFromSelection id now selection pages color = None).
  { unfold buildHighlightFromSelection.
    do 3 (case_decide; [done|]).
    rewrite placeRect_outside.
    - reflexivity.
    - intros rect page [Hrect Hkept]%list_elem_of_In%filter_In Hpage.
      apply Hout; [by apply list_elem_of_In|done..]. }
  split; [done|].
  unfold captureClick. rewrite Hsel, Hviewer, Hnone.
  destruct (Selection.isCollapsed selection); eauto.
Qed.

Lemma C7_no_page_no_capture_witness :
  buildHighlightFromSelection "h" 0 wordSelection [laterPage] yellow = None
  ∧ ∃ notice, captureClick "h" 0 pdfLeaf freshPlugin yellow = Ok (freshPlugin, Some notice).
Proof.
  apply (C7_no_page_no_capture "h" 0 pdfLeaf freshPlugin yellow wordSelection [laterPage]).
  - reflexivity.
  - reflexivity.
  - intros rect page Hrect _ Hpage.
    apply list_elem_of_singleton in Hrect. apply list_elem_of_singleton in Hpage.
    subst. reflexivity.
Defined.

Section Documents.

Lemma ensureStorageFolder_false p : ensureStorageFolder p false = p.
Proof. unfold ensureStorageFolder. by rewrite andb_false_r. Qed.

Lemma readJson_missing {Text T} (pa : T → Text → Result T) a path fallback :
  Adapter.files a !! path = None → readJson pa a path fallback = Ok fallback.
Proof. intros H. by rewrite readJson_files, H. Qed.

Lemma readJson_unparsable {Text T} (pa : T → Text → Result T) a path fallback raw :
  Adapter.files a !! path = Some raw → pa fallback raw = Throw →
  readJson pa a path fallback = Ok fallback.
Proof. intros H Hraw. by rewrite readJson_files, H, Hraw. Qed.

End Documents.

(** C6. [readJson] always completes with a document, for every text stored
    under the path and every way that text parses; when there is no file, or
    reading or parsing it throws, the document is the fallback it was
    given.  So a missing or unparsable file gives no highlights, no cards and
    no progress entries, and on the raw text of a file the fallback value
    itself. *)
Theorem C6_read_never_throws :
  (∀ (Text T : Type) (parse_assign : T → Text → Result T)
     (adapter : Adapter.t Text) (path : string) (fallback : T),
      (∃ v, readJson parse_assign adapter path fallback = Ok v)
      ∧ (Adapter.files adapter !! path = None →
         readJson parse_assign adapter path fallback = Ok fallback)
      ∧ (∀ raw, Adapter.files adapter !! path = Some raw →
                parse_assign fallback raw = Throw →
                readJson parse_assign adapter path fallback = Ok fallback))
  ∧ (∀ (p : Plugin.t) (sourcePath : string),
      let unusable path :=
        Adapter.files (Plugin.adapter p) !! path = None
        ∨ Adapter.files (Plugin.adapter p) !! path = Some Unparsable in
      (∃ r, loadHighlights p sourcePath = Ok r)
      ∧ (∃ r, loadAllCards p = Ok r)
      ∧ (∃ r, loadProgress p = Ok r)
      ∧ (unusable (highlightPathFor p sourcePath) →
         loadHighlights p sourcePath = Ok (p, []))
      ∧ (unusable (flashcardPath p) → loadAllCards p = Ok (p, []))
      ∧ (unusable (progressPath p) → Plugin.progressCache p = None →
         loadProgress p = Ok (Plugin.with_progressCache p (Some emptyProgressFile), ∅)))
  ∧ (∀ (adapter : Adapter.t string) (path : string) (fallback : json),
      (∃ v, readJsonText adapter path fallback = Ok v)
      ∧ (Adapter.files adapter !! path = None
         ∨ (∃ raw, Adapter.files adapter !! path = Some raw ∧ JSON.parse raw = Throw) →
         readJsonText adapter path fallback = Ok fallback)).
Proof.
  split; [|split].
  - intros Text T pa adapter path fallback. split; [apply readJson_Ok|].
    split; [apply readJson_missing|]. intros raw. apply readJson_unparsable.
  - intros p sourcePath unusable.
    assert (Hread : ∀ T (pa : T → FileText → Result T) path fallback,
              pa fallback Unparsable = Throw → unusable path →
              readJson pa (Plugin.adapter p) path fallback = Ok fallback).
    { intros T pa path fallback Hpa [H|H].
      - by apply readJson_missing.
      - by apply (readJson_unparsable _ _ _ _ Unparsable). }
    unfold loadHighlights, loadAllCards, loadProgress, cachedProgress.
    rewrite !ensureStorageFolder_false.
    repeat split.
    + destruct (readJson_Ok assignHighlightFile (Plugin.adapter p)
                  (highlightPathFor p sourcePath) (emptyHighlightFile sourcePath))
        as [v ->]. by eexists.
    + destruct (readJson_Ok assignFlashcardFile (Plugin.adapter p)
                  (flashcardPath p) emptyFlashcardFile) as [v ->]. by eexists.
    + destruct (Plugin.progressCache p); [by eexists|].
      destruct (readJson_Ok assignProgressFile (Plugin.adapter p)
                  (progressPath p) emptyProgressFile) as [v ->]. by eexists.
    + intros H. by rewrite Hread.
    + intros H. by rewrite Hread.
    + intros H ->. by rewrite Hread.
  - intros adapter path fallback. split; [apply readJson_Ok|].
    intros [H|(raw & H & Hraw)].
    + by apply readJson_missing.
    + apply (readJson_unparsable _ _ _ _ raw); [done|]. by rewrite Hraw.
Qed.

Section Responses.

Lemma mapM_Result_Forall2 {A B} (f : A → Result B) (l : list A) (k : list B) :
  mapM f l = Ok k ↔ Forall2 (λ x y, f x = Ok y) l k.
Proof.
  revert k. induction l as [|x l IH]; intros k; simpl.
  - split; [intros [= <-]; constructor | by inversion 1].
  - destruct (f x) as [y|] eqn:Hx; simpl.
    + destruct (mapM f l) as [k'|] eqn:Hl; simpl.
      * split.
        -- intros [= <-]. constructor; [done|]. by apply IH.
        -- inversion 1 as [|? y' ? k'' Hy Hk]; subst.
           apply IH in Hk. change (Ok (y :: k') = Ok (y' :: k'')). congruence.
      * split; [done|]. inversion 1 as [|? y' ? k'' Hy Hk]; subst.
        apply IH in Hk. done.
    + split; [done|]. inversion 1; congruence.
Qed.

Lemma mapM_Result_Throw {A B} (f : A → Result B) (l : list A) (x : A) :
  x ∈ l → f x = Throw → mapM f l = Throw.
Proof.
  induction l as [|y l IH]; [by intros ?%elem_of_nil|].
  intros [->|Hin]%elem_of_cons Hx; simpl.
  - by rewrite Hx.
  - rewrite IH by done. by destruct (f y).
Qed.

Lemma mapM_Result_Ok {A B} (f : A → Result B) (l : list A) :
  (∀ x, x ∈ l → ∃ y, f x = Ok y) → ∃ k, mapM f l = Ok k.
Proof.
  induction l as [|x l IH]; intros H; simpl; [by eexists|].
  destruct (H x) as [y ->]; [left|]. destruct IH as [k ->].
  - intros z Hz. apply H. by right.
  - by eexists.
Qed.

Lemma truthy_spec (v : option json) :
  truthy v = true ↔ ∃ w, v = Some w ∧ ¬ falsy w.
Proof.
  unfold falsy. split.
  - intros H. destruct v as [w|]; [|done]. exists w. split; [done|].
    intros [->|[->|[->|(q & -> & Hq)]]]; try done.
    simpl in H. apply Qeq_bool_iff in Hq. by rewrite Hq in H.
  - intros (w & -> & Hw).
    destruct w as [| [|] | q | s | items | props]; simpl; try done.
    + destruct Hw. auto.
    + destruct Hw. auto.
    + apply negb_true_iff. destruct (Qeq_bool q 0) eqn:E; [|done].
      apply Qeq_bool_iff in E. destruct Hw. eauto 6.
    + apply bool_decide_eq_true. intros ->. destruct Hw. auto.
Qed.

End Responses.

Example parse_usable_response :
  parseFlashcards usableResponse = Ok [QA.mk "Q" "A"].
Proof. vm_compute. reflexivity. Qed.

(** C8 (as the code has it). Parsing a response always completes with a
    list.  Text that does not parse, or parses to something other than an
    array, gives the empty list.  Of an array, the items kept are those whose
    question and answer are both present and truthy (not null, false, zero
    or the empty string), in order, each as the pair of the two fields
    converted to strings; should a conversion throw, the list is empty. *)
Theorem C8_parseFlashcards (raw : string) :
  (∃ cards, parseFlashcards raw = Ok cards)
  ∧ (JSON.parse raw = Throw → parseFlashcards raw = Ok [])
  ∧ (∀ v, JSON.parse raw = Ok v → (∀ items, v ≠ JArray items) →
          parseFlashcards raw = Ok [])
  ∧ (∀ items, JSON.parse raw = Ok (JArray items) →
      ((∀ item, item ∈ items → usableItem item = true → ∃ card, cardOfItem item = Ok card) →
       ∃ cards, parseFlashcards raw = Ok cards
                ∧ Forall2 (λ item card,
                     String_ (default JNull (getProperty item "question"))
                       = Ok (QA.question card)
                     ∧ String_ (default JNull (getProperty item "answer"))
                       = Ok (QA.answer card))
                   (List.filter usableItem items) cards)
      ∧ ((∃ item, item ∈ items ∧ usableItem item = true ∧ cardOfItem item = Throw) →
         parseFlashcards raw = Ok []))
  ∧ (∀ item, usableItem item = true
             ↔ (∃ question, getProperty item "question" = Some question
                            ∧ ¬ falsy question)
               ∧ (∃ answer, getProperty item "answer" = Some answer
                            ∧ ¬ falsy answer)).
Proof.
  unfold parseFlashcards.
  split; [|split; [|split; [|split]]].
  - destruct (JSON.parse raw) as [v|]; simpl; [|by eexists].
    destruct v; try (by eexists).
    destruct (mapM cardOfItem (List.filter usableItem items)); by eexists.
  - by intros ->.
  - intros v -> Hv. simpl. destruct v; try done. by destruct (Hv items).
  - intros items ->. simpl. split.
    + intros Hconv.
      destruct (mapM_Result_Ok cardOfItem (List.filter usableItem items)) as [cards Hcards].
      { intros item [Hin Huse]%list_elem_of_In%filter_In.
        apply Hconv; [by apply list_elem_of_In|done]. }
      rewrite Hcards. exists cards. split; [done|].
      apply mapM_Result_Forall2 in Hcards.
      eapply Forall2_impl; [exact Hcards|].
      intros item card. unfold cardOfItem.
      destruct (String_ (default JNull (getProperty item "question"))); [|done].
      destruct (String_ (default JNull (getProperty item "answer"))); [|done].
      simpl. by intros [= <-].
    + intros (item & Hin & Huse & Hthrow).
      rewrite (mapM_Result_Throw cardOfItem _ item); [done| |done].
      apply list_elem_of_In, filter_In. split; [by apply list_elem_of_In|done].
  - intros item. unfold usableItem. rewrite andb_true_iff, !truthy_spec. done.
Qed.

Lemma C8_parseFlashcards_witness :
  parseFlashcards "not json" = Ok [].
Proof.
  apply (proj1 (proj2 (C8_parseFlashcards "not json"))). reflexivity.
Defined.

(** C8, as stated, fails: an item that has both fields, the question being
    the empty string, is dropped. *)
Lemma C8_empty_question_dropped :
  JSON.parse emptyQuestionResponse = Ok (JArray [emptyQuestionItem])
  ∧ getProperty emptyQuestionItem "question" = Some (JString "")
  ∧ getProperty emptyQuestionItem "answer" = Some (JString "A")
  ∧ parseFlashcards emptyQuestionResponse = Ok [].
Proof. repeat split; vm_compute; reflexivity. Qed.

Lemma C6_read_never_throws_witness :
  readJsonText brokenAdapter ".flashcards/progress.json" progressFallback
  = Ok progressFallback.
Proof.
  apply (proj2 (proj2 C6_read_never_throws)). right.
  exists "{ not json". split; reflexivity.
Defined.

Section Annotations.

Lemma Map_get_push {K V} `{EqDecision K} (m : list (K * list V)) (key k : K) (v : V) :
  Map_get (Map_push m key v) k
  = if decide (key = k) then Some (default [] (Map_get m k) ++ [v]) else Map_get m k.
Proof.
  induction m as [|[k' vs] m IH]; simpl.
  - repeat case_decide; done.
  - destruct (decide (k' = key)) as [->|Hne]; simpl.
    + repeat case_decide; done.
    + rewrite IH. repeat case_decide; congruence.
Qed.

(** The array the [Map] holds under a colour is the list of the highlights
    of that colour, in their order, and there is none when there is no such
    highlight. *)
Lemma groups_get (highlights : list Highlight.t) (color : HighlightColor) :
  Map_get (fold_left (λ groups highlight,
                        Map_push groups (Highlight.color highlight) highlight)
                     highlights []) color
  = match filter (λ h, Highlight.color h = color) highlights with
    | [] => None
    | group => Some group
    end.
Proof.
  induction highlights as [|h highlights IH] using rev_ind; [done|].
  rewrite fold_left_app, filter_app. simpl. rewrite Map_get_push, IH.
  rewrite filter_cons, filter_nil.
  destruct (filter _ highlights) as [|g group]; repeat case_decide; try done.
  by rewrite app_nil_r.
Qed.

Lemma push_bullets (group : list Highlight.t) (lines : list string) :
  fold_left (λ lines highlight, lines ++ [bullet highlight]) group lines
  = lines ++ (bullet <$> group).
Proof.
  revert lines. induction group as [|h group IH]; intros lines; simpl.
  - by rewrite app_nil_r.
  - rewrite IH, <- app_assoc. done.
Qed.

Lemma buildAnnotationMarkdown_lines file (highlights : list Highlight.t) :
  highlights ≠ [] →
  buildAnnotationMarkdown file highlights
  = trimEnd (String.concat newline (groupLines highlights)) +:+ newline.
Proof.
  intros Hne. unfold buildAnnotationMarkdown.
  rewrite decide_False by (by destruct highlights).
  do 3 f_equal. unfold groupLines, colorOrder. simpl.
  rewrite !groups_get.
  repeat match goal with
         | |- context [filter ?P highlights] =>
             destruct (filter P highlights) as [|? ?]
         end;
    simpl; rewrite ?push_bullets; simpl;
    rewrite ?app_nil_r, <- ?app_assoc; simpl; reflexivity.
Qed.

Lemma Set_from_fold (values seen : list Z) :
  NoDup seen →
  let result := fold_left (λ seen v, if decide (v ∈ seen) then seen else seen ++ [v])
                          values seen in
  NoDup result ∧ ∀ v, v ∈ result ↔ v ∈ seen ∨ v ∈ values.
Proof.
  revert seen. induction values as [|x values IH]; intros seen Hseen; simpl.
  - split; [done|]. intros v. rewrite elem_of_nil. tauto.
  - destruct (decide (x ∈ seen)) as [Hx|Hx].
    + destruct (IH seen Hseen) as [Hnd Hin]. split; [done|].
      intros v. rewrite Hin, elem_of_cons. split; [tauto|].
      intros [?|[->|?]]; tauto.
    + destruct (IH (seen ++ [x])) as [Hnd Hin].
      { apply NoDup_app. split; [done|]. split; [|apply NoDup_singleton].
        intros y Hy ->%list_elem_of_singleton. done. }
      split; [done|]. intros v.
      rewrite Hin, elem_of_app, list_elem_of_singleton, elem_of_cons. tauto.
Qed.

Lemma Set_from_NoDup values : NoDup (Set_from values).
Proof. apply (Set_from_fold values []). constructor. Qed.

Lemma Set_from_elem values v : v ∈ Set_from values ↔ v ∈ values.
Proof.
  destruct (Set_from_fold values []) as [_ H]; [constructor|].
  unfold Set_from. rewrite H, elem_of_nil. tauto.
Qed.

Lemma strictly_sorted (l : list Z) :
  Sorted Z.le l → NoDup l → StronglySorted Z.lt l.
Proof.
  intros Hs%Sorted_StronglySorted Hnd; [|apply _].
  induction Hs as [|x l Hs IH Hall]; [constructor|].
  apply NoDup_cons in Hnd as [Hx Hnd]. constructor; [by apply IH|].
  rewrite Forall_forall in *. intros y Hy.
  assert (x ≠ y) by (intros ->; done). specialize (Hall y Hy). lia.
Qed.

Lemma pageList_sorted highlight : StronglySorted Z.lt (pageList highlight).
Proof.
  unfold pageList. apply strictly_sorted.
  - apply Sorted_merge_sort. apply _.
  - rewrite merge_sort_Permutation. apply Set_from_NoDup.
Qed.

Lemma pageList_elem highlight n :
  n ∈ pageList highlight
  ↔ ∃ pg, pg ∈ Highlight.pages highlight ∧ n = HighlightPage.page pg + 1.
Proof.
  unfold pageList. rewrite merge_sort_Permutation, Set_from_elem, list_elem_of_fmap.
  split; intros (pg & ? & ?); eauto.
Qed.

Lemma pageList_nil highlight :
  pageList highlight = [] ↔ Highlight.pages highlight = [].
Proof.
  split.
  - intros H. destruct (Highlight.pages highlight) as [|pg pages] eqn:E; [done|].
    assert (HighlightPage.page pg + 1 ∈ pageList highlight) as Hin.
    { apply pageList_elem. exists pg. rewrite E. split; [left|done]. }
    rewrite H in Hin. by apply elem_of_nil in Hin.
  - intros H. unfold pageList. by rewrite H.
Qed.

Lemma replaceSpaces_word b c rest :
  isSpace c = false →
  replaceSpaces b (String c rest) = String c (replaceSpaces false rest).
Proof. intros H. simpl. by rewrite H. Qed.

Lemma trimStart_replaceSpaces_true s :
  trimStart (replaceSpaces true s) = replaceSpaces true s.
Proof.
  induction s as [|c s IH]; [done|]. simpl.
  destruct (isSpace c) eqn:Hc; [done|]. simpl. by rewrite Hc.
Qed.

Lemma trimStart_replaceSpaces_false s :
  trimStart (replaceSpaces false s) = replaceSpaces true s.
Proof.
  destruct s as [|c s]; [done|]. simpl.
  destruct (isSpace c) eqn:Hc; simpl.
  - apply trimStart_replaceSpaces_true.
  - by rewrite Hc.
Qed.

Lemma words_not_empty s w ws : words s = w :: ws → w ≠ "".
Proof.
  revert w ws. induction s as [|c s IH]; intros w ws; [done|]. simpl.
  destruct (isSpace c); [apply IH|].
  destruct (startsWithSpace s); [by intros [= <- _]|].
  destruct (words s); by intros [= <- _].
Qed.

Lemma concat_words_not_empty s :
  words s ≠ [] → String.concat " " (words s) ≠ "".
Proof.
  destruct (words s) as [|w ws] eqn:E; [done|]. intros _.
  apply words_not_empty in E. destruct w as [|c w]; [done|].
  simpl. by destruct ws.
Qed.

(** Whitespace runs replaced by one space, then trimmed at the end: the
    words joined by single spaces, after a space when the text started with
    whitespace and that space was kept. *)
Lemma trimEnd_replaceSpaces b s :
  trimEnd (replaceSpaces b s)
  = if negb b && startsWithSpace s && bool_decide (words s ≠ [])
    then String " " (String.concat " " (words s))
    else String.concat " " (words s).
Proof.
  revert b. induction s as [|c s IH]; intros b.
  - simpl. rewrite andb_false_r. done.
  - simpl. destruct (isSpace c) eqn:Hc.
    + destruct b; simpl.
      * rewrite IH. done.
      * rewrite IH. simpl.
        destruct (decide (words s = [])) as [E|E].
        -- rewrite E. done.
        -- rewrite bool_decide_eq_false_2, bool_decide_eq_true_2;
             [done|done|by apply concat_words_not_empty].
    + simpl. rewrite Hc, IH. simpl. rewrite andb_false_r.
      destruct (startsWithSpace s), (words s) as [|w ws]; simpl; try done.
      by destruct ws.
Qed.

(** [text.replace(/\s+/g, " ").trim()] is the words of the text joined by
    single spaces. *)
Lemma trim_replaceSpaces s :
  trim (replaceSpaces false s) = String.concat " " (words s).
Proof.
  unfold trim. rewrite trimStart_replaceSpaces_false, trimEnd_replaceSpaces. done.
Qed.

End Annotations.

Example export_of_the_paper :
  buildAnnotationMarkdown paper paperHighlights
  = "## Flashcard
- what to remember (pages 5)
- already a card (pages 6)

## Yellow
- a first remark (pages 1, 3)
".
Proof. vm_compute. reflexivity. Qed.

(** C9. The export of no highlights is the single marker.  The export of a
    non-empty list is made of the lines of the colours flashcard, yellow,
    green, blue, in this order: for a colour that has highlights a heading,
    one bullet for each of them in their order, and an empty line.  A bullet
    is the words of the text joined by single spaces, followed, when the
    highlight has page entries, by its page numbers counted from 1, in
    increasing order and each once.  The text does not depend on the file it
    is exported for, and exporting again leaves the exported note, and the
    whole plugin, as the first export left them. *)
Theorem C9_annotation_export :
  (∀ file, buildAnnotationMarkdown file [] = "_No annotations found._")
  ∧ (∀ file highlights,
       highlights ≠ [] →
       buildAnnotationMarkdown file highlights
       = trimEnd (String.concat newline (groupLines highlights)) +:+ newline)
  ∧ (∀ highlight,
       bullet highlight
       = "- " +:+ String.concat " " (words (Highlight.text highlight))
           +:+ match Highlight.pages highlight with
               | [] => ""
               | _ => " (pages "
                      +:+ String.concat ", " (pretty <$> pageList highlight) +:+ ")"
               end
       ∧ StronglySorted Z.lt (pageList highlight)
       ∧ ∀ n, n ∈ pageList highlight
              ↔ ∃ pg, pg ∈ Highlight.pages highlight ∧ n = HighlightPage.page pg + 1)
  ∧ (∀ file file' highlights,
       buildAnnotationMarkdown file highlights = buildAnnotationMarkdown file' highlights)
  ∧ (∀ p file,
       ∃ highlights p1,
         loadHighlights p (TFile.path file) = Ok (p, highlights)
         ∧ exportAnnotationsFromActivePdf p (Some file) = Ok p1
         ∧ Plugin.notes p1 !! getAnnotationMarkdownPath file
           = Some (buildAnnotationMarkdown file highlights)
         ∧ exportAnnotationsFromActivePdf p1 (Some file) = Ok p1).
Proof.
  split; [done|]. split; [apply buildAnnotationMarkdown_lines|].
  split; [|split; [done|]].
  - intros highlight. split; [|split].
    + unfold bullet. rewrite trim_replaceSpaces.
      destruct (Highlight.pages highlight) as [|pg pages] eqn:E.
      * rewrite (proj2 (pageList_nil highlight) E). done.
      * rewrite decide_False; [done|].
        intros Hlen. apply length_zero_iff_nil, pageList_nil in Hlen. congruence.
    + apply pageList_sorted.
    + apply pageList_elem.
  - intros p file.
    destruct (readJson_Ok assignHighlightFile (Plugin.adapter p)
                (highlightPathFor p (TFile.path file))
                (emptyHighlightFile (TFile.path file))) as [data Hdata].
    set (content := buildAnnotationMarkdown file (HighlightFile.highlights data)).
    assert (Hload : ∀ notes,
              loadHighlights (Plugin.with_notes p notes) (TFile.path file)
              = Ok (Plugin.with_notes p notes, HighlightFile.highlights data)).
    { intros notes. unfold loadHighlights. rewrite ensureStorageFolder_false.
      change (readJson assignHighlightFile (Plugin.adapter p)
                (highlightPathFor p (TFile.path file))
                (emptyHighlightFile (TFile.path file))
              ≫= (λ data, Ok (Plugin.with_notes p notes, HighlightFile.highlights data))
              = Ok (Plugin.with_notes p notes, HighlightFile.highlights data)).
      by rewrite Hdata. }
    assert (Hexport : ∀ notes,
              exportAnnotationsFromActivePdf (Plugin.with_notes p notes) (Some file)
              = Ok (Plugin.with_notes p
                      (<[getAnnotationMarkdownPath file := content]> notes))).
    { intros notes. unfold exportAnnotationsFromActivePdf. by rewrite Hload. }
    assert (Heta : Plugin.with_notes p (Plugin.notes p) = p) by (by destruct p).
    exists (HighlightFile.highlights data),
           (Plugin.with_notes p
              (<[getAnnotationMarkdownPath file := content]> (Plugin.notes p))).
    split; [by specialize (Hload (Plugin.notes p)); rewrite Heta in Hload|].
    split; [by specialize (Hexport (Plugin.notes p)); rewrite Heta in Hexport|].
    split; [apply lookup_insert_eq|].
    by rewrite Hexport, insert_insert_eq.
Qed.

Lemma C9_annotation_export_witness :
  buildAnnotationMarkdown paper paperHighlights
  = trimEnd (String.concat newline (groupLines paperHighlights)) +:+ newline.
Proof.
  apply (proj1 (proj2 C9_annotation_export) paper paperHighlights). discriminate.
Defined.

Section Generation.

Example hashString_of_a_letter : hashString "a" = "e40c292c".
Proof. vm_compute. reflexivity. Qed.


Lemma writeJson_settings p path data :
  Plugin.settings (writeJson p path data) = Plugin.settings p.
Proof. reflexivity. Qed.

Lemma writeJson_files p path data :
  Adapter.files (Plugin.adapter (writeJson p path data))
  = <[path := data]> (Adapter.files (Plugin.adapter p)).
Proof. reflexivity. Qed.

Lemma highlightPath_ne_flashcardPath p q sourcePath :
  Plugin.settings p = Plugin.settings q →
  highlightPathFor p sourcePath ≠ flashcardPath q.
Proof.
  unfold highlightPathFor, flashcardPath. intros -> H.
  apply string_app_inj_l in H.
  cbv beta iota fix delta [String.append] in H. discriminate.
Qed.

Lemma loadAllCards_eq p data :
  readJson assignFlashcardFile (Plugin.adapter p) (flashcardPath p) emptyFlashcardFile
  = Ok data →
  loadAllCards p = Ok (p, FlashcardFile.cards data).
Proof.
  intros H. unfold loadAllCards. rewrite ensureStorageFolder_false, H. done.
Qed.

Lemma addCards_eq p newCards data :
  readJson assignFlashcardFile (Plugin.adapter p) (flashcardPath p) emptyFlashcardFile
  = Ok data →
  addCards p newCards
  = Ok (writeJson (ensureStorageFolder p true) (flashcardPath p)
          (FlashcardJson (FlashcardFile.mk (FlashcardFile.version data)
                            (FlashcardFile.cards data ++ newCards)))).
Proof.
  intros H. unfold addCards.
  assert (flashcardPath (ensureStorageFolder p true) = flashcardPath p) as ->.
  { unfold flashcardPath. by rewrite ensureStorageFolder_settings. }
  rewrite readJson_files, ensureStorageFolder_files, <- readJson_files, H. done.
Qed.

Lemma markHighlightsGenerated_eq p sourcePath highlightIds :
  ∃ existing,
    markHighlightsGenerated p sourcePath highlightIds
    = Ok (writeJson (ensureStorageFolder p true) (highlightPathFor p sourcePath)
            (HighlightJson existing)).
Proof.
  unfold markHighlightsGenerated.
  assert (highlightPathFor (ensureStorageFolder p true) sourcePath
          = highlightPathFor p sourcePath) as ->.
  { unfold highlightPathFor. by rewrite ensureStorageFolder_settings. }
  destruct (readJson_Ok assignHighlightFile
              (Plugin.adapter (ensureStorageFolder p true))
              (highlightPathFor p sourcePath) (emptyHighlightFile sourcePath))
    as [existing ->].
  result_bind. eauto.
Qed.

(** The highlights of a document and the stored cards can always be read,
    and reading them leaves the plugin as it is. *)
Lemma loads_total p sourcePath :
  ∃ highlights old,
    loadHighlights p sourcePath = Ok (p, highlights)
    ∧ loadAllCards p = Ok (p, old).
Proof.
  unfold loadHighlights, loadAllCards. rewrite !ensureStorageFolder_false.
  destruct (readJson_Ok assignHighlightFile (Plugin.adapter p)
              (highlightPathFor p sourcePath) (emptyHighlightFile sourcePath))
    as [data ->].
  destruct (readJson_Ok assignFlashcardFile (Plugin.adapter p) (flashcardPath p)
              emptyFlashcardFile) as [cards ->].
  by eexists _, _.
Qed.

(** The cards of a run all carry the ids of the whole batch. *)
Lemma newCardsOf_highlightIds freshId now file flashcardHighlights cards :
  Forall (λ card, Flashcard.highlightIds card = Highlight.id <$> flashcardHighlights)
         (newCardsOf freshId now file flashcardHighlights cards).
Proof.
  unfold newCardsOf. revert freshId.
  induction cards as [|card cards IH]; intros freshId; simpl; constructor; [done|].
  apply (IH (freshId ∘ S)).
Qed.

(** A run that reaches the model with pending highlights and gets cards
    back appends exactly the new cards to the stored ones. *)
Lemma generate_appends callOpenAI freshId now p file highlights response cards old :
  PluginSettings.apiKey (Plugin.settings p) ≠ "" →
  loadHighlights p (TFile.path file) = Ok (p, highlights) →
  List.filter pendingHighlight highlights ≠ [] →
  callOpenAI systemPrompt (userPrompt (List.filter pendingHighlight highlights))
  = Ok response →
  parseFlashcards response = Ok cards →
  cards ≠ [] →
  loadAllCards p = Ok (p, old) →
  ∃ p',
    generateFlashcardsFromActivePdf callOpenAI freshId now p (Some file)
    = Ok (p', "Generated " +:+ pretty (length cards) +:+ " flashcards.")
    ∧ loadAllCards p'
      = Ok (p', old ++ newCardsOf freshId now file
                         (List.filter pendingHighlight highlights) cards).
Proof.
  intros Hkey Hload Hpending Hcall Hparse Hcards Hold.
  unfold generateFlashcardsFromActivePdf.
  rewrite decide_False by done. rewrite Hload. result_bind.
  rewrite decide_False by (by destruct (List.filter pendingHighlight highlights)).
  rewrite Hcall, Hparse. rewrite decide_False by (by destruct cards).
  destruct (readJson_Ok assignFlashcardFile (Plugin.adapter p) (flashcardPath p)
              emptyFlashcardFile) as [data Hdata].
  rewrite (loadAllCards_eq _ _ Hdata) in Hold. injection Hold as <-.
  rewrite (addCards_eq _ _ _ Hdata).
  destruct (markHighlightsGenerated_eq
              (writeJson (ensureStorageFolder p true) (flashcardPath p)
                 (FlashcardJson
                    (FlashcardFile.mk (FlashcardFile.version data)
                       (FlashcardFile.cards data
                        ++ newCardsOf freshId now file
                             (List.filter pendingHighlight highlights) cards))))
              (TFile.path file)
              (Highlight.id <$> List.filter pendingHighlight highlights))
    as [existing ->].
  eexists. split.
  { do 3 f_equal. unfold newCardsOf. by rewrite length_imap. }
  set (p1 := writeJson (ensureStorageFolder p true) (flashcardPath p) _).
  set (p2 := writeJson (ensureStorageFolder p1 true) _ _).
  assert (Hsettings1 : Plugin.settings p1 = Plugin.settings p).
  { unfold p1. by rewrite writeJson_settings, ensureStorageFolder_settings. }
  assert (Hsettings2 : Plugin.settings p2 = Plugin.settings p).
  { unfold p2. by rewrite writeJson_settings, ensureStorageFolder_settings. }
  apply (loadAllCards_eq p2
           (FlashcardFile.mk (FlashcardFile.version data)
              (FlashcardFile.cards data
               ++ newCardsOf freshId now file
                    (List.filter pendingHighlight highlights) cards))).
  rewrite readJson_files.
  assert (flashcardPath p2 = flashcardPath p) as ->.
  { unfold flashcardPath. by rewrite Hsettings2. }
  unfold p2. rewrite writeJson_files, lookup_insert_ne, ensureStorageFolder_files.
  - unfold p1. by rewrite writeJson_files, lookup_insert_eq.
  - by apply highlightPath_ne_flashcardPath.
Qed.

End Generation.

(** C10. In a run of the generation on a document whose highlights and
    stored cards were read at its start, the cards the run adds to the
    stored ones all carry the same list of highlight ids: the ids of every
    highlight of the document that is a flashcard highlight and not yet
    marked as generated.  A run that gets cards back from the model adds one
    card for each of them. *)
Theorem C10_cards_reference_whole_batch
    (callOpenAI : string → string → Result string) (freshId : nat → string)
    (now : Date) (p : Plugin.t) (file : TFile.t)
    (highlights : list Highlight.t) (old : list Flashcard.t) :
  loadHighlights p (TFile.path file) = Ok (p, highlights) →
  loadAllCards p = Ok (p, old) →
  let pending := List.filter pendingHighlight highlights in
  (∃ p' notice new,
      generateFlashcardsFromActivePdf callOpenAI freshId now p (Some file)
      = Ok (p', notice)
      ∧ loadAllCards p' = Ok (p', old ++ new)
      ∧ Forall (λ card, Flashcard.highlightIds card = Highlight.id <$> pending) new)
  ∧ (∀ response cards,
      PluginSettings.apiKey (Plugin.settings p) ≠ "" →
      pending ≠ [] →
      callOpenAI systemPrompt (userPrompt pending) = Ok response →
      parseFlashcards response = Ok cards →
      cards ≠ [] →
      ∃ p',
        generateFlashcardsFromActivePdf callOpenAI freshId now p (Some file)
        = Ok (p', "Generated " +:+ pretty (length cards) +:+ " flashcards.")
        ∧ loadAllCards p' = Ok (p', old ++ newCardsOf freshId now file pending cards)).
Proof.
  intros Hload Hold pending.
  assert (Hsame : ∀ notice : string,
            ∃ p' notice' new,
              @Ok (Plugin.t * string) (p, notice) = Ok (p', notice')
              ∧ loadAllCards p' = Ok (p', old ++ new)
              ∧ Forall (λ card, Flashcard.highlightIds card = Highlight.id <$> pending)
                       new).
  { intros notice. exists p, notice, []. rewrite app_nil_r. by repeat split. }
  split.
  - unfold generateFlashcardsFromActivePdf.
    case_decide as Hkey; [apply Hsame|].
    rewrite Hload. result_bind. fold pending.
    case_decide as Hpending; [apply Hsame|].
    destruct (callOpenAI systemPrompt (userPrompt pending)) as [response|] eqn:Hcall;
      [|apply Hsame].
    destruct (parseFlashcards response) as [cards|] eqn:Hparse; [|apply Hsame].
    case_decide as Hcards; [apply Hsame|].
    destruct (generate_appends callOpenAI freshId now p file highlights response
                cards old) as (p' & Hrun & Hcards');
      try done;
      [by intros E; apply Hpending; unfold pending; rewrite E
      |by intros ->|].
    unfold generateFlashcardsFromActivePdf in Hrun.
    rewrite decide_False in Hrun by done. rewrite Hload in Hrun.
    cbn beta iota zeta delta [mbind Result_bind] in Hrun. fold pending in Hrun.
    rewrite decide_False in Hrun by done. rewrite Hcall, Hparse in Hrun.
    rewrite decide_False in Hrun by done. rewrite Hrun.
    eexists _, _, _. split; [done|]. split; [exact Hcards'|].
    apply newCardsOf_highlightIds.
  - intros response cards Hkey Hpending Hcall Hparse Hcards.
    by apply (generate_appends _ _ _ _ _ highlights response).
Qed.

Lemma C10_cards_reference_whole_batch_witness :
  ∃ p',
    generateFlashcardsFromActivePdf answeringModel numberedId 0 paperPlugin (Some paper)
    = Ok (p', "Generated " +:+ pretty (length [QA.mk "Q" "A"]) +:+ " flashcards.")
    ∧ loadAllCards p'
      = Ok (p', [] ++ newCardsOf numberedId 0 paper
                        (List.filter pendingHighlight paperHighlights)
                        [QA.mk "Q" "A"]).
Proof.
  apply (proj2 (C10_cards_reference_whole_batch answeringModel numberedId 0
                  paperPlugin paper paperHighlights []
                  ltac:(vm_compute; reflexivity) ltac:(vm_compute; reflexivity))
               usableResponse [QA.mk "Q" "A"]).
  - discriminate.
  - discriminate.
  - reflexivity.
  - vm_compute. reflexivity.
  - discriminate.
Defined.

Lemma C5_progress_follows_cards_witness :
  ∃ v' p' p'' after,
    deleteCard managerAB studiedPlugin 0 = Ok (v', p')
    ∧ FlashcardManageView.cards v' = delete 0%nat (FlashcardManageView.cards managerAB)
    ∧ loadProgress p' = Ok (p'', after)
    ∧ after !! Flashcard.id cardA = None.
Proof.
  apply (proj1 C5_progress_follows_cards managerAB studiedPlugin 0%nat cardA).
  reflexivity.
Defined.

(** * Further properties *)

(** X1. A grade stamps the review with the date of the grade and makes the
    card due at the same local time of day a whole number of calendar days
    later: the interval, at least one day, after a good grade, no day after
    a grade of again.  As an instant that is the interval times 24 hours
    after the grade, corrected by the change of the local offset between
    the two; on a host whose offset never changes it is exactly that many
    times 24 hours later.  (Stated for due dates in the range of [Date],
    outside of which [toISOString] throws.) *)
Theorem X1_due_dates (now : Date) (previous : option CardProgress.t) (isGood : bool) :
  let r := buildNextProgress now previous isGood in
  let days := if isGood then CardProgress.intervalDays r else 0 in
  let localDue := LocalTime now (Date.getTime now) + days * msPerDay in
  inDateRange (UTC now localDue) →
  CardProgress.lastReviewedAt r = Some now
  ∧ (if isGood then 1 <= CardProgress.intervalDays r
     else CardProgress.intervalDays r = 0)
  ∧ ∃ due,
      CardProgress.nextDueAt r = Some due
      ∧ LocalTime now (Date.getTime now) + days * msPerDay
        = Date.getTime due + Date.LocalTZA now localDue false
      ∧ Date.getTime due
        = Date.getTime now + days * msPerDay
          + (Date.LocalTZA now (Date.getTime now) true
             - Date.LocalTZA now localDue false)
      ∧ ((∀ t local, Date.LocalTZA now t true = Date.LocalTZA now local false) →
         Date.getTime due = Date.getTime now + days * msPerDay).
Proof.
  intros r days localDue _.
  split; [done|]. split.
  { subst r. destruct isGood; simpl; [lia|done]. }
  exists (setDate_plus now days). split.
  { subst r days. by destruct isGood. }
  assert (Hdue : Date.getTime (setDate_plus now days)
                 = localDue - Date.LocalTZA now localDue false) by done.
  split; [rewrite Hdue; unfold localDue; lia|]. split.
  - rewrite Hdue. unfold localDue, LocalTime. lia.
  - intros Hfixed. pose proof (Hfixed (Date.getTime now) localDue) as E.
    rewrite Hdue. unfold localDue, LocalTime in *. lia.
Qed.

Lemma X1_due_dates_witness :
  ∃ due,
    CardProgress.nextDueAt (buildNextProgress saturdayNoon None true) = Some due
    ∧ Date.getTime due = Date.getTime saturdayNoon + 23 * 3600000.
Proof.
  destruct (X1_due_dates saturdayNoon None true) as (_ & _ & due & Hdue & _ & Htime & _).
  { unfold inDateRange. vm_compute. discriminate. }
  exists due. split; [exact Hdue|]. rewrite Htime. reflexivity.
Defined.

(** X2. Along every run of grades from a missing record, the streak is the
    number of good grades the run ends with, and the interval is the sum
    1 + 2 + ... + streak. *)
Theorem X2_streak_and_interval (grades : list (Date * bool)) :
  streakOf (runGrades grades) = trailingGood grades
  ∧ 2 * intervalOf (runGrades grades)
    = streakOf (runGrades grades) * (streakOf (runGrades grades) + 1).
Proof.
  induction grades as [|g grades [IHs IHi]] using rev_ind; [done|].
  rewrite runGrades_snoc. unfold trailingGood in *. rewrite reverse_snoc.
  pose proof (runGrades_nonneg grades) as [Hs Hi].
  destruct g as [now [|]]; simpl; [|done].
  rewrite <- IHs. clear IHs.
  destruct (runGrades grades) as [p|];
    unfold streakOf, intervalOf in *; simpl in *; split; nia.
Qed.

Section ProgressStore.

Lemma progressPath_writeJson p path data :
  progressPath (writeJson p path data) = progressPath p.
Proof. reflexivity. Qed.

Lemma coherent_cached p data :
  Adapter.files (Plugin.adapter p) !! progressPath p = Some (ProgressJson data) →
  coherent (Plugin.with_progressCache p (Some data)).
Proof. intros H. by exists data. Qed.

Lemma removeProgress_coherent p cardId :
  ∃ p', removeProgress p cardId = Ok p' ∧ coherent p'.
Proof.
  destruct (cachedProgress_Ok p) as [data Hdata].
  rewrite (removeProgress_eq _ _ _ Hdata). eexists. split; [done|].
  apply coherent_cached. rewrite writeJson_files, progressPath_writeJson.
  apply lookup_insert_eq.
Qed.

Lemma replaceAllCards_coherent p cards :
  ∃ p', replaceAllCards p cards = Ok p' ∧ coherent p'.
Proof.
  destruct (cachedProgress_Ok p) as [data Hdata].
  rewrite (replaceAllCards_eq _ _ _ Hdata). eexists. split; [done|].
  apply coherent_cached. rewrite writeJson_files, progressPath_writeJson.
  apply lookup_insert_eq.
Qed.

Lemma resetProgress_coherent p : coherent (resetProgress p).
Proof.
  unfold resetProgress. apply coherent_cached.
  rewrite writeJson_files, progressPath_writeJson. apply lookup_insert_eq.
Qed.

End ProgressStore.

(** X3. A grade is seen at once by the next read of the progress: the
    progress read after [updateProgressOptimistic] is the progress read
    before with the entry of the card replaced by the record the scheduler
    builds from the previous entry; every other entry is as it was. *)
Theorem X3_read_your_writes (now : Date) (p : Plugin.t) (cardId : string)
    (isGood : bool) :
  ∃ p0 before p1 current p2,
    loadProgress p = Ok (p0, before)
    ∧ updateProgressOptimistic now p cardId isGood = Ok (p1, current)
    ∧ current = buildNextProgress now (before !! cardId) isGood
    ∧ loadProgress p1 = Ok (p2, <[cardId := current]> before).
Proof.
  destruct (cachedProgress_Ok p) as [data Hdata].
  set (current := buildNextProgress now (ProgressFile.progress data !! cardId) isGood).
  set (data' := ProgressFile.mk (ProgressFile.version data)
                  (<[cardId := current]> (ProgressFile.progress data))).
  eexists _, _, _, _, _. split; [by apply loadProgress_eq|].
  split; [by apply updateProgressOptimistic_eq|]. split; [done|].
  by apply (loadProgress_eq _ data'), cachedProgress_cached.
Qed.

(** X4. Resetting the progress, removing an entry and replacing the card
    set leave the progress file holding the cached document; and whenever
    it does, a plugin that has lost its cache reads the same progress back
    from the file. *)
Theorem X4_progress_file_follows_cache (p : Plugin.t) :
  coherent (resetProgress p)
  ∧ (∀ cardId, ∃ p', removeProgress p cardId = Ok p' ∧ coherent p')
  ∧ (∀ cards, ∃ p', replaceAllCards p cards = Ok p' ∧ coherent p')
  ∧ (coherent p →
     ∃ p1 p2 progress,
       loadProgress p = Ok (p1, progress)
       ∧ loadProgress (Plugin.with_progressCache p None) = Ok (p2, progress)).
Proof.
  split; [apply resetProgress_coherent|].
  split; [intros; apply removeProgress_coherent|].
  split; [intros; apply replaceAllCards_coherent|].
  intros (data & Hcache & Hfile).
  eexists _, _, _. split.
  - by apply loadProgress_eq, cachedProgress_cached.
  - apply loadProgress_eq. unfold cachedProgress. simpl.
    rewrite readJson_files. unfold progressPath in *. simpl. by rewrite Hfile.
Qed.

Lemma X4_progress_file_follows_cache_witness :
  ∃ p1 p2 progress,
    loadProgress (resetProgress studiedPlugin) = Ok (p1, progress)
    ∧ loadProgress (Plugin.with_progressCache (resetProgress studiedPlugin) None)
      = Ok (p2, progress).
Proof.
  apply (proj2 (proj2 (proj2 (X4_progress_file_follows_cache (resetProgress studiedPlugin))))).
  exists emptyProgressFile. split; reflexivity.
Defined.

Section Grading.

Lemma currentCard_remaining v X : currentCard v = Some X → X ∈ remainingCards v.
Proof.
  unfold currentCard. case_decide; [done|]. apply list_elem_of_lookup_2.
Qed.

Lemma currentCard_not_done v X :
  currentCard v = Some X → isDone (FlashcardView.progress v) X = false.
Proof.
  intros H%currentCard_remaining. unfold remainingCards in H.
  by apply list_elem_of_filter in H as [H _].
Qed.

Lemma isDone_same_id progress c c' :
  Flashcard.id c = Flashcard.id c' → isDone progress c = isDone progress c'.
Proof. unfold isDone. by intros ->. Qed.

(** A grade on the current card of a view in step with the cache: the view
    afterwards. *)
Lemma handleGrade_current now v p isGood X :
  inSync v p → currentCard v = Some X →
  ∃ p1,
    handleGrade now v p isGood
    = Ok (let progress :=
            <[Flashcard.id X :=
                buildNextProgress now (FlashcardView.progress v !! Flashcard.id X) isGood]>
              (FlashcardView.progress v) in
          let v1 := FlashcardView.mk (FlashcardView.cards v) (FlashcardView.index v)
                      (FlashcardView.showingAnswer v) progress in
          let remaining := remainingCards v1 in
          (FlashcardView.mk (FlashcardView.cards v)
             (if decide (0 < length remaining)%nat
              then ((FlashcardView.index v + 1) mod length remaining)%nat else 0%nat)
             false progress, p1)).
Proof.
  intros (data & Hdata%cachedProgress_cached & Hsync) Hcur.
  destruct (handleGrade_eq now v p isGood X data Hcur Hdata) as [p1 Hgrade].
  rewrite Hsync in Hgrade. eauto.
Qed.

End Grading.

(** X5. A grade of again on the current card keeps the list of remaining
    cards as it is and moves on to the next of them, the first one after
    the last; the question side is shown. *)
Theorem X5_again_keeps_the_card (now : Date) (v : FlashcardView.t) (p : Plugin.t)
    (X : Flashcard.t) :
  inSync v p → currentCard v = Some X →
  ∃ v1 p1,
    handleGrade now v p false = Ok (v1, p1)
    ∧ FlashcardView.cards v1 = FlashcardView.cards v
    ∧ remainingCards v1 = remainingCards v
    ∧ FlashcardView.index v1
      = ((FlashcardView.index v + 1) mod length (remainingCards v))%nat
    ∧ FlashcardView.showingAnswer v1 = false
    ∧ inSync v1 p1.
Proof.
  intros Hsync Hcur.
  destruct (handleGrade_current now v p false X Hsync Hcur) as [p1 Hgrade].
  set (progress := <[Flashcard.id X := _]> _) in Hgrade.
  assert (Hrem : ∀ index showing,
    remainingCards (FlashcardView.mk (FlashcardView.cards v) index showing progress)
    = remainingCards v).
  { intros. unfold remainingCards. simpl. apply list_filter_iff. intros c.
    unfold progress. rewrite isDone_insert. case_decide as Hid; [|done].
    rewrite (isDone_same_id _ c X Hid), (currentCard_not_done v X Hcur). done. }
  simpl in Hgrade. rewrite !Hrem in Hgrade.
  assert (0 < length (remainingCards v))%nat.
  { apply currentCard_remaining in Hcur. destruct (remainingCards v); [|simpl; lia].
    by apply elem_of_nil in Hcur. }
  rewrite decide_True in Hgrade by done.
  eexists _, p1. split; [exact Hgrade|].
  split; [done|]. split; [apply Hrem|]. split; [done|]. split; [done|].
  by eapply handleGrade_inSync.
Qed.

Lemma X5_again_keeps_the_card_witness :
  ∃ v1 p1,
    handleGrade 0 sessionABC freshPlugin false = Ok (v1, p1)
    ∧ FlashcardView.cards v1 = FlashcardView.cards sessionABC
    ∧ remainingCards v1 = remainingCards sessionABC
    ∧ FlashcardView.index v1
      = ((FlashcardView.index sessionABC + 1) mod length (remainingCards sessionABC))%nat
    ∧ FlashcardView.showingAnswer v1 = false
    ∧ inSync v1 p1.
Proof.
  apply (X5_again_keeps_the_card 0 sessionABC freshPlugin cardA).
  - exists emptyProgressFile. split; reflexivity.
  - reflexivity.
Defined.

(** X6. A good grade on the current card takes the cards with its id, and
    no other card, out of the remaining ones: the session gets shorter with
    every good grade. *)
Theorem X6_good_shortens_the_session (now : Date) (v : FlashcardView.t)
    (p : Plugin.t) (X : Flashcard.t) :
  inSync v p → currentCard v = Some X →
  ∃ v1 p1,
    handleGrade now v p true = Ok (v1, p1)
    ∧ FlashcardView.cards v1 = FlashcardView.cards v
    ∧ remainingCards v1
      = filter (λ c, Flashcard.id c ≠ Flashcard.id X) (remainingCards v)
    ∧ (length (remainingCards v1) < length (remainingCards v))%nat
    ∧ FlashcardView.showingAnswer v1 = false
    ∧ inSync v1 p1.
Proof.
  intros Hsync Hcur.
  destruct (handleGrade_current now v p true X Hsync Hcur) as [p1 Hgrade].
  set (progress := <[Flashcard.id X := _]> _) in Hgrade.
  assert (Hrem : ∀ index showing,
    remainingCards (FlashcardView.mk (FlashcardView.cards v) index showing progress)
    = filter (λ c, Flashcard.id c ≠ Flashcard.id X) (remainingCards v)).
  { intros. unfold remainingCards. simpl. rewrite list_filter_filter.
    apply list_filter_iff. intros c. unfold progress. rewrite isDone_insert.
    case_decide as Hid; simpl; [|tauto]. split; [done|]. by intros [? _]. }
  simpl in Hgrade.
  eexists _, p1. split; [exact Hgrade|].
  split; [done|]. split; [apply Hrem|]. split.
  { rewrite Hrem.
    apply (length_filter_lt _ _ X); [by apply currentCard_remaining|tauto]. }
  split; [done|]. by eapply handleGrade_inSync.
Qed.

Lemma X6_good_shortens_the_session_witness :
  ∃ v1 p1,
    handleGrade 0 sessionABC freshPlugin true = Ok (v1, p1)
    ∧ FlashcardView.cards v1 = FlashcardView.cards sessionABC
    ∧ remainingCards v1
      = filter (λ c, Flashcard.id c ≠ Flashcard.id cardA) (remainingCards sessionABC)
    ∧ (length (remainingCards v1) < length (remainingCards sessionABC))%nat
    ∧ FlashcardView.showingAnswer v1 = false
    ∧ inSync v1 p1.
Proof.
  apply (X6_good_shortens_the_session 0 sessionABC freshPlugin cardA).
  - exists emptyProgressFile. split; reflexivity.
  - reflexivity.
Defined.

Section Cards.

Lemma flashcardPath_writeJson p path data :
  flashcardPath (writeJson p path data) = flashcardPath p.
Proof. reflexivity. Qed.

Lemma flashcardPath_ensure p create :
  flashcardPath (ensureStorageFolder p create) = flashcardPath p.
Proof. unfold flashcardPath. by rewrite ensureStorageFolder_settings. Qed.

(** Reading the cards only depends on the settings and the cards file. *)
Lemma loadAllCards_file p doc :
  Adapter.files (Plugin.adapter p) !! flashcardPath p = Some (FlashcardJson doc) →
  loadAllCards p = Ok (p, FlashcardFile.cards doc).
Proof.
  intros H. apply loadAllCards_eq. by rewrite readJson_files, H.
Qed.

Lemma loadAllCards_same_file p q :
  Plugin.settings q = Plugin.settings p →
  Adapter.files (Plugin.adapter q) !! flashcardPath p
  = Adapter.files (Plugin.adapter p) !! flashcardPath p →
  ∃ cards, loadAllCards p = Ok (p, cards) ∧ loadAllCards q = Ok (q, cards).
Proof.
  intros Hs Hf.
  destruct (readJson_Ok assignFlashcardFile (Plugin.adapter p) (flashcardPath p)
              emptyFlashcardFile) as [data Hdata].
  exists (FlashcardFile.cards data). split; [by apply loadAllCards_eq|].
  apply loadAllCards_eq.
  assert (flashcardPath q = flashcardPath p) as -> by (unfold flashcardPath; by rewrite Hs).
  by rewrite readJson_files, Hf, <- readJson_files.
Qed.

(** Replacing the card set: the plugin afterwards, the cards it stores and
    the progress it keeps. *)
Lemma replaceAllCards_stored p cards :
  ∃ before p0 p1 after p2,
    loadProgress p = Ok (p0, before)
    ∧ replaceAllCards p cards = Ok p1
    ∧ loadAllCards p1 = Ok (p1, cards)
    ∧ loadProgress p1 = Ok (p2, after)
    ∧ (∀ id, after !! id
             = if decide (id ∈ Flashcard.id <$> cards) then before !! id else None).
Proof.
  destruct (cachedProgress_Ok p) as [data Hdata].
  eexists _, _, _, _, _. split; [by apply loadProgress_eq|].
  split; [by apply replaceAllCards_eq|]. split; [|split].
  - apply (loadAllCards_file _ (FlashcardFile.mk FLASHCARD_VERSION cards)).
    cbn zeta. unfold Plugin.with_progressCache.
    cbn [Plugin.adapter Plugin.settings flashcardPath].
    rewrite writeJson_files, lookup_insert_ne.
    + rewrite writeJson_files. unfold flashcardPath.
      rewrite !writeJson_settings, !ensureStorageFolder_settings.
      apply lookup_insert_eq.
    + intros E. symmetry in E. revert E. apply flashcardPath_ne_progressPath.
      by rewrite !writeJson_settings.
  - apply loadProgress_eq. by apply cachedProgress_cached.
  - intros id. simpl. apply pruned_lookup.
Qed.

Lemma remainingCards_no_progress cards index showing :
  remainingCards (FlashcardView.mk cards index showing ∅) = cards.
Proof.
  unfold remainingCards. simpl. induction cards as [|c cards IH]; [done|].
  rewrite filter_cons_True by apply isDone_empty. by rewrite IH.
Qed.

End Cards.

(** X7. Restart empties the progress, in the cache and in the file, and
    opens the session anew on the stored cards: all of them remain, the
    first one is current and its question is shown. *)
Theorem X7_restart (p : Plugin.t) :
  ∃ v p' p0,
    restart p = Ok (v, p')
    ∧ loadAllCards p = Ok (p0, FlashcardView.cards v)
    ∧ FlashcardView.progress v = ∅
    ∧ remainingCards v = FlashcardView.cards v
    ∧ currentCard v = head (FlashcardView.cards v)
    ∧ FlashcardView.showingAnswer v = false
    ∧ inSync v p'
    ∧ coherent p'.
Proof.
  destruct (loadAllCards_same_file p (resetProgress p)) as (cards & Hp & Hq).
  { unfold resetProgress. cbn [Plugin.settings Plugin.with_progressCache].
    by rewrite writeJson_settings, ensureStorageFolder_settings. }
  { unfold resetProgress. cbn [Plugin.adapter Plugin.with_progressCache].
    rewrite writeJson_files, lookup_insert_ne, ensureStorageFolder_files; [done|].
    intros E. symmetry in E. revert E. apply flashcardPath_ne_progressPath.
    by rewrite ensureStorageFolder_settings. }
  assert (Hrestart : restart p = Ok (FlashcardView.mk cards 0 false ∅, resetProgress p)).
  { unfold restart, reload. rewrite Hq. result_bind.
    rewrite (loadProgress_eq _ emptyProgressFile) by done. result_bind.
    by rewrite ensureStorageFolder_false. }
  eexists _, _, _. split; [exact Hrestart|]. split; [exact Hp|]. split; [done|].
  split; [apply remainingCards_no_progress|]. split.
  { unfold currentCard. rewrite remainingCards_no_progress.
    cbn [FlashcardView.index FlashcardView.cards]. destruct cards; [done|].
    rewrite decide_False by done. by rewrite Nat.Div0.mod_0_l. }
  split; [done|]. split; [by exists emptyProgressFile|].
  apply resetProgress_coherent.
Qed.

Section Manager.

Lemma removeProgress_stored p cardId :
  ∃ before p0 p1 p2,
    loadProgress p = Ok (p0, before)
    ∧ removeProgress p cardId = Ok p1
    ∧ loadProgress p1 = Ok (p2, delete cardId before)
    ∧ Plugin.settings p1 = Plugin.settings p
    ∧ Adapter.files (Plugin.adapter p1) !! flashcardPath p
      = Adapter.files (Plugin.adapter p) !! flashcardPath p.
Proof.
  destruct (cachedProgress_Ok p) as [data Hdata].
  eexists _, _, _, _. split; [by apply loadProgress_eq|].
  split; [by apply removeProgress_eq|]. cbn zeta. split; [|split].
  - etrans; [by apply loadProgress_eq, cachedProgress_cached|]. done.
  - cbn [Plugin.settings Plugin.with_progressCache].
    by rewrite writeJson_settings, ensureStorageFolder_settings.
  - cbn [Plugin.adapter Plugin.with_progressCache].
    rewrite writeJson_files, lookup_insert_ne, ensureStorageFolder_files; [done|].
    intros E. symmetry in E. revert E. apply flashcardPath_ne_progressPath.
    by rewrite ensureStorageFolder_settings.
Qed.

End Manager.

(** X8. Adding a card in the manager: when the trimmed question or answer
    is empty nothing happens; otherwise the new card, of source "manual",
    without highlight ids and with the trimmed texts, is stored in front of
    the cards shown, and every card shown keeps the progress entry it
    had. *)
Theorem X8_add_card (id : string) (now : Date) (v : FlashcardManageView.t)
    (p : Plugin.t) (qInput aInput : string) :
  (trim qInput = "" ∨ trim aInput = "" → addCard id now v p qInput aInput = Ok (v, p))
  ∧ (trim qInput ≠ "" → trim aInput ≠ "" →
     let newCard := Flashcard.mk id "manual" [] (trim qInput) (trim aInput) now in
     let cards := newCard :: FlashcardManageView.cards v in
     ∃ p0 before p1 p2 after,
       loadProgress p = Ok (p0, before)
       ∧ addCard id now v p qInput aInput = Ok (FlashcardManageView.mk cards, p1)
       ∧ loadAllCards p1 = Ok (p1, cards)
       ∧ loadProgress p1 = Ok (p2, after)
       ∧ ∀ c, c ∈ FlashcardManageView.cards v →
              after !! Flashcard.id c = before !! Flashcard.id c).
Proof.
  split.
  - unfold addCard. intros [->| ->]; [done|]. by rewrite orb_true_r.
  - intros Hq Ha newCard cards. unfold addCard.
    rewrite !bool_decide_eq_false_2 by done. cbn [orb]. fold newCard. fold cards.
    destruct (replaceAllCards_stored p cards)
      as (before & p0 & p1 & after & p2 & Hbefore & Hreplace & Hcards & Hafter & Hkeep).
    rewrite Hreplace. result_bind.
    exists p0, before, p1, p2, after. repeat (split; [done|]).
    intros c Hc. rewrite Hkeep, decide_True; [done|].
    apply list_elem_of_fmap. exists c. split; [done|]. by right.
Qed.

Lemma X8_add_card_witness :
  let newCard := Flashcard.mk "n" "manual" [] (trim " What? ") (trim "That. ") 5 in
  let cards := newCard :: FlashcardManageView.cards managerAB in
  ∃ p0 before p1 p2 after,
    loadProgress storedAB = Ok (p0, before)
    ∧ addCard "n" 5 managerAB storedAB " What? " "That. "
      = Ok (FlashcardManageView.mk cards, p1)
    ∧ loadAllCards p1 = Ok (p1, cards)
    ∧ loadProgress p1 = Ok (p2, after)
    ∧ ∀ c, c ∈ FlashcardManageView.cards managerAB →
           after !! Flashcard.id c = before !! Flashcard.id c.
Proof.
  apply (proj2 (X8_add_card "n" 5 managerAB storedAB " What? " "That. "));
    vm_compute; discriminate.
Defined.

(** X9. Saving a row of the manager: when the trimmed question or answer is
    empty nothing happens; otherwise the card of the row keeps its id, its
    source, its highlight ids and its date and takes the trimmed texts, the
    list so changed is what is stored, and every card shown keeps the
    progress entry it had. *)
Theorem X9_save_card (v : FlashcardManageView.t) (p : Plugin.t) (index : nat)
    (card : Flashcard.t) (qValue aValue : string) :
  FlashcardManageView.cards v !! index = Some card →
  (trim qValue = "" ∨ trim aValue = "" → saveCard v p index qValue aValue = Ok (v, p))
  ∧ (trim qValue ≠ "" → trim aValue ≠ "" →
     let edited := Flashcard.mk (Flashcard.id card) (Flashcard.sourcePath card)
                     (Flashcard.highlightIds card) (trim qValue) (trim aValue)
                     (Flashcard.createdAt card) in
     let cards := <[index := edited]> (FlashcardManageView.cards v) in
     ∃ p0 before p1 p2 after,
       loadProgress p = Ok (p0, before)
       ∧ saveCard v p index qValue aValue = Ok (FlashcardManageView.mk cards, p1)
       ∧ loadAllCards p1 = Ok (p1, cards)
       ∧ Flashcard.id <$> cards = Flashcard.id <$> FlashcardManageView.cards v
       ∧ loadProgress p1 = Ok (p2, after)
       ∧ ∀ c, c ∈ FlashcardManageView.cards v →
              after !! Flashcard.id c = before !! Flashcard.id c).
Proof.
  intros Hcard. split.
  - unfold saveCard. rewrite Hcard. intros [->| ->]; [done|]. by rewrite orb_true_r.
  - intros Hq Ha edited cards. unfold saveCard. rewrite Hcard.
    rewrite !bool_decide_eq_false_2 by done. cbn [orb]. fold edited. fold cards.
    destruct (replaceAllCards_stored p cards)
      as (before & p0 & p1 & after & p2 & Hbefore & Hreplace & Hcards & Hafter & Hkeep).
    rewrite Hreplace. result_bind.
    assert (Hids : Flashcard.id <$> cards = Flashcard.id <$> FlashcardManageView.cards v).
    { unfold cards. rewrite list_fmap_insert. apply list_insert_id.
      by rewrite list_lookup_fmap, Hcard. }
    exists p0, before, p1, p2, after. repeat (split; [done|]).
    intros c Hc. rewrite Hkeep, decide_True; [done|].
    rewrite Hids. apply list_elem_of_fmap. by exists c.
Qed.

Lemma X9_save_card_witness :
  let edited := Flashcard.mk "b" "manual" [] (trim "Why? ") (trim " Because.") 0 in
  let cards := <[1%nat := edited]> (FlashcardManageView.cards managerAB) in
  ∃ p0 before p1 p2 after,
    loadProgress storedAB = Ok (p0, before)
    ∧ saveCard managerAB storedAB 1 "Why? " " Because."
      = Ok (FlashcardManageView.mk cards, p1)
    ∧ loadAllCards p1 = Ok (p1, cards)
    ∧ Flashcard.id <$> cards = Flashcard.id <$> FlashcardManageView.cards managerAB
    ∧ loadProgress p1 = Ok (p2, after)
    ∧ ∀ c, c ∈ FlashcardManageView.cards managerAB →
           after !! Flashcard.id c = before !! Flashcard.id c.
Proof.
  apply (proj2 (X9_save_card managerAB storedAB 1 cardB "Why? " " Because." eq_refl));
    vm_compute; discriminate.
Defined.

(** X10. Deleting a row of the manager stores the cards shown without the
    card of the row, and every card left whose id is not the id of the
    deleted card keeps the progress entry it had. *)
Theorem X10_delete_card_keeps_the_rest (v : FlashcardManageView.t) (p : Plugin.t)
    (index : nat) (card : Flashcard.t) :
  FlashcardManageView.cards v !! index = Some card →
  let cards := delete index (FlashcardManageView.cards v) in
  ∃ p0 before p1 p2 after,
    loadProgress p = Ok (p0, before)
    ∧ deleteCard v p index = Ok (FlashcardManageView.mk cards, p1)
    ∧ loadAllCards p1 = Ok (p1, cards)
    ∧ loadProgress p1 = Ok (p2, after)
    ∧ ∀ c, c ∈ cards → Flashcard.id c ≠ Flashcard.id card →
           after !! Flashcard.id c = before !! Flashcard.id c.
Proof.
  intros Hcard cards. unfold deleteCard. rewrite Hcard. fold cards.
  destruct (replaceAllCards_stored p cards)
    as (before & p0 & p1 & mid & p2 & Hbefore & Hreplace & Hcards & Hmid & Hkeep).
  rewrite Hreplace. result_bind.
  destruct (removeProgress_stored p1 (Flashcard.id card))
    as (mid' & q0 & q1 & q2 & Hmid' & Hremove & Hafter & Hsettings & Hfile).
  rewrite Hmid in Hmid'. injection Hmid' as <- <-.
  rewrite Hremove. result_bind.
  exists p0, before, q1, q2, (delete (Flashcard.id card) mid).
  split; [done|]. split; [done|]. split; [|split; [done|]].
  - destruct (loadAllCards_same_file p1 q1 Hsettings Hfile) as (cs & Hp1 & Hq1).
    rewrite Hcards in Hp1. by injection Hp1 as <-.
  - intros c Hc Hne. rewrite lookup_delete_ne by done.
    rewrite Hkeep, decide_True; [done|].
    apply list_elem_of_fmap. by exists c.
Qed.

Lemma X10_delete_card_keeps_the_rest_witness :
  let cards := delete 0%nat (FlashcardManageView.cards managerAB) in
  ∃ p0 before p1 p2 after,
    loadProgress storedAB = Ok (p0, before)
    ∧ deleteCard managerAB storedAB 0 = Ok (FlashcardManageView.mk cards, p1)
    ∧ loadAllCards p1 = Ok (p1, cards)
    ∧ loadProgress p1 = Ok (p2, after)
    ∧ ∀ c, c ∈ cards → Flashcard.id c ≠ Flashcard.id cardA →
           after !! Flashcard.id c = before !! Flashcard.id c.
Proof.
  apply (X10_delete_card_keeps_the_rest managerAB storedAB 0 cardA). reflexivity.
Defined.

Section StorageFolder.

Lemma ensureStorageFolder_exists p :
  Adapter.exists_ (Plugin.adapter (ensureStorageFolder p true)) (storageFolderOf p) = true.
Proof.
  unfold ensureStorageFolder. fold (storageFolderOf p).
  destruct (Adapter.exists_ (Plugin.adapter p) (storageFolderOf p)) eqn:E; simpl; [done|].
  unfold Adapter.exists_. simpl. apply orb_true_iff. right.
  apply bool_decide_eq_true. set_solver.
Qed.

Lemma ensureStorageFolder_present p create :
  Adapter.exists_ (Plugin.adapter p) (storageFolderOf p) = true →
  ensureStorageFolder p create = p.
Proof.
  intros H. unfold ensureStorageFolder. fold (storageFolderOf p). by rewrite H.
Qed.

Lemma exists_write {Text} (a : Adapter.t Text) path data x :
  Adapter.exists_ a x = true → Adapter.exists_ (Adapter.write a path data) x = true.
Proof.
  unfold Adapter.exists_. simpl. rewrite !orb_true_iff, !bool_decide_eq_true.
  intros [H|H]; [left|by right].
  destruct (decide (path = x)) as [->|Hne].
  - rewrite lookup_insert_eq. eauto.
  - by rewrite lookup_insert_ne.
Qed.

Lemma exists_writeJson p path data x :
  Adapter.exists_ (Plugin.adapter p) x = true →
  Adapter.exists_ (Plugin.adapter (writeJson p path data)) x = true.
Proof. apply exists_write. Qed.

End StorageFolder.

(** X11. Replacing the card set stores exactly the list given, and doing it
    again with the same list changes nothing: not the files, not the
    folders, not the cache. *)
Theorem X11_replace_is_idempotent (p : Plugin.t) (cards : list Flashcard.t) :
  ∃ p1,
    replaceAllCards p cards = Ok p1
    ∧ loadAllCards p1 = Ok (p1, cards)
    ∧ replaceAllCards p1 cards = Ok p1.
Proof.
  destruct (replaceAllCards_stored p cards)
    as (before & p0 & p1 & after & p2 & _ & Hreplace & Hcards & _ & _).
  exists p1. split; [done|]. split; [done|].
  destruct (cachedProgress_Ok p) as [data Hdata].
  rewrite (replaceAllCards_eq _ _ _ Hdata) in Hreplace. injection Hreplace as <-.
  set (e := ensureStorageFolder p true).
  set (F := FlashcardJson (FlashcardFile.mk FLASHCARD_VERSION cards)).
  set (ids := list_to_set (Flashcard.id <$> cards) : gset string).
  set (data' := ProgressFile.mk (ProgressFile.version data)
                  (filter (λ kv, kv.1 ∈ ids) (ProgressFile.progress data))).
  cbn zeta. fold e. fold F. fold ids. fold data'.
  set (p1 := Plugin.with_progressCache _ _).
  assert (Hsettings : Plugin.settings p1 = Plugin.settings e) by done.
  assert (Hensure : ensureStorageFolder p1 true = p1).
  { apply ensureStorageFolder_present.
    assert (storageFolderOf p1 = storageFolderOf p) as ->.
    { unfold storageFolderOf. rewrite Hsettings. unfold e.
      by rewrite ensureStorageFolder_settings. }
    unfold p1. cbn [Plugin.adapter Plugin.with_progressCache].
    do 2 apply exists_writeJson. apply ensureStorageFolder_exists. }
  rewrite (replaceAllCards_eq p1 cards data') by done.
  cbn zeta. rewrite Hensure. fold F. fold ids.
  assert (filter (λ kv : string * CardProgress.t, kv.1 ∈ ids) (ProgressFile.progress data')
          = ProgressFile.progress data') as ->.
  { unfold data'. cbn [ProgressFile.progress]. by apply map_filter_filter_l. }
  change (ProgressFile.mk (ProgressFile.version data') (ProgressFile.progress data'))
    with data'.
  f_equal. unfold p1, writeJson, Plugin.with_progressCache, Plugin.with_adapter,
    Adapter.write, flashcardPath, progressPath.
  cbn [Plugin.settings Plugin.adapter Plugin.notes Plugin.progressCache
       Adapter.files Adapter.folders].
  f_equal. f_equal.
  set (fc := _ +:+ "/flashcards.json"). set (pp := _ +:+ "/progress.json").
  assert (fc ≠ pp).
  { unfold fc, pp. intros E%string_app_inj_l. discriminate. }
  rewrite (insert_insert_ne _ fc pp) by done.
  by rewrite !insert_insert_eq.
Qed.

(** X12. The folder chosen in the settings tab is never blank; and for a
    plugin whose storage folder is not blank, ensuring the folder makes
    that very folder exist, leaves every file as it is, and has nothing
    left to do the second time. *)
Theorem X12_storage_folder (p : Plugin.t) :
  (∀ value, PluginSettings.storageFolder (Plugin.settings (changeStorageFolder p value)) ≠ "")
  ∧ (PluginSettings.storageFolder (Plugin.settings p) ≠ "" →
     let p1 := ensureStorageFolder p true in
     Adapter.exists_ (Plugin.adapter p1)
       (PluginSettings.storageFolder (Plugin.settings p)) = true
     ∧ Adapter.files (Plugin.adapter p1) = Adapter.files (Plugin.adapter p)
     ∧ Adapter.folders (Plugin.adapter p) ⊆ Adapter.folders (Plugin.adapter p1)
     ∧ ensureStorageFolder p1 true = p1
     ∧ ensureStorageFolder p false = p).
Proof.
  split.
  - intros value. simpl. unfold string_or. by case_decide.
  - intros Hfolder p1.
    assert (Hof : storageFolderOf p = PluginSettings.storageFolder (Plugin.settings p)).
    { unfold storageFolderOf, string_or. by rewrite decide_False. }
    split; [rewrite <- Hof; apply ensureStorageFolder_exists|].
    split; [apply ensureStorageFolder_files|]. split.
    { unfold p1, ensureStorageFolder. case_match; simpl; set_solver. }
    split; [|apply ensureStorageFolder_false].
    apply ensureStorageFolder_present.
    assert (storageFolderOf p1 = storageFolderOf p) as ->.
    { unfold storageFolderOf, p1. by rewrite ensureStorageFolder_settings. }
    apply ensureStorageFolder_exists.
Qed.

Lemma X12_storage_folder_witness :
  let p1 := ensureStorageFolder paperPlugin true in
  Adapter.exists_ (Plugin.adapter p1)
    (PluginSettings.storageFolder (Plugin.settings paperPlugin)) = true
  ∧ Adapter.files (Plugin.adapter p1) = Adapter.files (Plugin.adapter paperPlugin)
  ∧ Adapter.folders (Plugin.adapter paperPlugin) ⊆ Adapter.folders (Plugin.adapter p1)
  ∧ ensureStorageFolder p1 true = p1
  ∧ ensureStorageFolder paperPlugin false = paperPlugin.
Proof.
  apply (proj2 (X12_storage_folder paperPlugin)). discriminate.
Defined.

Section Hash.

Lemma hexDigit_hex d : 0 <= d < 16 → isHexDigit (hexDigit d) = true.
Proof.
  intros H.
  assert (d = 0 ∨ d = 1 ∨ d = 2 ∨ d = 3 ∨ d = 4 ∨ d = 5 ∨ d = 6 ∨ d = 7 ∨ d = 8
          ∨ d = 9 ∨ d = 10 ∨ d = 11 ∨ d = 12 ∨ d = 13 ∨ d = 14 ∨ d = 15) as Hd by lia.
  repeat (destruct Hd as [->|Hd]; [reflexivity|]). by subst.
Qed.

Lemma toString16_digits_hex fuel n acc :
  0 <= n → allHex acc = true → allHex (toString16_digits fuel n acc) = true.
Proof.
  revert n acc. induction fuel as [|fuel IH]; intros n acc Hn Hacc; [done|].
  simpl. assert (allHex (String (hexDigit (n `mod` 16)) acc) = true) as Hacc'.
  { simpl. rewrite Hacc, hexDigit_hex; [done|]. apply Z.mod_pos_bound. lia. }
  case_decide; [done|]. apply IH; [|done]. apply Z.div_pos; lia.
Qed.

Lemma toString16_digits_length fuel n acc k :
  1 <= k → 0 <= n < 16 ^ k →
  (String.length acc < String.length (toString16_digits (S fuel) n acc))%nat
  ∧ Z.of_nat (String.length (toString16_digits (S fuel) n acc))
    <= Z.of_nat (String.length acc) + k.
Proof.
  revert n acc k. induction fuel as [|fuel IH]; intros n acc k Hk Hn.
  - simpl. case_decide; simpl; lia.
  - cbn [toString16_digits]. case_decide as Hdiv; [simpl; lia|].
    assert (16 <= n).
    { destruct (decide (n < 16)); [|lia]. rewrite Z.div_small in Hdiv; lia. }
    assert (2 <= k).
    { destruct (decide (k = 1)) as [->|]; [|lia]. simpl in Hn. lia. }
    destruct (IH (n `div` 16) (String (hexDigit (n `mod` 16)) acc) (k - 1)) as [Hlo Hhi].
    + lia.
    + split; [apply Z.div_pos; lia|]. apply Z.div_lt_upper_bound; [lia|].
      replace (16 * 16 ^ (k - 1)) with (16 ^ k); [lia|].
      rewrite <- Z.pow_succ_r by lia. f_equal. lia.
    + cbn [toString16_digits] in Hlo, Hhi. simpl String.length in Hlo, Hhi. lia.
Qed.

Lemma hashString_shape value :
  allHex (hashString value) = true ∧ (1 <= String.length (hashString value) <= 8)%nat.
Proof.
  unfold hashString, toString16.
  set (n := toUint32 _).
  assert (0 <= n < 16 ^ 8).
  { unfold n, toUint32. change (16 ^ 8) with (2 ^ 32). apply Z.mod_pos_bound. lia. }
  split; [apply toString16_digits_hex; [lia|done]|].
  destruct (toString16_digits_length (Z.to_nat (Z.log2 n)) n "" 8) as [Hlo Hhi];
    [lia|done|]. change (String.length EmptyString) with 0%nat in Hlo, Hhi. lia.
Qed.




Lemma highlightPath_ne_progressPath p q sourcePath :
  Plugin.settings p = Plugin.settings q →
  highlightPathFor p sourcePath ≠ progressPath q.
Proof.
  unfold highlightPathFor, progressPath. intros -> H.
  apply string_app_inj_l in H.
  cbv beta iota fix delta [String.append] in H. discriminate.
Qed.

End Hash.

(** X13. The name of a highlight file is built from one to eight lower-case
    hexadecimal digits, whatever the path of the document. *)
Theorem X13_hash_is_hex (sourcePath : string) :
  allHex (hashString sourcePath) = true
  ∧ (1 <= String.length (hashString sourcePath) <= 8)%nat
  ∧ ∀ p, highlightPathFor p sourcePath
         = PluginSettings.storageFolder (Plugin.settings p)
           +:+ "/highlights-" +:+ hashString sourcePath +:+ ".json".
Proof.
  destruct (hashString_shape sourcePath) as [Hhex Hlen].
  split; [exact Hhex|]. split; [exact Hlen|]. reflexivity.
Qed.

Section HighlightStore.

Lemma highlightPath_ensure p create sourcePath :
  highlightPathFor (ensureStorageFolder p create) sourcePath
  = highlightPathFor p sourcePath.
Proof. unfold highlightPathFor. by rewrite ensureStorageFolder_settings. Qed.

Lemma highlightPath_settings p q sourcePath :
  Plugin.settings q = Plugin.settings p →
  highlightPathFor q sourcePath = highlightPathFor p sourcePath.
Proof. unfold highlightPathFor. by intros ->. Qed.

Lemma loadHighlights_eq p sourcePath data :
  readJson assignHighlightFile (Plugin.adapter p) (highlightPathFor p sourcePath)
           (emptyHighlightFile sourcePath) = Ok data →
  loadHighlights p sourcePath = Ok (p, HighlightFile.highlights data).
Proof.
  intros H. unfold loadHighlights. rewrite ensureStorageFolder_false, H. done.
Qed.

Lemma loadHighlights_inv p sourcePath p' highlights :
  loadHighlights p sourcePath = Ok (p', highlights) →
  p' = p
  ∧ ∃ data,
      readJson assignHighlightFile (Plugin.adapter p) (highlightPathFor p sourcePath)
               (emptyHighlightFile sourcePath) = Ok data
      ∧ HighlightFile.highlights data = highlights.
Proof.
  unfold loadHighlights. rewrite ensureStorageFolder_false.
  destruct (readJson_Ok assignHighlightFile (Plugin.adapter p)
              (highlightPathFor p sourcePath) (emptyHighlightFile sourcePath))
    as [data Hdata].
  rewrite Hdata. result_bind. intros [= <- <-]. eauto.
Qed.


(** Reading the highlights of a document only depends on the settings and
    on the file of the document. *)
Lemma loadHighlights_same_file p q sourcePath highlights :
  Plugin.settings q = Plugin.settings p →
  Adapter.files (Plugin.adapter q) !! highlightPathFor p sourcePath
  = Adapter.files (Plugin.adapter p) !! highlightPathFor p sourcePath →
  loadHighlights p sourcePath = Ok (p, highlights) →
  loadHighlights q sourcePath = Ok (q, highlights).
Proof.
  intros Hs Hf (_ & data & Hdata & <-)%loadHighlights_inv.
  apply loadHighlights_eq.
  rewrite readJson_files, (highlightPath_settings p q), Hf, <- readJson_files by done.
  done.
Qed.

Lemma loadHighlights_written p path doc sourcePath :
  highlightPathFor p sourcePath = path →
  loadHighlights (writeJson p path (HighlightJson doc)) sourcePath
  = Ok (writeJson p path (HighlightJson doc), HighlightFile.highlights doc).
Proof.
  intros <-. apply loadHighlights_eq.
  rewrite readJson_files, writeJson_files.
  rewrite (highlightPath_settings p) by apply writeJson_settings.
  by rewrite lookup_insert_eq.
Qed.


Lemma markHighlightsGenerated_run p sourcePath highlightIds data :
  readJson assignHighlightFile (Plugin.adapter p) (highlightPathFor p sourcePath)
           (emptyHighlightFile sourcePath) = Ok data →
  markHighlightsGenerated p sourcePath highlightIds
  = Ok (writeJson (ensureStorageFolder p true) (highlightPathFor p sourcePath)
          (HighlightJson (HighlightFile.mk (HighlightFile.version data)
                            (HighlightFile.sourcePath data)
                            (markGenerated highlightIds
                             <$> HighlightFile.highlights data)))).
Proof.
  intros H. unfold markHighlightsGenerated. rewrite highlightPath_ensure.
  rewrite readJson_files, ensureStorageFolder_files, <- readJson_files, H. done.
Qed.

(** Writing a document under a path of the storage folder leaves the cards
    and the progress as they were when the path is neither of theirs. *)
Lemma write_elsewhere p path doc :
  path ≠ flashcardPath p → path ≠ progressPath p →
  let p' := writeJson (ensureStorageFolder p true) path doc in
  Plugin.settings p' = Plugin.settings p
  ∧ Plugin.notes p' = Plugin.notes p
  ∧ Plugin.progressCache p' = Plugin.progressCache p
  ∧ Adapter.files (Plugin.adapter p') = <[path := doc]> (Adapter.files (Plugin.adapter p))
  ∧ cachedProgress p' = cachedProgress p
  ∧ ∃ cards, loadAllCards p = Ok (p, cards) ∧ loadAllCards p' = Ok (p', cards).
Proof.
  intros Hfc Hpp p'.
  assert (Hs : Plugin.settings p' = Plugin.settings p).
  { unfold p'. by rewrite writeJson_settings, ensureStorageFolder_settings. }
  assert (Hf : Adapter.files (Plugin.adapter p')
               = <[path := doc]> (Adapter.files (Plugin.adapter p))).
  { unfold p'. by rewrite writeJson_files, ensureStorageFolder_files. }
  split; [done|]. split; [apply ensureStorageFolder_notes|].
  split; [apply ensureStorageFolder_cache|]. split; [done|]. split.
  - apply cachedProgress_ext.
    + apply ensureStorageFolder_cache.
    + done.
    + assert (progressPath p' = progressPath p) as ->.
      { unfold progressPath. by rewrite Hs. }
      by rewrite Hf, lookup_insert_ne.
  - apply loadAllCards_same_file; [done|]. by rewrite Hf, lookup_insert_ne.
Qed.


Lemma markGenerated_pending highlightIds highlights :
  List.filter pendingHighlight (markGenerated highlightIds <$> highlights)
  = List.filter (λ h, pendingHighlight h && bool_decide (Highlight.id h ∉ highlightIds))
                highlights.
Proof.
  induction highlights as [|h highlights IH]; [done|].
  rewrite fmap_cons. cbn [List.filter]. rewrite IH. unfold markGenerated at 1 2.
  destruct (decide (Highlight.id h ∈ (list_to_set highlightIds : gset string)))
    as [Hin|Hin]; rewrite elem_of_list_to_set in Hin.
  - rewrite (bool_decide_eq_false_2 (Highlight.id h ∉ highlightIds)) by tauto.
    unfold pendingHighlight at 1. simpl. by rewrite !andb_false_r.
  - rewrite (bool_decide_eq_true_2 (Highlight.id h ∉ highlightIds)) by done.
    by rewrite andb_true_r.
Qed.

Lemma List_filter_none {A} (f : A → bool) (l : list A) :
  (∀ x, x ∈ l → f x = false) → List.filter f l = [].
Proof.
  induction l as [|x l IH]; intros H; [done|]. simpl.
  rewrite (H x) by left. apply IH. intros y Hy. apply H. by right.
Qed.

Lemma markGenerated_all_pending highlights :
  List.filter pendingHighlight
    (markGenerated (Highlight.id <$> List.filter pendingHighlight highlights)
     <$> highlights) = [].
Proof.
  rewrite markGenerated_pending.
  apply List_filter_none. intros h Hh.
  destruct (pendingHighlight h) eqn:Hp; [|done]. simpl.
  apply bool_decide_eq_false_2. intros Hnot. apply Hnot.
  apply list_elem_of_fmap_2.
  apply list_elem_of_In, filter_In. split; [by apply list_elem_of_In|done].
Qed.

Lemma markGenerated_fields highlightIds (highlights : list Highlight.t) :
  Highlight.id <$> (markGenerated highlightIds <$> highlights) = Highlight.id <$> highlights
  ∧ Highlight.color <$> (markGenerated highlightIds <$> highlights)
    = Highlight.color <$> highlights
  ∧ Highlight.isFlashcard <$> (markGenerated highlightIds <$> highlights)
    = Highlight.isFlashcard <$> highlights
  ∧ Highlight.text <$> (markGenerated highlightIds <$> highlights)
    = Highlight.text <$> highlights
  ∧ Highlight.createdAt <$> (markGenerated highlightIds <$> highlights)
    = Highlight.createdAt <$> highlights
  ∧ Highlight.pages <$> (markGenerated highlightIds <$> highlights)
    = Highlight.pages <$> highlights.
Proof.
  rewrite <- !list_fmap_compose.
  repeat split; apply list_fmap_ext; intros i h _; unfold markGenerated; simpl;
    by case_decide.
Qed.

End HighlightStore.




(** X16. Marking highlights as generated rewrites the file of the document
    with the same highlights in the same order, the flag set on those whose
    id is in the list: the highlights still pending afterwards are the
    pending ones whose id is not in the list.  Nothing else is written. *)
Theorem X16_mark_generated (p : Plugin.t) (sourcePath : string)
    (highlightIds : list string) :
  ∃ before p' after cards,
    loadHighlights p sourcePath = Ok (p, before)
    ∧ markHighlightsGenerated p sourcePath highlightIds = Ok p'
    ∧ loadHighlights p' sourcePath = Ok (p', after)
    ∧ after = markGenerated highlightIds <$> before
    ∧ Highlight.id <$> after = Highlight.id <$> before
    ∧ Highlight.color <$> after = Highlight.color <$> before
    ∧ Highlight.isFlashcard <$> after = Highlight.isFlashcard <$> before
    ∧ Highlight.text <$> after = Highlight.text <$> before
    ∧ Highlight.createdAt <$> after = Highlight.createdAt <$> before
    ∧ Highlight.pages <$> after = Highlight.pages <$> before
    ∧ List.filter pendingHighlight after
      = List.filter (λ h, pendingHighlight h
                          && bool_decide (Highlight.id h ∉ highlightIds)) before
    ∧ Plugin.settings p' = Plugin.settings p
    ∧ Plugin.notes p' = Plugin.notes p
    ∧ cachedProgress p' = cachedProgress p
    ∧ loadAllCards p = Ok (p, cards)
    ∧ loadAllCards p' = Ok (p', cards).
Proof.
  destruct (readJson_Ok assignHighlightFile (Plugin.adapter p)
              (highlightPathFor p sourcePath) (emptyHighlightFile sourcePath))
    as [data Hdata].
  set (doc := HighlightFile.mk (HighlightFile.version data)
                (HighlightFile.sourcePath data)
                (markGenerated highlightIds <$> HighlightFile.highlights data)).
  destruct (write_elsewhere p (highlightPathFor p sourcePath) (HighlightJson doc))
    as (Hs & Hn & Hc & Hf & Hprog & cards & Hcards & Hcards').
  { by apply highlightPath_ne_flashcardPath. }
  { by apply highlightPath_ne_progressPath. }
  destruct (markGenerated_fields highlightIds (HighlightFile.highlights data))
    as (Hid & Hcolor & Hflash & Htext & Hcreated & Hpages).
  exists (HighlightFile.highlights data),
    (writeJson (ensureStorageFolder p true) (highlightPathFor p sourcePath)
       (HighlightJson doc)),
    (markGenerated highlightIds <$> HighlightFile.highlights data), cards.
  split; [by apply loadHighlights_eq|].
  split; [by apply markHighlightsGenerated_run|].
  split; [apply (loadHighlights_written _ _ doc), highlightPath_ensure|].
  split; [done|].
  do 6 (split; [done|]).
  split; [apply markGenerated_pending|]. done.
Qed.

Section Runs.

(** The plugin after a run that stores cards: the cards are added, then the
    highlights are marked. *)
Lemma generate_run callOpenAI freshId now p file highlights response cards :
  PluginSettings.apiKey (Plugin.settings p) ≠ "" →
  loadHighlights p (TFile.path file) = Ok (p, highlights) →
  List.filter pendingHighlight highlights ≠ [] →
  callOpenAI systemPrompt (userPrompt (List.filter pendingHighlight highlights))
  = Ok response →
  parseFlashcards response = Ok cards →
  cards ≠ [] →
  ∃ p1 p2,
    addCards p (newCardsOf freshId now file (List.filter pendingHighlight highlights)
                  cards) = Ok p1
    ∧ markHighlightsGenerated p1 (TFile.path file)
        (Highlight.id <$> List.filter pendingHighlight highlights) = Ok p2
    ∧ generateFlashcardsFromActivePdf callOpenAI freshId now p (Some file)
      = Ok (p2, "Generated " +:+ pretty (length cards) +:+ " flashcards.").
Proof.
  intros Hkey Hload Hpending Hcall Hparse Hcards.
  destruct (readJson_Ok assignFlashcardFile (Plugin.adapter p) (flashcardPath p)
              emptyFlashcardFile) as [data Hdata].
  pose proof (addCards_eq p
                (newCardsOf freshId now file (List.filter pendingHighlight highlights)
                   cards) data Hdata) as Hadd.
  set (p1 := writeJson _ _ _) in Hadd.
  destruct (markHighlightsGenerated_eq p1 (TFile.path file)
              (Highlight.id <$> List.filter pendingHighlight highlights))
    as [existing Hmark].
  set (p2 := writeJson _ _ _) in Hmark.
  exists p1, p2. split; [done|]. split; [done|].
  unfold generateFlashcardsFromActivePdf.
  rewrite decide_False by done. rewrite Hload. result_bind.
  rewrite decide_False by (by destruct (List.filter pendingHighlight highlights)).
  rewrite Hcall, Hparse. rewrite decide_False by (by destruct cards).
  rewrite Hadd, Hmark. do 3 f_equal. unfold newCardsOf. by rewrite length_imap.
Qed.

Lemma addCards_highlights p newCards p1 sourcePath highlights :
  addCards p newCards = Ok p1 →
  loadHighlights p sourcePath = Ok (p, highlights) →
  Plugin.settings p1 = Plugin.settings p
  ∧ loadHighlights p1 sourcePath = Ok (p1, highlights).
Proof.
  intros Hadd Hload.
  destruct (readJson_Ok assignFlashcardFile (Plugin.adapter p) (flashcardPath p)
              emptyFlashcardFile) as [data Hdata].
  rewrite (addCards_eq _ _ _ Hdata) in Hadd. injection Hadd as <-.
  split; [by rewrite writeJson_settings, ensureStorageFolder_settings|].
  apply (loadHighlights_same_file p); [| |done].
  - by rewrite writeJson_settings, ensureStorageFolder_settings.
  - rewrite writeJson_files, ensureStorageFolder_files, lookup_insert_ne; [done|].
    intros H. by apply (highlightPath_ne_flashcardPath p p sourcePath).
Qed.

Lemma markHighlightsGenerated_stored p sourcePath highlightIds p' before :
  loadHighlights p sourcePath = Ok (p, before) →
  markHighlightsGenerated p sourcePath highlightIds = Ok p' →
  Plugin.settings p' = Plugin.settings p
  ∧ loadHighlights p' sourcePath = Ok (p', markGenerated highlightIds <$> before).
Proof.
  intros (_ & data & Hdata & <-)%loadHighlights_inv Hmark.
  rewrite (markHighlightsGenerated_run _ _ _ _ Hdata) in Hmark. injection Hmark as <-.
  split; [by rewrite writeJson_settings, ensureStorageFolder_settings|].
  exact (loadHighlights_written (ensureStorageFolder p true)
           (highlightPathFor p sourcePath)
           (HighlightFile.mk (HighlightFile.version data) (HighlightFile.sourcePath data)
              (markGenerated highlightIds <$> HighlightFile.highlights data))
           sourcePath (highlightPath_ensure p true sourcePath)).
Qed.

End Runs.

(** X17. After a run that stored cards for a document, no highlight of the
    document is pending: a second run on the document stops before the
    model is asked, with the notice that there are no new flashcard
    highlights, and changes nothing. *)
Theorem X17_second_run_finds_nothing
    (callOpenAI callAgain : string → string → Result string)
    (freshId freshId' : nat → string) (now now' : Date) (p : Plugin.t)
    (file : TFile.t) (highlights : list Highlight.t) (response : string)
    (cards : list QA.t) :
  PluginSettings.apiKey (Plugin.settings p) ≠ "" →
  loadHighlights p (TFile.path file) = Ok (p, highlights) →
  List.filter pendingHighlight highlights ≠ [] →
  callOpenAI systemPrompt (userPrompt (List.filter pendingHighlight highlights))
  = Ok response →
  parseFlashcards response = Ok cards →
  cards ≠ [] →
  ∃ p' after,
    generateFlashcardsFromActivePdf callOpenAI freshId now p (Some file)
    = Ok (p', "Generated " +:+ pretty (length cards) +:+ " flashcards.")
    ∧ loadHighlights p' (TFile.path file) = Ok (p', after)
    ∧ List.filter pendingHighlight after = []
    ∧ Highlight.id <$> after = Highlight.id <$> highlights
    ∧ generateFlashcardsFromActivePdf callAgain freshId' now' p' (Some file)
      = Ok (p', "No new flashcard highlights found.").
Proof.
  intros Hkey Hload Hpending Hcall Hparse Hcards.
  destruct (generate_run callOpenAI freshId now p file highlights response cards)
    as (p1 & p2 & Hadd & Hmark & Hrun); try done.
  destruct (addCards_highlights _ _ _ _ _ Hadd Hload) as [Hs1 Hload1].
  destruct (markHighlightsGenerated_stored _ _ _ _ _ Hload1 Hmark) as [Hs2 Hload2].
  exists p2, (markGenerated (Highlight.id <$> List.filter pendingHighlight highlights)
              <$> highlights).
  split; [done|]. split; [done|].
  split; [apply markGenerated_all_pending|].
  split; [apply markGenerated_fields|].
  unfold generateFlashcardsFromActivePdf.
  rewrite decide_False by (by rewrite Hs2, Hs1). rewrite Hload2. result_bind.
  rewrite markGenerated_all_pending. done.
Qed.

Lemma X17_second_run_finds_nothing_witness :
  ∃ p' after,
    generateFlashcardsFromActivePdf answeringModel numberedId 0 paperPlugin (Some paper)
    = Ok (p', "Generated " +:+ pretty (length [QA.mk "Q" "A"]) +:+ " flashcards.")
    ∧ loadHighlights p' (TFile.path paper) = Ok (p', after)
    ∧ List.filter pendingHighlight after = []
    ∧ Highlight.id <$> after = Highlight.id <$> paperHighlights
    ∧ generateFlashcardsFromActivePdf answeringModel numberedId 1 p' (Some paper)
      = Ok (p', "No new flashcard highlights found.").
Proof.
  apply (X17_second_run_finds_nothing answeringModel answeringModel numberedId
           numberedId 0 1 paperPlugin paper paperHighlights usableResponse
           [QA.mk "Q" "A"]).
  - discriminate.
  - by vm_compute.
  - discriminate.
  - reflexivity.
  - by vm_compute.
  - discriminate.
Defined.

(** X18. A run of the generation is all or nothing.  Either it leaves the
    plugin exactly as it was and shows one of five notices, or it appends at
    least one new card to the stored ones and reports their number. *)
Theorem X18_generation_is_all_or_nothing
    (callOpenAI : string → string → Result string) (freshId : nat → string)
    (now : Date) (p : Plugin.t) (active : option TFile.t) :
  ∃ p' notice,
    generateFlashcardsFromActivePdf callOpenAI freshId now p active = Ok (p', notice)
    ∧ ((p' = p
        ∧ notice ∈ ["Open a PDF first.";
                    "Set your OpenAI API key in the plugin settings.";
                    "No new flashcard highlights found.";
                    "Failed to generate flashcards.";
                    "No flashcards returned by the model."])
       ∨ ∃ old new,
           loadAllCards p = Ok (p, old)
           ∧ loadAllCards p' = Ok (p', old ++ new)
           ∧ new ≠ []
           ∧ notice = "Generated " +:+ pretty (length new) +:+ " flashcards.").
Proof.
  assert (Hsame : ∀ notice : string,
            notice ∈ ["Open a PDF first.";
                      "Set your OpenAI API key in the plugin settings.";
                      "No new flashcard highlights found.";
                      "Failed to generate flashcards.";
                      "No flashcards returned by the model."] →
            ∃ p' notice',
              @Ok (Plugin.t * string) (p, notice) = Ok (p', notice')
              ∧ ((p' = p
                  ∧ notice' ∈ ["Open a PDF first.";
                               "Set your OpenAI API key in the plugin settings.";
                               "No new flashcard highlights found.";
                               "Failed to generate flashcards.";
                               "No flashcards returned by the model."])
                 ∨ ∃ old new,
                     loadAllCards p = Ok (p, old)
                     ∧ loadAllCards p' = Ok (p', old ++ new)
                     ∧ new ≠ []
                     ∧ notice' = "Generated " +:+ pretty (length new)
                                 +:+ " flashcards.")).
  { intros notice Hnotice. exists p, notice. split; [done|]. by left. }
  destruct active as [file|]; [|apply Hsame, list_elem_of_In; simpl; tauto].
  destruct (loads_total p (TFile.path file)) as (highlights & old & Hload & Hold).
  unfold generateFlashcardsFromActivePdf.
  case_decide as Hkey; [apply Hsame, list_elem_of_In; simpl; tauto|].
  rewrite Hload. result_bind.
  case_decide as Hpending; [apply Hsame, list_elem_of_In; simpl; tauto|].
  destruct (callOpenAI systemPrompt (userPrompt (List.filter pendingHighlight highlights)))
    as [response|] eqn:Hcall; [|apply Hsame, list_elem_of_In; simpl; tauto].
  destruct (parseFlashcards response) as [cards|] eqn:Hparse; [|apply Hsame, list_elem_of_In; simpl; tauto].
  case_decide as Hcards; [apply Hsame, list_elem_of_In; simpl; tauto|].
  destruct (generate_appends callOpenAI freshId now p file highlights response
              cards old) as (p' & Hrun & Hcards');
    try done;
    [by intros E; apply Hpending; rewrite E|by intros ->|].
  unfold generateFlashcardsFromActivePdf in Hrun.
  rewrite decide_False in Hrun by done. rewrite Hload in Hrun.
  cbn beta iota zeta delta [mbind Result_bind] in Hrun.
  rewrite decide_False in Hrun by done. rewrite Hcall, Hparse in Hrun.
  rewrite decide_False in Hrun by done. rewrite Hrun.
  eexists _, _. split; [done|]. right.
  exists old, (newCardsOf freshId now file (List.filter pendingHighlight highlights) cards).
  split; [done|]. split; [done|].
  assert (length (newCardsOf freshId now file
                    (List.filter pendingHighlight highlights) cards) = length cards)
    as Hlen by (unfold newCardsOf; by rewrite length_imap).
  split; [|by rewrite Hlen].
  intros E. rewrite E in Hlen. by destruct cards.
Qed.

Section PageMap.

Context {K V : Type} `{EqDecision K}.

Lemma Map_push_keys (m : list (K * list V)) (key : K) (v : V) :
  (Map_push m key v).*1 = if decide (key ∈ m.*1) then m.*1 else m.*1 ++ [key].
Proof.
  induction m as [|[k vs] m IH].
  - cbn [Map_push fmap list_fmap fst app].
    rewrite decide_False; [done|]. apply not_elem_of_nil.
  - cbn [Map_push]. destruct (decide (k = key)) as [->|Hne]; rewrite !fmap_cons;
      cbn [fst].
    + rewrite decide_True; [done|]. left.
    + rewrite IH. destruct (decide (key ∈ m.*1)) as [Hin|Hin].
      * rewrite decide_True; [done|]. by right.
      * rewrite decide_False; [done|]. intros [?|?]%elem_of_cons; congruence.
Qed.

Lemma Map_push_NoDup (m : list (K * list V)) (key : K) (v : V) :
  NoDup m.*1 → NoDup (Map_push m key v).*1.
Proof.
  intros Hm. rewrite Map_push_keys. case_decide as Hin; [done|].
  apply NoDup_app. split; [done|]. split; [|apply NoDup_singleton].
  intros k Hk ->%list_elem_of_singleton. done.
Qed.

Lemma Map_push_nonempty (m : list (K * list V)) (key : K) (v : V) :
  Forall (λ e, e.2 ≠ []) m → Forall (λ e, e.2 ≠ []) (Map_push m key v).
Proof.
  induction 1 as [|[k vs] m Hvs Hm IH]; simpl.
  - by repeat constructor.
  - case_decide; constructor; try done. simpl. by destruct vs.
Qed.

Lemma Map_push_count (m : list (K * list V)) (key : K) (v : V) :
  length (m' ← Map_push m key v; m'.2) = S (length (m' ← m; m'.2)).
Proof.
  induction m as [|[k vs] m IH]; [done|]. cbn [Map_push].
  case_decide; rewrite !bind_cons, !length_app; cbn [snd].
  - rewrite length_app. simpl. lia.
  - rewrite IH. lia.
Qed.

End PageMap.

Section Capture.

Variable pages : list PageElement.t.

Lemma pageMap_invariant (rects : list DOMRect.t) (m : list (Z * list HighlightRect.t)) :
  NoDup m.*1 → Forall (λ e, e.2 ≠ []) m →
  let m' := fold_left (placeRect pages) rects m in
  NoDup m'.*1
  ∧ Forall (λ e, e.2 ≠ []) m'
  ∧ (∀ k, k ∈ m'.*1 → k ∈ m.*1 ∨ k ∈ pageIndex <$> pages)
  ∧ length (e ← m'; e.2)
    = (length (e ← m; e.2)
       + length (omap (λ rect, (λ pageEl, (pageEl, rect))
                               <$> List.find (centerInside rect) pages) rects))%nat.
Proof.
  revert m. induction rects as [|rect rects IH]; intros m Hdup Hne; simpl.
  - repeat split; [done|done|by left|lia].
  - unfold placeRect at 2 4 6 8.
    destruct (List.find (centerInside rect) pages) as [pageEl|] eqn:Hfind; simpl.
    + destruct (IH (Map_push m (pageIndex pageEl)
                      (normalize rect (PageElement.box pageEl))))
        as (Hdup' & Hne' & Hkeys & Hcount).
      { by apply Map_push_NoDup. }
      { by apply Map_push_nonempty. }
      split; [done|]. split; [done|]. split.
      * intros k Hk. destruct (Hkeys k Hk) as [Hin|Hin]; [|by right].
        rewrite Map_push_keys in Hin. case_decide; [by left|].
        apply elem_of_app in Hin as [Hin|Hin]; [by left|].
        apply list_elem_of_singleton in Hin as ->.
        right. apply list_elem_of_fmap_2.
        apply list_elem_of_In. by apply find_some in Hfind as [? _].
      * rewrite Hcount, Map_push_count. unfold omap. lia.
    + by apply IH.
Qed.

Lemma pageMap_empty (rects : list DOMRect.t) :
  fold_left (placeRect pages) rects [] = []
  ↔ ∀ rect, rect ∈ rects → List.find (centerInside rect) pages = None.
Proof.
  destruct (pageMap_invariant rects []) as (_ & _ & _ & Hcount);
    [apply NoDup_nil_2|done|].
  simpl in Hcount. split.
  - intros Hempty rect Hrect. rewrite Hempty in Hcount. simpl in Hcount.
    destruct (List.find (centerInside rect) pages) as [pageEl|] eqn:Hfind; [|done].
    exfalso. symmetry in Hcount. apply length_zero_iff_nil in Hcount.
    assert (Hin : (pageEl, rect)
                  ∈ omap (λ rect, (λ pageEl, (pageEl, rect))
                                  <$> List.find (centerInside rect) pages) rects).
    { apply list_elem_of_omap. exists rect. split; [done|]. by rewrite Hfind. }
    rewrite Hcount in Hin. by apply elem_of_nil in Hin.
  - intros Hnone.
    assert (omap (λ rect, (λ pageEl, (pageEl, rect))
                          <$> List.find (centerInside rect) pages) rects = []) as Hno.
    { clear Hcount. induction rects as [|rect rects' IH]; [done|]. simpl.
      rewrite (Hnone rect) by left. simpl. apply IH. intros r Hr. apply Hnone. by right. }
    rewrite Hno in Hcount. simpl in Hcount.
    destruct (fold_left (placeRect pages) rects []) as [|[k [|v vs]] m] eqn:E; [done|..].
    + destruct (pageMap_invariant rects []) as (_ & Hne & _);
        [apply NoDup_nil_2|done|].
      simpl in Hne. rewrite E in Hne. by inversion Hne.
    + simpl in Hcount. lia.
Qed.

Lemma pages_of_pageMap (pageMap : list (Z * list HighlightRect.t)) :
  HighlightPage.page <$> ((λ e, HighlightPage.mk e.1 e.2) <$> pageMap) = pageMap.*1
  ∧ (entry ← (λ e, HighlightPage.mk e.1 e.2) <$> pageMap; HighlightPage.rects entry)
    = (e ← pageMap; e.2).
Proof.
  induction pageMap as [|[k vs] pageMap [IH1 IH2]]; [done|].
  rewrite !fmap_cons, !bind_cons, IH1, IH2. done.
Qed.

Lemma buildHighlightFromSelection_None id now selection color :
  buildHighlightFromSelection id now selection pages color = None
  ↔ Selection.rangeCount selection = 0%nat
    ∨ fold_left (placeRect pages)
        (List.filter keptRect (Selection.clientRects selection)) [] = [].
Proof.
  unfold buildHighlightFromSelection.
  case_decide as Hrange; [tauto|].
  case_decide as Hrects.
  { apply length_zero_iff_nil in Hrects. rewrite Hrects. simpl. tauto. }
  case_decide as Hpages.
  { split; [|done]. intros _. right. apply pageMap_empty. intros rect _.
    apply length_zero_iff_nil in Hpages. by rewrite Hpages. }
  case_decide as Hmap.
  { apply length_zero_iff_nil in Hmap. tauto. }
  split; [done|]. intros [?|Hempty]; [done|]. by rewrite Hempty in Hmap.
Qed.


End Capture.

(** X19. A captured highlight has at least one page entry; its page entries
    have distinct page numbers, each the number of a mounted page, and each
    holds at least one rectangle; together they hold one rectangle for every
    kept rectangle of the selection whose centre lies in a page.  It is a
    flashcard highlight, and pending, exactly when its colour is the
    flashcard colour. *)
Theorem X19_captured_highlight (id : string) (now : Date) (selection : Selection.t)
    (pages : list PageElement.t) (color : HighlightColor) (highlight : Highlight.t) :
  buildHighlightFromSelection id now selection pages color = Some highlight →
  Highlight.pages highlight ≠ []
  ∧ NoDup (HighlightPage.page <$> Highlight.pages highlight)
  ∧ Forall (λ entry, HighlightPage.rects entry ≠ []) (Highlight.pages highlight)
  ∧ Forall (λ number, number ∈ pageIndex <$> pages)
           (HighlightPage.page <$> Highlight.pages highlight)
  ∧ length (entry ← Highlight.pages highlight; HighlightPage.rects entry)
    = length (placedRects pages (Selection.clientRects selection))
  ∧ Highlight.id highlight = id
  ∧ Highlight.color highlight = color
  ∧ Highlight.text highlight = Selection.toString selection
  ∧ Highlight.createdAt highlight = now
  ∧ Highlight.isFlashcard highlight = bool_decide (color = flashcard)
  ∧ pendingHighlight highlight = bool_decide (color = flashcard).
Proof.
  unfold buildHighlightFromSelection.
  do 4 (case_decide; [done|]). intros [= <-]. cbn [Highlight.pages Highlight.id
    Highlight.color Highlight.text Highlight.createdAt Highlight.isFlashcard].
  set (rects := List.filter keptRect (Selection.clientRects selection)) in *.
  destruct (pageMap_invariant pages rects []) as (Hdup & Hne & Hkeys & Hcount);
    [apply NoDup_nil_2|done|].
  set (pageMap := fold_left (placeRect pages) rects []) in *.
  destruct (pages_of_pageMap pageMap) as [Hpage Hrects].
  split; [by destruct pageMap|].
  split; [by rewrite Hpage|].
  split.
  { apply Forall_fmap. eapply Forall_impl; [exact Hne|]. done. }
  split.
  { rewrite Hpage. apply Forall_forall. intros k Hk.
    destruct (Hkeys k Hk) as [Hin|Hin]; [by apply elem_of_nil in Hin|done]. }
  split; [by rewrite Hrects, Hcount|].
  do 5 (split; [done|]).
  unfold pendingHighlight. simpl. by rewrite andb_true_r.
Qed.

Lemma X19_captured_highlight_witness :
  ∃ highlight,
    buildHighlightFromSelection "h" 0 wordSelection [firstPage] flashcard = Some highlight
    ∧ Highlight.pages highlight ≠ []
    ∧ NoDup (HighlightPage.page <$> Highlight.pages highlight)
    ∧ Forall (λ entry, HighlightPage.rects entry ≠ []) (Highlight.pages highlight)
    ∧ Forall (λ number, number ∈ pageIndex <$> [firstPage])
             (HighlightPage.page <$> Highlight.pages highlight)
    ∧ length (entry ← Highlight.pages highlight; HighlightPage.rects entry)
      = length (placedRects [firstPage] (Selection.clientRects wordSelection))
    ∧ Highlight.id highlight = "h"
    ∧ Highlight.color highlight = flashcard
    ∧ Highlight.text highlight = Selection.toString wordSelection
    ∧ Highlight.createdAt highlight = 0
    ∧ Highlight.isFlashcard highlight = bool_decide (flashcard = flashcard)
    ∧ pendingHighlight highlight = bool_decide (flashcard = flashcard).
Proof.
  eexists. split; [reflexivity|].
  apply (X19_captured_highlight "h" 0 wordSelection [firstPage] flashcard).
  reflexivity.
Defined.

(** X20. A selection is captured exactly when it has a range and one of its
    rectangles wider and higher than 1 has its centre in the box of a
    mounted page. *)
Theorem X20_when_a_selection_is_captured (id : string) (now : Date)
    (selection : Selection.t) (pages : list PageElement.t) (color : HighlightColor) :
  bool_decide (is_Some (buildHighlightFromSelection id now selection pages color))
  = negb (bool_decide (Selection.rangeCount selection = 0%nat))
    && existsb (λ rect, keptRect rect && existsb (centerInside rect) pages)
               (Selection.clientRects selection).
Proof.
  apply eq_true_iff_eq.
  rewrite bool_decide_eq_true, andb_true_iff, negb_true_iff, bool_decide_eq_false.
  rewrite <- not_eq_None_Some, buildHighlightFromSelection_None.
  rewrite pageMap_empty, existsb_exists.
  split.
  - intros Hnot. split; [tauto|].
    destruct (existsb (λ rect, keptRect rect && existsb (centerInside rect) pages)
                      (Selection.clientRects selection)) eqn:E.
    + by apply existsb_exists in E.
    + exfalso. apply Hnot. right.
      intros rect [Hrect Hkept]%list_elem_of_In%filter_In.
      destruct (List.find (centerInside rect) pages) as [pageEl|] eqn:Hfind; [|done].
      exfalso. apply find_some in Hfind as [Hin Hc].
      assert (existsb (λ rect, keptRect rect && existsb (centerInside rect) pages)
                      (Selection.clientRects selection) = true) as E'; [|congruence].
      apply existsb_exists. exists rect. split; [done|]. rewrite Hkept. simpl.
      apply existsb_exists. eauto.
  - intros [Hrange (rect & Hrect & [Hkept Hc]%andb_true_iff)] [?|Hnone]; [done|].
    apply existsb_exists in Hc as (pageEl & Hin & Hc).
    assert (List.find (centerInside rect) pages = None) as Hfind.
    { apply Hnone, list_elem_of_In, filter_In. done. }
    by rewrite (List.find_none _ _ Hfind pageEl Hin) in Hc.
Qed.


Section Viewport.

Variables k dx dy : Q.
Hypothesis k_positive : (0 < k)%Q.

Lemma number_div_rescale (a b a' : Q) :
  (a' == k * a)%Q →
  number_eq (number_div Exact (Fin a') (k * b)) (number_div Exact (Fin a) b).
Proof.
  intros Ha. unfold number_div. cbn [toNumber rounded].
  assert (Hk : ¬ (k == 0)%Q) by (intros E; rewrite E in k_positive; by compute in k_positive).
  destruct (Qeq_bool b 0) eqn:Eb.
  - apply Qeq_bool_iff in Eb.
    assert (Qeq_bool (k * b) 0 = true) as ->; [|done].
    apply Qeq_bool_iff. rewrite Eb. ring.
  - assert (Hb : ¬ (b == 0)%Q).
    { intros E. apply Qeq_bool_iff in E. congruence. }
    assert (Qeq_bool (k * b) 0 = false) as ->.
    { destruct (Qeq_bool (k * b) 0) eqn:E; [|done].
      apply Qeq_bool_iff, Qmult_integral in E. tauto. }
    cbn [number_eq]. rewrite Ha. field. done.
Qed.

Lemma normalizeIn_exact_rescale rect box :
  HighlightRect_eq (normalizeIn Exact (rescale k dx dy rect) (rescale k dx dy box))
                   (normalizeIn Exact rect box).
Proof.
  unfold HighlightRect_eq, normalizeIn, rescale, number_sub.
  cbn [rounded HighlightRect.x HighlightRect.y HighlightRect.w HighlightRect.h
       DOMRect.left DOMRect.top DOMRect.width DOMRect.height].
  repeat split; apply number_div_rescale; ring.
Qed.

End Viewport.

Lemma number_within_eq n exact exact' :
  number_eq exact exact' → number_within n exact → number_within n exact'.
Proof.
  destruct exact as [q| |], exact' as [q'| |]; try done.
  cbn [number_eq number_within]. intros Hq. destruct n as [r| |]; [|done..].
  cbn [number_near]. by rewrite Hq.
Qed.

Lemma HighlightRect_within_eq rect exact exact' :
  HighlightRect_eq exact exact' →
  HighlightRect_within rect exact → HighlightRect_within rect exact'.
Proof.
  intros (Hx & Hy & Hw & Hh) (Hx' & Hy' & Hw' & Hh').
  repeat split; by eapply number_within_eq.
Qed.

(** X22. Over exact arithmetic the stored coordinates do not depend on the
    zoom level or on the scroll position: when every client coordinate is
    scaled by a factor [k > 0] and moved by [(dx, dy)], the coordinates taken
    against the page box are the same numbers, non-finite where they were
    non-finite.  In the doubles of the program they depend on them within
    rounding only: when the coordinates are in range at both zoom levels,
    each coordinate stored at either of them is finite and within [2^-51]
    of the same exact coordinate (within [2^-574] where that is smaller). *)
Theorem X22_stored_coordinates_across_zoom (k dx dy : Q) (rect box : DOMRect.t) :
  (0 < k)%Q →
  HighlightRect_eq (normalizeIn Exact (rescale k dx dy rect) (rescale k dx dy box))
                   (normalizeIn Exact rect box)
  ∧ (layoutRange rect box →
     layoutRange (rescale k dx dy rect) (rescale k dx dy box) →
     HighlightRect_within (normalize rect box) (normalizeIn Exact rect box)
     ∧ HighlightRect_within (normalize (rescale k dx dy rect) (rescale k dx dy box))
                            (normalizeIn Exact rect box)).
Proof.
  intros Hk. split; [by apply normalizeIn_exact_rescale|].
  intros Hrange Hrange'. split; [by apply normalize_within|].
  eapply HighlightRect_within_eq; [by apply (normalizeIn_exact_rescale k dx dy)|].
  by apply normalize_within.
Qed.

Lemma X22_stored_coordinates_across_zoom_witness :
  HighlightRect_within
    (normalize (rescale (11 # 10) 3 (-5) wordRect)
               (rescale (11 # 10) 3 (-5) (PageElement.box firstPage)))
    (normalizeIn Exact wordRect (PageElement.box firstPage)).
Proof.
  destruct (X22_stored_coordinates_across_zoom (11 # 10) 3 (-5) wordRect
              (PageElement.box firstPage)) as [_ Hdoubles]; [reflexivity|].
  destruct Hdoubles as [_ Hzoomed].
  - by vm_compute.
  - by vm_compute.
  - exact Hzoomed.
Defined.

(** In doubles the stored numbers do move with the zoom: the left edge 123
    on [firstPage], taken at a zoom of 1.1, is stored as another double. *)
Example stored_coordinates_move_with_zoom :
  let rect := DOMRect.mk 123 230 90 14 in
  let box := PageElement.box firstPage in
  ¬ number_eq (HighlightRect.x (normalize (rescale (11 # 10) 0 0 rect)
                                          (rescale (11 # 10) 0 0 box)))
              (HighlightRect.x (normalize rect box)).
Proof. vm_compute. discriminate. Qed.

(** X23. When the coordinates are in range, the coordinates stored for a
    rectangle against a page box are finite doubles, each within [2^-51]
    of the exact quotient (within [2^-574] where that is smaller); they
    are read back from the file as they were written, and the stored width
    and height of a kept rectangle are positive. *)
Theorem X23_stored_coordinates_are_accurate (rect box : DOMRect.t) :
  layoutRange rect box →
  HighlightRect_within (normalize rect box) (normalizeIn Exact rect box)
  ∧ asStoredRect (normalize rect box) = normalize rect box
  ∧ ∃ x y w h,
      normalize rect box = HighlightRect.mk (Fin x) (Fin y) (Fin w) (Fin h)
      ∧ (keptRect rect = true → (0 < w)%Q ∧ (0 < h)%Q).
Proof.
  intros Hrange.
  pose proof (normalize_within rect box Hrange) as Hwithin.
  split; [done|]. split; [by eapply asStoredRect_within|].
  destruct (layoutRange_size rect box Hrange) as [Hbw Hbh].
  destruct Hrange as (_ & _ & _ & _ & _ & _ & [Hw1 Hw2] & [Hh1 Hh2]).
  rewrite normalizeIn_exact in Hwithin by done.
  destruct Hwithin as (Hx & Hy & Hw & Hh).
  destruct (normalize rect box) as [x y w h].
  cbn [HighlightRect.x HighlightRect.y HighlightRect.w HighlightRect.h] in *.
  destruct x as [x| |]; [|done..]. destruct y as [y| |]; [|done..].
  destruct w as [w| |]; [|done..]. destruct h as [h| |]; [|done..].
  exists x, y, w, h. split; [done|].
  intros [Hkw Hkh]%keptRect_spec.
  assert (Hp : (0 < pow2 (-500))%Q) by apply pow2_pos.
  assert (Hs : (pow2 (-520) * pow2 500 <= 1)%Q) by (by vm_compute).
  assert (Hp' : (0 < pow2 (-520))%Q) by apply pow2_pos.
  split.
  - destruct (within_pos (Fin w) (DOMRect.width rect / DOMRect.width box))
      as (w' & [= ->] & Hpos); [| |done|done].
    + apply Qlt_shift_div_l; lra.
    + apply Qle_shift_div_l; [lra|]. 
      apply Qle_trans with (pow2 (-520) * pow2 500)%Q; [|lra].
      apply Qmult_le_l; done.
  - destruct (within_pos (Fin h) (DOMRect.height rect / DOMRect.height box))
      as (h' & [= ->] & Hpos); [| |done|done].
    + apply Qlt_shift_div_l; lra.
    + apply Qle_shift_div_l; [lra|].
      apply Qle_trans with (pow2 (-520) * pow2 500)%Q; [|lra].
      apply Qmult_le_l; done.
Qed.

Lemma X23_stored_coordinates_are_accurate_witness :
  HighlightRect_within (normalize wordRect (PageElement.box firstPage))
                       (normalizeIn Exact wordRect (PageElement.box firstPage))
  ∧ asStoredRect (normalize wordRect (PageElement.box firstPage))
    = normalize wordRect (PageElement.box firstPage).
Proof.
  destruct (X23_stored_coordinates_are_accurate wordRect (PageElement.box firstPage))
    as (Hwithin & Hstored & _).
  - by vm_compute.
  - split; [exact Hwithin|exact Hstored].
Defined.

Section Layer.

Lemma find_NoDup (entries : list HighlightPage.t) (number : Z) :
  NoDup (HighlightPage.page <$> entries) →
  match List.find (λ e, bool_decide (HighlightPage.page e = number)) entries with
  | Some entry => [entry]
  | None => []
  end
  = List.filter (λ e, bool_decide (HighlightPage.page e = number)) entries.
Proof.
  induction entries as [|entry entries IH]; [done|].
  rewrite fmap_cons. intros [Hnotin Hdup]%NoDup_cons. cbn [List.find List.filter].
  case_bool_decide as Heq.
  - f_equal. symmetry. apply List_filter_none. intros e He.
    apply bool_decide_eq_false_2. intros E. apply Hnotin. rewrite Heq, <- E.
    by apply list_elem_of_fmap_2.
  - by apply IH.
Qed.

End Layer.

(** X24. Drawing a page goes through the highlights in their order and, for
    each, draws the rectangles of its page entry for the number of the page.
    When the page entries of every highlight have distinct page numbers, as
    those of captured highlights have, every stored rectangle of the page is
    drawn exactly once, in the colour of its highlight. *)
Theorem X24_every_rectangle_is_drawn (highlights : list Highlight.t)
    (pageEl : PageElement.t) :
  Forall (λ h, NoDup (HighlightPage.page <$> Highlight.pages h)) highlights →
  highlightLayer highlights pageEl
  = (h ← highlights;
     entry ← List.filter (λ e, bool_decide (HighlightPage.page e = pageIndex pageEl))
                         (Highlight.pages h);
     overlayOf h <$> HighlightPage.rects entry)
  ∧ Forall (λ o, ∃ h, h ∈ highlights
                      ∧ Overlay.background o = COLOR_MAP (Highlight.color h)
                      ∧ Overlay.flashcardClass o = Highlight.isFlashcard h)
           (highlightLayer highlights pageEl).
Proof.
  intros Hdup. split.
  - unfold highlightLayer.
    induction Hdup as [|h highlights Hh Hdup IH]; [done|].
    rewrite !bind_cons, IH. f_equal.
    rewrite <- (find_NoDup _ _ Hh).
    destruct (List.find _ (Highlight.pages h)); [|done].
    rewrite bind_cons. symmetry. apply app_nil_r.
  - clear Hdup. unfold highlightLayer. apply Forall_forall. intros o Ho.
    apply list_elem_of_bind in Ho as (h & Ho & Hh).
    exists h. split; [done|].
    destruct (List.find _ (Highlight.pages h)); [|by apply elem_of_nil in Ho].
    by apply list_elem_of_fmap in Ho as (rect & -> & _).
Qed.

Lemma X24_every_rectangle_is_drawn_witness :
  highlightLayer [Highlight.mk "h2" flashcard true "what to remember" 0
                    [HighlightPage.mk 0 [normalize wordRect (PageElement.box firstPage)]]
                    None] firstPage
  = (h ← [Highlight.mk "h2" flashcard true "what to remember" 0
            [HighlightPage.mk 0 [normalize wordRect (PageElement.box firstPage)]] None];
     entry ← List.filter (λ e, bool_decide (HighlightPage.page e = pageIndex firstPage))
                         (Highlight.pages h);
     overlayOf h <$> HighlightPage.rects entry).
Proof.
  apply (X24_every_rectangle_is_drawn
           [Highlight.mk "h2" flashcard true "what to remember" 0
              [HighlightPage.mk 0 [normalize wordRect (PageElement.box firstPage)]] None]
           firstPage).
  constructor; [apply (NoDup_singleton 0)|constructor].
Defined.

Section Response.

Lemma extractFromOutput_truthy output v :
  extractFromOutput output = Ok (Some v) → truthy (Some v) = true.
Proof.
  induction output as [|item rest IH]; [done|]. cbn [extractFromOutput].
  destruct (typeIs item "message"); [|exact IH].
  destruct (getProperty item "content") as [[| | | |content|]|]; try exact IH.
  destruct (findTextPart content) as [[textPart|]|]; [|exact IH|done].
  destruct (truthy (getProperty textPart "text")) eqn:E; [|exact IH].
  intros [= H]. by rewrite H in E.
Qed.

Lemma nonEmptyString_truthy v s : nonEmptyString v = Some s → truthy (Some (JString s)) = true.
Proof.
  destruct v as [[| | |s'| |]|]; simpl; try done.
  case_decide; [done|]. intros [= <-]. by apply bool_decide_eq_true.
Qed.

End Response.

(** X25. What is taken from a response is the empty string or a value that
    counts as true.  The empty string is returned only when neither
    [output_text] nor [content] is a non-empty string; and when [output] is
    not an array, what is returned is a string. *)
Theorem X25_extractOutputText (data v : json) :
  extractOutputText data = Ok v →
  (v = JString "" ∨ truthy (Some v) = true)
  ∧ (v = JString "" →
     nonEmptyString (getProperty data "output_text") = None
     ∧ nonEmptyString (getProperty data "content") = None)
  ∧ ((∀ output, getProperty data "output" ≠ Some (JArray output)) → ∃ s, v = JString s).
Proof.
  unfold extractOutputText.
  assert (Hcases :
    match nonEmptyString (getProperty data "output_text") with
    | Some s => Ok (JString s)
    | None =>
        found ← match getProperty data "output" with
                | Some (JArray output) => extractFromOutput output
                | _ => Ok None
                end;
        match found with
        | Some text => Ok text
        | None =>
            match nonEmptyString (getProperty data "content") with
            | Some s => Ok (JString s)
            | None => Ok (JString "")
            end
        end
    end = Ok v →
    (v = JString "" ∨ truthy (Some v) = true)
    ∧ (v = JString "" →
       nonEmptyString (getProperty data "output_text") = None
       ∧ nonEmptyString (getProperty data "content") = None)
    ∧ ((∀ output, getProperty data "output" ≠ Some (JArray output)) → ∃ s, v = JString s)).
  { destruct (nonEmptyString (getProperty data "output_text")) as [s|] eqn:Htext.
    { intros [= <-]. pose proof (nonEmptyString_truthy _ _ Htext) as Ht.
      split; [by right|]. split; [|by eauto].
      intros [= ->]. done. }
    destruct (match getProperty data "output" with
              | Some (JArray output) => extractFromOutput output
              | _ => Ok None
              end) as [[text|]|] eqn:Hfound; result_bind; [| |done].
    - intros [= <-]. split; [|split].
      + right. destruct (getProperty data "output") as [[| | | |output|]|]; try done.
        by apply (extractFromOutput_truthy output).
      + intros ->.
        destruct (getProperty data "output") as [[| | | |output|]|]; try done.
        by apply extractFromOutput_truthy in Hfound.
      + intros Hno.
        destruct (getProperty data "output") as [[| | | |output|]|]; try done.
        by destruct (Hno output).
    - destruct (nonEmptyString (getProperty data "content")) as [str|] eqn:Hcontent.
      + intros [= <-]. pose proof (nonEmptyString_truthy _ _ Hcontent) as Ht.
        split; [by right|]. split; [|by eauto]. intros [= ->]. done.
      + intros [= <-]. split; [by left|]. split; [done|by eauto]. }
  destruct data; [done|exact Hcases..].
Qed.

Lemma X25_extractOutputText_witness :
  (JString "[]" = JString "" ∨ truthy (Some (JString "[]")) = true)
  ∧ (JString "[]" = JString "" →
     nonEmptyString (getProperty messageResponse "output_text") = None
     ∧ nonEmptyString (getProperty messageResponse "content") = None)
  ∧ ((∀ output, getProperty messageResponse "output" ≠ Some (JArray output))
     → ∃ s, JString "[]" = JString s).
Proof.
  apply (X25_extractOutputText messageResponse (JString "[]")). reflexivity.
Defined.

Section Trimming.

Lemma trimStart_head s :
  match trimStart s with
  | EmptyString => True
  | String c _ => isSpace c = false
  end.
Proof.
  induction s as [|c s IH]; [done|]. simpl.
  destruct (isSpace c) eqn:E; [done|]. simpl. done.
Qed.

Lemma trimEnd_idempotent s : trimEnd (trimEnd s) = trimEnd s.
Proof.
  induction s as [|c s IH]; [done|]. cbn [trimEnd].
  destruct (isSpace c && bool_decide (trimEnd s = "")) eqn:E; [done|].
  cbn [trimEnd]. rewrite IH, E. done.
Qed.

Lemma trim_idempotent s : trim (trim s) = trim s.
Proof.
  unfold trim. pose proof (trimStart_head s) as Hhead.
  destruct (trimStart s) as [|c rest]; [done|].
  cbn [trimEnd]. rewrite Hhead. cbn [andb trimStart]. rewrite Hhead.
  cbn [trimEnd]. rewrite Hhead. cbn [andb]. by rewrite trimEnd_idempotent.
Qed.

End Trimming.

(** X26. The settings tab stores trimmed values: the value it stores in a
    field, put into the field again, changes nothing; the model and the
    storage folder are never blank; files, notes and the cached progress are
    not touched.  With a key of whitespace only, generation stops at the
    notice that asks for the key. *)
Theorem X26_settings_tab (p : Plugin.t) (value : string) :
  let pk := changeApiKey p value in
  let pm := changeModel p value in
  let pf := changeStorageFolder p value in
  PluginSettings.apiKey (Plugin.settings pk) = trim value
  ∧ changeApiKey pk (PluginSettings.apiKey (Plugin.settings pk)) = pk
  ∧ PluginSettings.model (Plugin.settings pm) ≠ ""
  ∧ changeModel pm (PluginSettings.model (Plugin.settings pm)) = pm
  ∧ changeStorageFolder pf (PluginSettings.storageFolder (Plugin.settings pf)) = pf
  ∧ Forall (λ p', Plugin.adapter p' = Plugin.adapter p
                  ∧ Plugin.notes p' = Plugin.notes p
                  ∧ Plugin.progressCache p' = Plugin.progressCache p) [pk; pm; pf]
  ∧ (trim value = "" →
     ∀ callOpenAI freshId now file,
       generateFlashcardsFromActivePdf callOpenAI freshId now pk (Some file)
       = Ok (pk, "Set your OpenAI API key in the plugin settings.")).
Proof.
  intros pk pm pf.
  split; [done|].
  split.
  { unfold pk, changeApiKey, with_settings. simpl. by rewrite trim_idempotent. }
  split.
  { unfold pm, changeModel, with_settings, string_or. simpl. by case_decide. }
  split.
  { unfold pm, changeModel, with_settings, string_or. simpl.
    destruct (decide (trim value = "")) as [E|E].
    - done.
    - rewrite trim_idempotent. by rewrite decide_False. }
  split.
  { unfold pf, changeStorageFolder, with_settings, string_or. simpl.
    destruct (decide (trim value = "")) as [E|E].
    - done.
    - rewrite trim_idempotent. by rewrite decide_False. }
  split; [by repeat constructor|].
  intros Hblank callOpenAI freshId now file.
  unfold generateFlashcardsFromActivePdf. rewrite decide_True; [done|].
  exact Hblank.
Qed.

Lemma X26_settings_tab_witness :
  generateFlashcardsFromActivePdf answeringModel numberedId 0
    (changeApiKey paperPlugin "   ") (Some paper)
  = Ok (changeApiKey paperPlugin "   ",
        "Set your OpenAI API key in the plugin settings.").
Proof.
  apply (X26_settings_tab paperPlugin "   "). reflexivity.
Defined.

(** X27. Changing the storage folder does not drop the cached progress:
    the progress read afterwards is that of the cache, the next grade writes
    it, with the graded card, into the progress file of the new folder, and
    the cards are those of the cards file of the new folder, none when there
    is no such file. *)
Theorem X27_folder_change_keeps_the_cached_progress (p : Plugin.t) (value : string)
    (data : ProgressFile.t) (now : Date) (cardId : string) (isGood : bool) :
  Plugin.progressCache p = Some data →
  let p' := changeStorageFolder p value in
  let current := buildNextProgress now (ProgressFile.progress data !! cardId) isGood in
  (∃ p1, loadProgress p' = Ok (p1, ProgressFile.progress data))
  ∧ (∃ p2,
       updateProgressOptimistic now p' cardId isGood = Ok (p2, current)
       ∧ Adapter.files (Plugin.adapter p2) !! progressPath p'
         = Some (ProgressJson
                   (ProgressFile.mk (ProgressFile.version data)
                      (<[cardId := current]> (ProgressFile.progress data)))))
  ∧ loadAllCards p'
    = Ok (p', match Adapter.files (Plugin.adapter p) !! flashcardPath p' with
              | Some (FlashcardJson doc) => FlashcardFile.cards doc
              | _ => []
              end).
Proof.
  intros Hcache p' current.
  assert (Hcached : cachedProgress p' = Ok data) by (by apply cachedProgress_cached).
  split; [|split].
  - eexists. by apply loadProgress_eq.
  - eexists. split.
    + unfold updateProgressOptimistic. rewrite cachedProgress_ensure, Hcached. done.
    + rewrite writeJson_files. cbn [Plugin.with_progressCache Plugin.adapter].
      by rewrite progressPath_ensure, lookup_insert_eq.
  - unfold loadAllCards. rewrite ensureStorageFolder_false, readJson_files.
    change (Adapter.files (Plugin.adapter p')) with (Adapter.files (Plugin.adapter p)).
    by destruct (Adapter.files (Plugin.adapter p) !! flashcardPath p') as [[| |d|d|d]|].
Qed.

Lemma X27_folder_change_keeps_the_cached_progress_witness :
  ∃ p1 before,
    Plugin.progressCache storedAB = Some before
    ∧ loadProgress (changeStorageFolder storedAB "elsewhere")
      = Ok (p1, ProgressFile.progress before)
    ∧ loadAllCards (changeStorageFolder storedAB "elsewhere")
      = Ok (changeStorageFolder storedAB "elsewhere", []).
Proof.
  destruct (X27_folder_change_keeps_the_cached_progress storedAB "elsewhere"
              (ProgressFile.mk PROGRESS_VERSION
                 {[ "a" := buildNextProgress 0 None true;
                    "b" := buildNextProgress 0 None false ]}) 0 "a" true)
    as ([p1 Hload] & _ & Hcards); [reflexivity|].
  exists p1, (ProgressFile.mk PROGRESS_VERSION
                {[ "a" := buildNextProgress 0 None true;
                   "b" := buildNextProgress 0 None false ]}).
  split; [reflexivity|]. split; [exact Hload|].
  rewrite Hcards. by vm_compute.
Defined.

(** X28. The three screens of the review session.  The view says that there
    are no flashcards exactly when it holds no card, and that all are
    finished exactly when it holds cards and every one of them is done;
    otherwise it shows the question, or once clicked the answer, of a card
    that is not done, and counts the cards that are not done, at least one
    and at most all.  Clicking the card twice shows the same side again. *)
Theorem X28_screens (v : FlashcardView.t) :
  match render v with
  | NoFlashcardsYet => FlashcardView.cards v = []
  | FinishedAll =>
      FlashcardView.cards v ≠ []
      ∧ Forall (λ card, isDone (FlashcardView.progress v) card = true)
               (FlashcardView.cards v)
  | ShowCard text remaining total =>
      ∃ card,
        currentCard v = Some card
        ∧ card ∈ FlashcardView.cards v
        ∧ isDone (FlashcardView.progress v) card = false
        ∧ text = (if FlashcardView.showingAnswer v
                  then Flashcard.answer card else Flashcard.question card)
        ∧ remaining = length (remainingCards v)
        ∧ total = length (FlashcardView.cards v)
        ∧ (1 <= remaining <= total)%nat
  end
  ∧ toggleAnswer (toggleAnswer v) = v
  ∧ currentCard (toggleAnswer v) = currentCard v
  ∧ FlashcardView.showingAnswer (toggleAnswer v) = negb (FlashcardView.showingAnswer v).
Proof.
  split.
  - unfold render. destruct (currentCard v) as [card|] eqn:Hcurrent.
    + exists card. split; [done|].
      pose proof (currentCard_remaining _ _ Hcurrent) as Hin.
      split; [by apply list_elem_of_filter in Hin as [_ Hin]|].
      split; [by apply (currentCard_not_done v)|].
      do 3 (split; [done|]). split.
      * destruct (remainingCards v); [by apply elem_of_nil in Hin|simpl; lia].
      * unfold remainingCards. apply length_filter.
    + unfold currentCard in Hcurrent. case_decide as Hnone.
      * case_decide as Hcards; [by apply length_zero_iff_nil|].
        split; [by intros E; rewrite E in Hcards|].
        apply length_zero_iff_nil in Hnone. apply Forall_forall. intros card Hcard.
        destruct (isDone (FlashcardView.progress v) card) eqn:E; [done|].
        assert (card ∈ remainingCards v) as Hin by (by apply list_elem_of_filter).
        rewrite Hnone in Hin. by apply elem_of_nil in Hin.
      * exfalso. apply lookup_ge_None in Hcurrent.
        pose proof (Nat.mod_upper_bound (FlashcardView.index v)
                      (length (remainingCards v)) Hnone). lia.
  - by destruct v as [cards index [|] progress].
Qed.

Section Bullets.

Lemma isBullet_bullet h : isBullet (bullet h) = true.
Proof. reflexivity. Qed.

Lemma bullets_of_group (color : HighlightColor) (group : list Highlight.t) :
  List.filter isBullet
    match group with
    | [] => []
    | _ => ["## " +:+ titleForColor color] ++ (bullet <$> group) ++ [""]
    end
  = bullet <$> group.
Proof.
  destruct group as [|h group]; [done|].
  set (g := h :: group). cbn [app List.filter].
  assert (isBullet ("## " +:+ titleForColor color) = false) as -> by reflexivity.
  rewrite List.filter_app. cbn [List.filter].
  assert (isBullet "" = false) as -> by reflexivity. rewrite app_nil_r.
  clearbody g. induction g as [|h' g IH]; [done|].
  rewrite fmap_cons. cbn [List.filter]. by rewrite isBullet_bullet, IH.
Qed.

Lemma filter_split_Permutation {A} (P Q : A → Prop)
    `{∀ x, Decision (P x)} `{∀ x, Decision (Q x)} (l : list A) :
  (∀ x, P x → Q x → False) →
  filter P l ++ filter Q l ≡ₚ filter (λ x, P x ∨ Q x) l.
Proof.
  intros Hdisjoint. induction l as [|x l IH]; [done|].
  destruct (decide (P x)) as [HP|HP], (decide (Q x)) as [HQ|HQ].
  - by destruct (Hdisjoint x).
  - rewrite (filter_cons_True P), (filter_cons_False Q),
      (filter_cons_True (λ x, P x ∨ Q x)) by tauto.
    simpl. by rewrite IH.
  - rewrite (filter_cons_False P), (filter_cons_True Q),
      (filter_cons_True (λ x, P x ∨ Q x)) by tauto.
    rewrite <- Permutation_middle. by rewrite IH.
  - rewrite (filter_cons_False P), (filter_cons_False Q),
      (filter_cons_False (λ x, P x ∨ Q x)) by tauto.
    done.
Qed.

Lemma groups_Permutation (highlights : list Highlight.t) :
  (colorOrder ≫= λ color, filter (λ h, Highlight.color h = color) highlights)
  ≡ₚ highlights.
Proof.
  unfold colorOrder. rewrite !bind_cons. change ([] ≫= _) with (@nil Highlight.t).
  rewrite app_nil_r.
  rewrite (filter_split_Permutation (λ h, Highlight.color h = green)
             (λ h, Highlight.color h = blue)) by congruence.
  rewrite (filter_split_Permutation (λ h, Highlight.color h = yellow)
             (λ h, Highlight.color h = green ∨ Highlight.color h = blue))
    by (intros h -> [?|?]; congruence).
  rewrite (filter_split_Permutation (λ h, Highlight.color h = flashcard)
             (λ h, Highlight.color h = yellow
                   ∨ Highlight.color h = green ∨ Highlight.color h = blue))
    by (intros h -> [?|[?|?]]; congruence).
  induction highlights as [|h highlights IH]; [done|].
  rewrite filter_cons_True; [by rewrite IH|].
  destruct (Highlight.color h); tauto.
Qed.

Lemma bullets_of_groupLines (highlights : list Highlight.t) :
  List.filter isBullet (groupLines highlights)
  = bullet <$> (colorOrder ≫= λ color, filter (λ h, Highlight.color h = color) highlights).
Proof.
  unfold groupLines, colorOrder. rewrite !bind_cons.
  change ([] ≫= _) with (@nil string) at 1.
  change ([] ≫= _) with (@nil Highlight.t).
  rewrite !List.filter_app, !fmap_app, !bullets_of_group. done.
Qed.

End Bullets.

(** X29. The export loses no highlight and invents none: the bullets of the
    exported note are the bullets of the highlights of the document, each
    once, grouped by colour; every other line is a heading or empty. *)
Theorem X29_export_lists_every_highlight (file : TFile.t)
    (highlights : list Highlight.t) :
  highlights ≠ [] →
  ∃ lines,
    buildAnnotationMarkdown file highlights
    = trimEnd (String.concat newline lines) +:+ newline
    ∧ List.filter isBullet lines ≡ₚ bullet <$> highlights
    ∧ Forall (λ line, isBullet line = true ∨ line = ""
                      ∨ ∃ color, line = "## " +:+ titleForColor color) lines.
Proof.
  intros Hne. exists (groupLines highlights).
  split; [by apply buildAnnotationMarkdown_lines|]. split.
  - rewrite bullets_of_groupLines. apply fmap_Permutation, groups_Permutation.
  - unfold groupLines. apply Forall_forall. intros line Hline.
    apply list_elem_of_bind in Hline as (color & Hline & _).
    destruct (filter _ highlights) as [|h group]; [by apply elem_of_nil in Hline|].
    apply elem_of_app in Hline as [Hline|Hline].
    { apply list_elem_of_singleton in Hline as ->. right. right. by exists color. }
    apply elem_of_app in Hline as [Hline|Hline].
    + apply list_elem_of_fmap in Hline as (h' & -> & _). by left.
    + apply list_elem_of_singleton in Hline as ->. right. by left.
Qed.

Lemma X29_export_lists_every_highlight_witness :
  ∃ lines,
    buildAnnotationMarkdown paper paperHighlights
    = trimEnd (String.concat newline lines) +:+ newline
    ∧ List.filter isBullet lines ≡ₚ bullet <$> paperHighlights
    ∧ Forall (λ line, isBullet line = true ∨ line = ""
                      ∨ ∃ color, line = "## " +:+ titleForColor color) lines.
Proof.
  apply (X29_export_lists_every_highlight paper paperHighlights). discriminate.
Defined.

(** X30. With a blank storage folder in the settings, the folder that is
    looked for and created is [.flashcards], while the documents are read
    and written outside it, under paths that begin with a slash; creating
    the folder does not change those paths. *)
Theorem X30_blank_storage_folder (p : Plugin.t) (sourcePath : string) :
  PluginSettings.storageFolder (Plugin.settings p) = "" →
  let p1 := ensureStorageFolder p true in
  Adapter.exists_ (Plugin.adapter p1) ".flashcards" = true
  ∧ Adapter.folders (Plugin.adapter p1) ⊆ {[".flashcards"]} ∪ Adapter.folders (Plugin.adapter p)
  ∧ flashcardPath p1 = "/flashcards.json"
  ∧ progressPath p1 = "/progress.json"
  ∧ highlightPathFor p1 sourcePath = "/highlights-" +:+ hashString sourcePath +:+ ".json".
Proof.
  intros Hblank p1.
  assert (Hof : storageFolderOf p = ".flashcards").
  { unfold storageFolderOf. by rewrite Hblank. }
  split; [rewrite <- Hof; apply ensureStorageFolder_exists|].
  split.
  { unfold p1, ensureStorageFolder. fold (storageFolderOf p). rewrite Hof.
    case_match; simpl; [done|]. apply union_subseteq_r. }
  unfold flashcardPath, progressPath, highlightPathFor, p1.
  by rewrite ensureStorageFolder_settings, Hblank.
Qed.

Lemma X30_blank_storage_folder_witness :
  let p := changeStorageFolder freshPlugin "x" in
  let p0 := with_settings p (PluginSettings.mk "" "gpt-5.1" "") in
  flashcardPath (ensureStorageFolder p0 true) = "/flashcards.json"
  ∧ Adapter.exists_ (Plugin.adapter (ensureStorageFolder p0 true)) ".flashcards" = true.
Proof.
  intros p p0.
  destruct (X30_blank_storage_folder p0 "notes/paper.pdf") as (Hexists & _ & Hcards & _);
    [reflexivity|].
  split; [exact Hcards|exact Hexists].
Defined.
